(** * OpenMVS Viewer: selection, picking and background jobs

    A shallow embedding of the interactive core of [apps/Viewer]:
    [Image.cpp] (the deferred image slot), and [Scene.cpp] (the worker
    loop and its jobs, the pick resolver [Scene::OnCastRay], the
    selection-derived geometry operations and the index translation
    [Scene::ImageIdxMVS2Viewer]).

    Conventions.
    - Unsigned 32-bit values ([MVS::IIndex], [IDX], [unsigned]) are
      integers in [Z]; the arithmetic that can wrap ([idx+1], the counters
      of [CropToPoints]) is reduced modulo 2^32.
    - An [ASSERT] is a failure: a function that asserts returns [option]
      and [None] stands for the failed assertion.
    - Calls into collaborators that are not part of the viewer core
      (renderer, camera, arcball controls, log) are recorded, in order,
      as a list ([Call]s for the pick resolver, [Effect]s for the scene
      operations) returned next to the new state.
    - Results of collaborators that the viewer only consumes (ray/octree
      intersection, image decoding, GL texture names) are inputs.
    - [float] is IEEE 754 binary32, with the arithmetic of the Standard
      Library's [SpecFloat] at 24 bits of precision. *)

From Stdlib Require Import ZArith QArith Lia List Bool.
From Stdlib Require Floats.SpecFloat.
From stdpp Require Import gmap list.
Import ListNotations.

Local Open Scope Z_scope.

(** ** Common definitions *)

(** [NO_ID] is the all-ones value of [uint32_t]. *)
Definition NO_ID : Z := 4294967295.
(** [NO_IDX] is the all-ones value of the container index type [IDX]. *)
Definition NO_IDX : Z := NO_ID.

(** Arithmetic on [MVS::IIndex] wraps at 32 bits. *)
Definition IIndex_wrap (z : Z) : Z := z mod 2 ^ 32.

(** [MINF(a,b)] *)
Definition MINF (a b : Z) : Z := if a <? b then a else b.

(** ** Image.cpp: the deferred image slot *)

Module Image.

(** [cv::Mat], reduced to the size the viewer looks at.  The pixel
    format (the number of channels and the continuity of the data, which
    [SetImage] asserts) is not modelled: a [Mat] stands for an image as
    the decoder delivers it. *)
Record Mat := mkMat { cols : Z; rows : Z }.

(** Modelled from the spec: [Image.h] (the union [ImagePtrInt], the
    constants [IMG_NULL], [IMG_LOADING] and the predicates
    [IsImageEmpty], [IsImageLoading], [IsImageValid], [IsValid]) is not
    among the sources.  The slot is "one of EMPTY, LOADING,
    READY(buffer)", the pointer value doubling as the EMPTY and LOADING
    sentinels. *)
Inductive ImagePtrInt :=
| IMG_NULL
| IMG_LOADING
| IMG_PTR (m : Mat).

Record Image := mkImage {
  idx : Z;            (* index in the MVS scene *)
  texture : Z;        (* GL texture name, 0 when none *)
  width : Z;
  height : Z;
  pImage : ImagePtrInt
}.

Definition set_pImage (p : ImagePtrInt) (im : Image) : Image :=
  mkImage (idx im) (texture im) (width im) (height im) p.

Definition IsValid (im : Image) : bool := 0 <? texture im.
Definition IsImageEmpty (im : Image) : bool :=
  match pImage im with IMG_NULL => true | _ => false end.
Definition IsImageLoading (im : Image) : bool :=
  match pImage im with IMG_LOADING => true | _ => false end.
Definition IsImageValid (im : Image) : bool :=
  match pImage im with IMG_PTR _ => true | _ => false end.

(** [Image::Image(idx)] *)
Definition new (i : Z) : Image := mkImage i 0 0 0 IMG_NULL.

(** [Image::ReleaseImage] *)
Definition ReleaseImage (im : Image) : Image :=
  if IsImageValid im then set_pImage IMG_NULL im else im.

(** [Image::Release] (the destructor runs it too): the texture is
    deleted, then the buffer released. *)
Definition Release (im : Image) : Image :=
  ReleaseImage
    (if IsValid im then mkImage (idx im) 0 (width im) (height im) (pImage im)
     else im).

(** [Image::SetImageLoading]; [None] is the failed [ASSERT]. *)
Definition SetImageLoading (im : Image) : option Image :=
  if IsImageEmpty im then Some (set_pImage IMG_LOADING im) else None.

(** [cv::resize(src, dst, cv::Size(w, h), 0, 0, cv::INTER_AREA)] is
    OpenCV's.  With both scale factors 0 the target size has to be given:
    the call throws when the source is empty or when the target size is
    empty, that is when a width or a height is not positive; [None] is
    the exception. *)
Definition resize (src : Mat) (w h : Z) : option Mat :=
  if (cols src <=? 0) || (rows src <=? 0) || (w <=? 0) || (h <=? 0) then None
  else Some (mkMat w h).

(** The copy made by [AssignImage] (lines 206-210): a width that is not
    a multiple of 4 is cut down to one by [cv::resize]; for the widths 1,
    2 and 3 the target width [(cols/4)*4] is 0. *)
Definition fit_width (m : Mat) : option Mat :=
  if negb (Z.rem (cols m) 4 =? 0)
  then resize m (Z.quot (cols m) 4 * 4) (rows m)
  else Some m.

(** [Image::AssignImage]; [None] is the failed [ASSERT], or the
    exception of [cv::resize]. *)
Definition AssignImage (img : Mat) (im : Image) : option Image :=
  if IsImageLoading im then
    match fit_width img with
    | Some m => Some (set_pImage (IMG_PTR m) im)
    | None => None
    end
  else None.

(** [Image::SetImage]: [tex] is the name returned by [glGenTextures]. *)
Definition SetImage (tex : Z) (img : Mat) (im : Image) : Image :=
  mkImage (idx im) tex (cols img) (rows img) (pImage im).

(** [Image::TransferImage] *)
Definition TransferImage (tex : Z) (im : Image) : bool * Image :=
  match pImage im with
  | IMG_PTR m => (true, ReleaseImage (SetImage tex m im))
  | _ => (false, im)
  end.

End Image.

(** ** Scene.cpp: MVS index to viewer index *)

Module ImageIdx.

(** The loop [while (i-- > 0) if (images[i].idx == idx) return i;]
    started at [i]; [images[j]] is always inside the list here, the
    [None] branch only makes the function total. *)
Fixpoint search_backwards (images : list Image.Image) (idx : Z) (i : nat) : Z :=
  match i with
  | O => NO_ID
  | S j =>
      match images !! j with
      | Some im =>
          if Image.idx im =? idx then Z.of_nat j
          else search_backwards images idx j
      | None => search_backwards images idx j
      end
  end.

(** [Scene::ImageIdxMVS2Viewer] *)
Definition ImageIdxMVS2Viewer (images : list Image.Image) (idx : Z) : Z :=
  let i := MINF (IIndex_wrap (idx + 1)) (Z.of_nat (length images)) in
  search_backwards images idx (Z.to_nat i).

(** The viewer list holds the valid MVS images in increasing order of
    their MVS index, none of them [NO_ID]. *)
Definition increasing (images : list Image.Image) : Prop :=
  (∀ (i : nat) a, images !! i = Some a → 0 <= Image.idx a < NO_ID) ∧
  (∀ (i j : nat) a b, images !! i = Some a → images !! j = Some b →
     (i < j)%nat → Image.idx a < Image.idx b).

End ImageIdx.

(** ** Scene.cpp: the pick resolver [Scene::OnCastRay] *)

(** What [OnCastRay] does with [REAL] (double) values: subtraction of
    time stamps, the comparison [<] (with [a > b] read as [b < a]), the
    decimal literals and [REAL(FLT_MAX)].  Nothing else is assumed of
    them. *)
Class RealOps (REAL : Type) := {
  Rminus : REAL → REAL → REAL;
  Rltb : REAL → REAL → bool;
  Rconst : Q → REAL;
  FLT_MAX : REAL
}.

(** [Window::SELECTION] *)
Inductive SELECTION := SEL_NA | SEL_POINT | SEL_TRIANGLE | SEL_CAMERA.

(** [Window::ControlMode] *)
Inductive CONTROL_MODE := CONTROL_ARCBALL | CONTROL_FIRST_PERSON | CONTROL_SELECTION.

Definition SELECTION_eqb (a b : SELECTION) : bool :=
  match a, b with
  | SEL_NA, SEL_NA | SEL_POINT, SEL_POINT
  | SEL_TRIANGLE, SEL_TRIANGLE | SEL_CAMERA, SEL_CAMERA => true
  | _, _ => false
  end.

(** GLFW constants *)
Definition GLFW_RELEASE : Z := 0.
Definition GLFW_PRESS : Z := 1.
Definition GLFW_MOD_CONTROL : Z := 2.
Definition GLFW_MOD_ALT : Z := 4.

(** [mods & flag] as a condition *)
Definition has_mod (mods flag : Z) : bool := negb (Z.land mods flag =? 0).

Module Pick.
Section WithReal.
Context {REAL : Type} `{RealOps REAL} {Point3f : Type}.

(** [Point3f x[4]] *)
Record Points4 := mkPoints4 { p0 : Point3f; p1 : Point3f; p2 : Point3f; p3 : Point3f }.

(** The members of [Window] that [Scene.cpp] reads and writes when it
    resolves a pick ([Window.h] is not among the sources). *)
Record Window := mkWindow {
  selectionType : SELECTION;
  selectionIdx : Z;
  selectionPoints : Points4;
  selectionTimeClick : REAL;
  selectionTime : REAL;
  selectedNeighborCamera : Z;
  showMesh : bool;
  showPointCloud : bool;
  minViews : Z;
  controlMode : CONTROL_MODE
}.

Definition set_selectionType (t : SELECTION) (w : Window) : Window :=
  mkWindow t (selectionIdx w) (selectionPoints w) (selectionTimeClick w)
    (selectionTime w) (selectedNeighborCamera w) (showMesh w)
    (showPointCloud w) (minViews w) (controlMode w).
Definition set_selectionTimeClick (t : REAL) (w : Window) : Window :=
  mkWindow (selectionType w) (selectionIdx w) (selectionPoints w) t
    (selectionTime w) (selectedNeighborCamera w) (showMesh w)
    (showPointCloud w) (minViews w) (controlMode w).
Definition set_selectionTime (t : REAL) (w : Window) : Window :=
  mkWindow (selectionType w) (selectionIdx w) (selectionPoints w)
    (selectionTimeClick w) t (selectedNeighborCamera w) (showMesh w)
    (showPointCloud w) (minViews w) (controlMode w).
Definition set_selectedNeighborCamera (c : Z) (w : Window) : Window :=
  mkWindow (selectionType w) (selectionIdx w) (selectionPoints w)
    (selectionTimeClick w) (selectionTime w) c (showMesh w)
    (showPointCloud w) (minViews w) (controlMode w).
Definition set_selection (i : Z) (pts : Points4) (w : Window) : Window :=
  mkWindow (selectionType w) i pts (selectionTimeClick w)
    (selectionTime w) (selectedNeighborCamera w) (showMesh w)
    (showPointCloud w) (minViews w) (controlMode w).

(** [pick] of [MVS::IntersectRayMesh] and [MVS::IntersectRayPoints]; an
    invalid pick is [None]. *)
Record PickResult := mkPick { pick_idx : Z; pick_dist : REAL }.

(** What the scene and the intersection routines answer for the ray of
    one [OnCastRay] call. *)
Record Cast := mkCast {
  IsOpen : bool;                              (* Scene::IsOpen() *)
  octMeshIsEmpty : bool;                      (* octMesh.IsEmpty() *)
  octPointsIsEmpty : bool;                    (* octPoints.IsEmpty() *)
  nImages : Z;                                (* scene.images.size() *)
  IntersectRayMesh : option PickResult;
  IntersectRayPoints : Z → option PickResult; (* by minViews *)
  faceVertex : Z → Z → Point3f;               (* mesh.vertices[faces[f][j]] *)
  rayGetPoint : REAL → Point3f;               (* ray.GetPoint(d) *)
  pointAt : Z → Point3f;                      (* pointcloud.points[i] *)
  cameras : list (option REAL * Point3f);     (* per viewer image: the
      distance when the cone test says VISIBLE, and camera.C *)
  defaultPoint : Point3f                      (* a default Point3f *)
}.

Definition IsOctreeValid (c : Cast) : bool :=
  negb (octPointsIsEmpty c) || negb (octMeshIsEmpty c).

(** Calls into the collaborators, in program order. *)
Inductive Call :=
| SetCameraViewMode (camID : Z)
| DisableCameraViewMode
| animateTo (target : Point3f)
| UploadSelection
| RequestRedraw
| DEBUG (selected : SELECTION) (index : Z).

(** [Scene::OnCenterScene]; the new camera position is computed from
    the camera's own state and is left out of the call. *)
Definition OnCenterScene (c : Cast) (w : Window) (center : Point3f) : list Call :=
  if negb (IsOpen c) then []
  else match controlMode w with
       | CONTROL_ARCBALL => [animateTo center]
       | _ => []
       end.

(** The tentative selection: [window.selectionType], [minDist],
    [newSelectionIdx] and [newSelectionPoints] while the ray is resolved. *)
Record Tentative := mkTentative {
  tType : SELECTION;
  minDist : REAL;
  newSelectionIdx : Z;
  newSelectionPoints : Points4
}.

Definition CLAMP (v lo hi : Z) : Z := MINF (if v <? lo then lo else v) hi.

Definition tentative0 (c : Cast) : Tentative :=
  mkTentative SEL_NA FLT_MAX NO_IDX
    (mkPoints4 (defaultPoint c) (defaultPoint c) (defaultPoint c) (defaultPoint c)).

(** lines 469-482: the mesh *)
Definition pick_mesh (c : Cast) (w : Window) (t : Tentative) : Tentative :=
  if showMesh w && negb (octMeshIsEmpty c) then
    match IntersectRayMesh c with
    | Some pick =>
        mkTentative SEL_TRIANGLE (pick_dist pick) (pick_idx pick)
          (mkPoints4 (faceVertex c (pick_idx pick) 0)
                     (faceVertex c (pick_idx pick) 1)
                     (faceVertex c (pick_idx pick) 2)
                     (rayGetPoint c (pick_dist pick)))
    | None => t
    end
  else t.

(** lines 483-493: the points *)
Definition pick_points (c : Cast) (w : Window) (t : Tentative) : Tentative :=
  if showPointCloud w && negb (octPointsIsEmpty c) then
    match IntersectRayPoints c (CLAMP (minViews w) 1 (nImages c)) with
    | Some pick =>
        if Rltb (pick_dist pick) (minDist t) then
          mkTentative SEL_POINT (pick_dist pick) (pick_idx pick)
            (mkPoints4 (pointAt c (pick_idx pick))
                       (p1 (newSelectionPoints t))
                       (p2 (newSelectionPoints t))
                       (pointAt c (pick_idx pick)))
        else t
    | None => t
    end
  else t.

(** lines 498-507: the body of the loop over the viewer images *)
Definition pick_camera (idx : Z) (cam : option REAL * Point3f) (t : Tentative) : Tentative :=
  match fst cam with
  | Some dist =>
      if Rltb dist (minDist t) then
        mkTentative SEL_CAMERA dist idx
          (mkPoints4 (snd cam)
                     (p1 (newSelectionPoints t))
                     (p2 (newSelectionPoints t))
                     (snd cam))
      else t
  | None => t
  end.

(** [FOREACH(idx, images)], from index [idx] on *)
Fixpoint pick_cameras (idx : Z) (cams : list (option REAL * Point3f)) (t : Tentative) : Tentative :=
  match cams with
  | [] => t
  | cam :: rest => pick_cameras (idx + 1) rest (pick_camera idx cam t)
  end.

(** lines 464-508 *)
Definition resolve (c : Cast) (w : Window) : Tentative :=
  pick_cameras 0 (cameras c) (pick_points c w (pick_mesh c w (tentative0 c))).

(** lines 528-583: the log, and for a camera the leave of camera-view
    mode when no modifier is held *)
Definition report (mods : Z) (w : Window) (t : Tentative) : list Call :=
  match selectionType w with
  | SEL_TRIANGLE => [DEBUG SEL_TRIANGLE (newSelectionIdx t)]
  | SEL_POINT => [DEBUG SEL_POINT (newSelectionIdx t)]
  | SEL_CAMERA =>
      (if negb (has_mod mods (Z.lor GLFW_MOD_ALT GLFW_MOD_CONTROL))
       then [DisableCameraViewMode] else [])
      ++ [DEBUG SEL_CAMERA (newSelectionIdx t)]
  | SEL_NA => []
  end.

(** lines 509-527: what becomes of the tentative selection *)
Definition commit (now : REAL) (mods : Z) (prevSelectionType : SELECTION)
    (w : Window) (t : Tentative) : Window * list Call :=
  let w := set_selectionType (tType t) w in
  if negb (SELECTION_eqb (selectionType w) SEL_NA) then
    let '(w, calls) :=
      if SELECTION_eqb (selectionType w) SEL_CAMERA && has_mod mods GLFW_MOD_ALT then
        (set_selectionType prevSelectionType w,
         [SetCameraViewMode (newSelectionIdx t)])
      else if SELECTION_eqb (selectionType w) SEL_CAMERA && has_mod mods GLFW_MOD_CONTROL then
        (set_selectedNeighborCamera (newSelectionIdx t) w, [])
      else
        (set_selectionTime now
           (set_selection (newSelectionIdx t) (newSelectionPoints t)
              (set_selectedNeighborCamera NO_ID w)), [])
    in (w, calls ++ report mods w t)
  else (w, []).

Definition timeClick : REAL := Rconst (2 # 10).
Definition timeDblClick : REAL := Rconst (3 # 10).

(** [Scene::OnCastRay]; [now] is [glfwGetTime()]. *)
Definition OnCastRay (c : Cast) (now : REAL) (button action mods : Z)
    (w : Window) : Window * list Call :=
  if negb (IsOpen c) || negb (IsOctreeValid c) then (w, [])
  else if action =? GLFW_PRESS then
    (set_selectionTimeClick now w, [])
  else if action =? GLFW_RELEASE then
    if Rltb timeClick (Rminus now (selectionTimeClick w)) then
      (w, [])
    else if negb (SELECTION_eqb (selectionType w) SEL_NA)
            && Rltb (Rminus now (selectionTime w)) timeDblClick then
      let calls :=
        if SELECTION_eqb (selectionType w) SEL_CAMERA
        then [SetCameraViewMode (selectionIdx w)]
        else DisableCameraViewMode :: OnCenterScene c w (p3 (selectionPoints w))
      in (set_selectionTime now w, calls)
    else
      let prevSelectionType := selectionType w in
      let '(w', calls) := commit now mods prevSelectionType w (resolve c w) in
      (w', calls ++
           if negb (SELECTION_eqb (selectionType w') SEL_NA)
              || negb (SELECTION_eqb prevSelectionType SEL_NA)
           then [UploadSelection; RequestRedraw] else [])
  else (w, []).

End WithReal.

Arguments Points4 : clear implicits.
Arguments Window : clear implicits.
Arguments PickResult : clear implicits.
Arguments Cast : clear implicits.
Arguments Call : clear implicits.
Arguments Tentative : clear implicits.

End Pick.

(** Time stamps and distances as exact rationals: the instance on which
    the resolver is run in the examples. *)
Definition Qltb (a b : Q) : bool := negb (Qle_bool b a).

#[global] Instance RealOps_Q : RealOps Q := {
  Rminus := Qminus;
  Rltb := Qltb;
  Rconst := fun q => q;
  FLT_MAX := 340282346638528859811704183484516925440 # 1
}.

(** ** Scene.cpp: jobs, worker and geometry operations *)

(** The operations of the MVS library ([MVS::PointCloud], [MVS::Mesh],
    [MVS::Scene]) that the viewer calls; their code is not part of the
    viewer and they are taken as given. *)
Class MVSOps (PointCloud Mesh OBB : Type) := {
  PointCloud_IsEmpty : PointCloud → bool;
  Mesh_IsEmpty : Mesh → bool;
  (* MVS::Scene::IsEmpty(), of the point cloud and the mesh it holds *)
  Scene_IsEmpty : PointCloud → Mesh → bool;
  PointCloud_Release : PointCloud;
  Mesh_Release : Mesh;
  RemovePoints : list Z → PointCloud → PointCloud;
  RemoveFaces : list Z → Mesh → Mesh;
  RemovePointsOutside : OBB → PointCloud → PointCloud;
  RemoveFacesOutside : OBB → Mesh → Mesh
}.

(** The events of the queue [Scene::events] *)
Inductive Event :=
| EVTClose
| EVTLoadImage (idx : Z) (nMaxResolution : Z)
| EVTComputeOctree.

Definition IMAGE_MAX_RESOLUTION : Z := 1024.

(** Modelled from the spec: [SelectionController] is not among the
    sources.  The bulk Selection Set is an "ordered set of point indices
    and ordered set of face indices"; it is empty when both are. *)
Record SelectionController := mkSelection {
  getSelectedPointIndices : list Z;
  getSelectedFaceIndices : list Z
}.

(** [l.empty()] *)
Definition is_empty {A} (l : list A) : bool :=
  match l with [] => true | _ :: _ => false end.

Definition hasSelection (sel : SelectionController) : bool :=
  negb (is_empty (getSelectedPointIndices sel))
  || negb (is_empty (getSelectedFaceIndices sel)).

Definition clearSelection (sel : SelectionController) : SelectionController :=
  mkSelection [] [].

(** [MVS::Image], reduced to what the load job looks at: validity and the
    decoded image it may hold. *)
Record MVSImage := mkMVSImage {
  MVSImage_IsValid : bool;
  MVSImage_image : option Image.Mat
}.

(** Calls into the window and the renderer, in program order. *)
Inductive Effect :=
| UploadRenderData
| UploadBounds
| SetSceneBounds
| SetCameraFromSceneData (idxImage : Z)
| RequestRedraw.

Module Scene.
Section WithMVS.
Context {PointCloud Mesh OBB : Type} `{MVSOps PointCloud Mesh OBB}.

(** [MVS::Scene] *)
Record MVSScene := mkMVSScene {
  pointcloud : PointCloud;
  mesh : Mesh;
  scene_images : list MVSImage;
  obb : option OBB            (* [None]: not bounded *)
}.

(** [VIEWER::Scene].  An octree is the snapshot of the geometry it was
    built over, [None] when released. *)
Record Scene := mkScene {
  window_IsValid : bool;
  scene : MVSScene;
  images : list Image.Image;
  octPoints : option PointCloud;
  octMesh : option Mesh;
  events : list Event;        (* head: the next event handed out *)
  selectionController : SelectionController
}.

Definition set_scene (m : MVSScene) (s : Scene) : Scene :=
  mkScene (window_IsValid s) m (images s) (octPoints s) (octMesh s)
    (events s) (selectionController s).
Definition set_images (l : list Image.Image) (s : Scene) : Scene :=
  mkScene (window_IsValid s) (scene s) l (octPoints s) (octMesh s)
    (events s) (selectionController s).
Definition set_octPoints (o : option PointCloud) (s : Scene) : Scene :=
  mkScene (window_IsValid s) (scene s) (images s) o (octMesh s)
    (events s) (selectionController s).
Definition set_octMesh (o : option Mesh) (s : Scene) : Scene :=
  mkScene (window_IsValid s) (scene s) (images s) (octPoints s) o
    (events s) (selectionController s).
Definition set_events (q : list Event) (s : Scene) : Scene :=
  mkScene (window_IsValid s) (scene s) (images s) (octPoints s) (octMesh s)
    q (selectionController s).
Definition set_selectionController (c : SelectionController) (s : Scene) : Scene :=
  mkScene (window_IsValid s) (scene s) (images s) (octPoints s) (octMesh s)
    (events s) c.

Definition set_pointcloud (p : PointCloud) (m : MVSScene) : MVSScene :=
  mkMVSScene p (mesh m) (scene_images m) (obb m).
Definition set_mesh (f : Mesh) (m : MVSScene) : MVSScene :=
  mkMVSScene (pointcloud m) f (scene_images m) (obb m).
Definition set_scene_images (l : list MVSImage) (m : MVSScene) : MVSScene :=
  mkMVSScene (pointcloud m) (mesh m) l (obb m).

Definition MVSScene_IsEmpty (m : MVSScene) : bool :=
  Scene_IsEmpty (pointcloud m) (mesh m).
Definition IsBounded (m : MVSScene) : bool :=
  match obb m with Some _ => true | None => false end.

Definition IsValid (s : Scene) : bool := window_IsValid s.
Definition IsOpen (s : Scene) : bool := IsValid s && negb (MVSScene_IsEmpty (scene s)).
Definition octree_IsEmpty {A} (o : option A) : bool :=
  match o with Some _ => false | None => true end.
Definition IsOctreeValid (s : Scene) : bool :=
  negb (octree_IsEmpty (octPoints s)) || negb (octree_IsEmpty (octMesh s)).

(** [events.AddEvent(e)]: at the tail *)
Definition AddEvent (e : Event) (s : Scene) : Scene :=
  set_events (events s ++ [e]) s.

(** [EVTLoadImage::Run]; [ReloadImage i r] is what decoding MVS image [i]
    gives, [None] when it fails.  The outer [None] is a failed [ASSERT]. *)
Definition EVTLoadImage_Run (ReloadImage : Z → Z → option Image.Mat)
    (idx nMaxResolution : Z) (s : Scene) : option (bool * Scene) :=
  match images s !! Z.to_nat idx with
  | None => None
  | Some image =>
      if Image.idx image =? NO_ID then None else
      match scene_images (scene s) !! Z.to_nat (Image.idx image) with
      | None => None
      | Some imageData =>
          if negb (MVSImage_IsValid imageData) then None else
          let loaded :=
            match MVSImage_image imageData with
            | Some m => Some m
            | None => ReloadImage (Image.idx image) nMaxResolution
            end in
          match loaded with
          | None => Some (false, s)
          | Some m =>
              match Image.AssignImage m image with
              | None => None
              | Some image' =>
                  let data' := mkMVSImage (MVSImage_IsValid imageData) None in
                  Some (true,
                        set_scene
                          (set_scene_images
                             (<[Z.to_nat (Image.idx image) := data']>
                                (scene_images (scene s))) (scene s))
                          (set_images (<[Z.to_nat idx := image']> (images s)) s))
              end
          end
      end
  end.

(** [EVTComputeOctree::Run] *)
Definition EVTComputeOctree_Run (s : Scene) : option (bool * Scene) :=
  let s :=
    if negb (Mesh_IsEmpty (mesh (scene s)))
    then set_octMesh (Some (mesh (scene s))) s else s in
  let s :=
    if negb (PointCloud_IsEmpty (pointcloud (scene s)))
    then set_octPoints (Some (pointcloud (scene s))) s else s in
  Some (true, s).

(** How the worker loop is left *)
Inductive Worker := Returned | Waiting.

(** [Scene::ThreadWorker] on the events [pending] in the queue: each
    event is taken from the head; the value of [Run] is dropped;
    [EVT_CLOSE] returns; on an empty queue [GetEvent] waits.  [None] is a
    failed [ASSERT] inside a job. *)
Fixpoint worker_loop (ReloadImage : Z → Z → option Image.Mat)
    (pending : list Event) (s : Scene) : option (Worker * Scene) :=
  match pending with
  | [] => Some (Waiting, set_events [] s)
  | evt :: rest =>
      match evt with
      | EVTClose => Some (Returned, set_events rest s)
      | EVTLoadImage idx r =>
          match EVTLoadImage_Run ReloadImage idx r (set_events rest s) with
          | Some (_, s') => worker_loop ReloadImage rest s'
          | None => None
          end
      | EVTComputeOctree =>
          match EVTComputeOctree_Run (set_events rest s) with
          | Some (_, s') => worker_loop ReloadImage rest s'
          | None => None
          end
      end
  end.

Definition ThreadWorker (ReloadImage : Z → Z → option Image.Mat) (s : Scene)
    : option (Worker * Scene) :=
  worker_loop ReloadImage (events s) s.

(** [Scene::Reset]; the queue is static and stays; what [window.Reset()]
    does is the window's own. *)
Definition Reset (s : Scene) : Scene :=
  mkScene (window_IsValid s)
    (mkMVSScene PointCloud_Release Mesh_Release [] None) []
    None None (events s) (selectionController s).

(** The viewer image of every valid MVS image (lines 249-258). *)
Fixpoint init_images (idxImage : Z) (l : list MVSImage) : list Image.Image :=
  match l with
  | [] => []
  | imageData :: rest =>
      if MVSImage_IsValid imageData
      then Image.new idxImage :: init_images (idxImage + 1) rest
      else init_images (idxImage + 1) rest
  end.

(** [Scene::Open]; [loaded] is the scene as it is after lines 194-223
    (the file, and the geometry file when given), [None] when the file
    cannot be read.  Of the window calls only the upload of the render
    data is listed. *)
Definition Open (loaded : option MVSScene) (s : Scene) : bool * Scene * list Effect :=
  let s := Reset s in
  match loaded with
  | None => (false, s, [])
  | Some m =>
      let s := set_scene m s in
      let s := if negb (MVSScene_IsEmpty (scene s))
               then AddEvent EVTComputeOctree s else s in
      let s := set_images (init_images 0 (scene_images m)) s in
      (true, s, [UploadRenderData])
  end.

(** [Scene::CropToBounds] *)
Definition CropToBounds (s : Scene) : Scene * list Effect :=
  if negb (IsOpen s) then (s, [])
  else match obb (scene s) with
       | None => (s, [])
       | Some box =>
           let m := scene s in
           let m := set_pointcloud (RemovePointsOutside box (pointcloud m)) m in
           let m := set_mesh (RemoveFacesOutside box (mesh m)) m in
           (set_scene m s, [SetSceneBounds])
       end.

(** [Scene::UpdateGeometryAfterModification] *)
Definition UpdateGeometryAfterModification (s : Scene) : Scene * list Effect :=
  let s := set_octPoints None s in
  let s := set_octMesh None s in
  let s := if negb (MVSScene_IsEmpty (scene s))
           then AddEvent EVTComputeOctree s else s in
  (set_selectionController (clearSelection (selectionController s)) s,
   [UploadRenderData]).

(** [Scene::RemoveSelectedGeometry] *)
Definition RemoveSelectedGeometry (s : Scene) : Scene * list Effect :=
  if negb (hasSelection (selectionController s)) then (s, [])
  else
    let bDirtyScene := false in
    let '(s, bDirtyScene) :=
      if negb (PointCloud_IsEmpty (pointcloud (scene s))) then
        let selectedIndices := getSelectedPointIndices (selectionController s) in
        if negb (is_empty selectedIndices) then
          (set_scene (set_pointcloud
                        (RemovePoints selectedIndices (pointcloud (scene s)))
                        (scene s)) s, true)
        else (s, bDirtyScene)
      else (s, bDirtyScene) in
    let '(s, bDirtyScene) :=
      if negb (Mesh_IsEmpty (mesh (scene s))) then
        let selectedIndices := getSelectedFaceIndices (selectionController s) in
        if negb (is_empty selectedIndices) then
          (set_scene (set_mesh
                        (RemoveFaces selectedIndices (mesh (scene s)))
                        (scene s)) s, true)
        else (s, bDirtyScene)
      else (s, bDirtyScene) in
    let '(s, effects) :=
      if bDirtyScene then UpdateGeometryAfterModification s else (s, []) in
    (s, effects ++ [RequestRedraw]).

(** Whether [RemoveSelectedGeometry] removes points, and faces. *)
Definition removes_points (s : Scene) : bool :=
  negb (PointCloud_IsEmpty (pointcloud (scene s)))
  && negb (is_empty (getSelectedPointIndices (selectionController s))).
Definition removes_faces (s : Scene) : bool :=
  negb (Mesh_IsEmpty (mesh (scene s)))
  && negb (is_empty (getSelectedFaceIndices (selectionController s))).

(** The point cloud and the mesh that [RemoveSelectedGeometry] leaves. *)
Definition points_after (s : Scene) : PointCloud :=
  if removes_points s
  then RemovePoints (getSelectedPointIndices (selectionController s))
         (pointcloud (scene s))
  else pointcloud (scene s).
Definition mesh_after (s : Scene) : Mesh :=
  if removes_faces s
  then RemoveFaces (getSelectedFaceIndices (selectionController s))
         (mesh (scene s))
  else mesh (scene s).

(** [Scene::OnSetCameraViewMode], without the camera's own bookkeeping;
    [None] is the failed [ASSERT] of [SetImageLoading]. *)
Definition OnSetCameraViewMode (camID : Z) (s : Scene) : option (Scene * list Effect) :=
  if negb (IsOpen s) || (Z.of_nat (length (images s)) <=? camID) then Some (s, [])
  else
    match images s !! Z.to_nat camID with
    | None => None
    | Some image =>
        if negb (Image.IsValid image) && negb (Image.IsImageLoading image) then
          match Image.SetImageLoading image with
          | None => None
          | Some image' =>
              Some (AddEvent (EVTLoadImage camID IMAGE_MAX_RESOLUTION)
                      (set_images (<[Z.to_nat camID := image']> (images s)) s),
                    [SetCameraFromSceneData (Image.idx image)])
          end
        else Some (s, [SetCameraFromSceneData (Image.idx image)])
    end.

End WithMVS.

Arguments MVSScene : clear implicits.
Arguments Scene : clear implicits.

End Scene.

(** ** Single precision *)

Module F32.

(** [float]: IEEE 754 binary32.  A finite value is [(-1)^s * m * 2^e]
    with a mantissa of at most 24 bits; the operations round to nearest,
    ties to even. *)
Definition float : Type := SpecFloat.spec_float.
Definition prec : Z := 24.
Definition emax : Z := 128.

Definition add : float → float → float := SpecFloat.SFadd prec emax.
Definition sub : float → float → float := SpecFloat.SFsub prec emax.
Definition mul : float → float → float := SpecFloat.SFmul prec emax.
Definition div : float → float → float := SpecFloat.SFdiv prec emax.
Definition ltb : float → float → bool := SpecFloat.SFltb.
Definition eqb : float → float → bool := SpecFloat.SFeqb.

Definition zero : float := SpecFloat.S754_zero false.
(** The [float] of an integer, rounded *)
Definition of_Z (n : Z) : float := SpecFloat.binary_normalize prec emax n 0 false.

(** The literal [0.03f]: the [float] next to 3/100 is
    [16106127 * 2^-29], bit pattern [0x3CF5C28F]. *)
Definition c0_03 : float := SpecFloat.S754_finite false 16106127 (-29).

(** Neither an infinity nor a NaN *)
Definition is_finite (a : float) : bool :=
  match a with
  | SpecFloat.S754_zero _ | SpecFloat.S754_finite _ _ _ => true
  | _ => false
  end.

(** The smaller and the larger of two values, by one comparison; the
    first is kept when neither is below the other. *)
Definition min (a b : float) : float := if ltb b a then b else a.
Definition max (a b : float) : float := if ltb a b then b else a.

End F32.

(** ** Scene.cpp: the region of interest from the selection *)

Module ROI.

(** [Point3f]: three [float] coordinates *)
Record Point3f := mkPoint3f { x : F32.float; y : F32.float; z : F32.float }.

(** The point with the integer coordinates [a], [b], [c] *)
Definition point (a b c : Z) : Point3f :=
  mkPoint3f (F32.of_Z a) (F32.of_Z b) (F32.of_Z c).

(** All coordinates are finite. *)
Definition finite (p : Point3f) : bool :=
  F32.is_finite (x p) && F32.is_finite (y p) && F32.is_finite (z p).

(** The coordinates of [p] and [q] compare equal. *)
Definition coincide (p q : Point3f) : bool :=
  F32.eqb (x p) (x q) && F32.eqb (y p) (y q) && F32.eqb (z p) (z q).

(** Modelled from the spec: [AABB3f] and [OBB3f] are not among the
    sources.  [AABB3f::Set(pts, n)] is "the tight axis-aligned box of the
    list"; an oriented box is "rotation, center, half-extents";
    [Enlarge] pushes every side out by the margin.  Every operation on
    coordinates is one [float] operation. *)
Record AABB3f := mkAABB3f { ptMin : Point3f; ptMax : Point3f }.

Definition AABB_Insert (b : AABB3f) (p : Point3f) : AABB3f :=
  mkAABB3f
    (mkPoint3f (F32.min (x (ptMin b)) (x p)) (F32.min (y (ptMin b)) (y p))
       (F32.min (z (ptMin b)) (z p)))
    (mkPoint3f (F32.max (x (ptMax b)) (x p)) (F32.max (y (ptMax b)) (y p))
       (F32.max (z (ptMax b)) (z p))).

(** [AABB3f::Set(pts, n)] for the points [p :: rest] *)
Definition AABB_Set (p : Point3f) (rest : list Point3f) : AABB3f :=
  fold_left AABB_Insert rest (mkAABB3f p p).

(** A rotation, as its three rows *)
Record Matrix3 := mkMatrix3 { row0 : Point3f; row1 : Point3f; row2 : Point3f }.
Definition IDENTITY : Matrix3 :=
  mkMatrix3 (point 1 0 0) (point 0 1 0) (point 0 0 1).

Record OBB3f := mkOBB3f { rot : Matrix3; pos : Point3f; ext : Point3f }.

Definition two : F32.float := F32.of_Z 2.

(** [OBB3f::Set(aabb)] *)
Definition OBB_Set (b : AABB3f) : OBB3f :=
  mkOBB3f IDENTITY
    (mkPoint3f (F32.div (F32.add (x (ptMin b)) (x (ptMax b))) two)
               (F32.div (F32.add (y (ptMin b)) (y (ptMax b))) two)
               (F32.div (F32.add (z (ptMin b)) (z (ptMax b))) two))
    (mkPoint3f (F32.div (F32.sub (x (ptMax b)) (x (ptMin b))) two)
               (F32.div (F32.sub (y (ptMax b)) (y (ptMin b))) two)
               (F32.div (F32.sub (z (ptMax b)) (z (ptMin b))) two)).

(** [OBB3f::GetSize()] *)
Definition GetSize (b : OBB3f) : Point3f :=
  mkPoint3f (F32.mul (x (ext b)) two) (F32.mul (y (ext b)) two)
    (F32.mul (z (ext b)) two).

Definition maxCoeff (p : Point3f) : F32.float :=
  F32.max (x p) (F32.max (y p) (z p)).

(** [OBB3f::Enlarge(x)] *)
Definition Enlarge (margin : F32.float) (b : OBB3f) : OBB3f :=
  mkOBB3f (rot b) (pos b)
    (mkPoint3f (F32.add (x (ext b)) margin) (F32.add (y (ext b)) margin)
       (F32.add (z (ext b)) margin)).

Record Scene := mkScene {
  window_IsValid : bool;
  points : list Point3f;            (* scene.pointcloud.points *)
  vertices : list Point3f;          (* scene.mesh.vertices *)
  faces : list (Z * Z * Z);         (* scene.mesh.faces *)
  obb : option OBB3f;               (* scene.obb, [None] when not valid *)
  selectionController : SelectionController
}.

Definition set_obb (b : option OBB3f) (s : Scene) : Scene :=
  mkScene (window_IsValid s) (points s) (vertices s) (faces s) b
    (selectionController s).

(** Modelled from the spec: a point cloud is empty without points, a
    mesh without vertices, a scene without both. *)
Definition IsOpen (s : Scene) : bool :=
  window_IsValid s && negb (is_empty (points s) && is_empty (vertices s)).

(** [v[i]] when [i < v.size()] *)
Definition at_index {A} (v : list A) (i : Z) : list A :=
  if i <? Z.of_nat (length v) then
    match v !! Z.to_nat i with Some a => [a] | None => [] end
  else [].

(** lines 727-736 *)
Definition selected_cloud_points (s : Scene) : list Point3f :=
  if negb (is_empty (points s)) then
    flat_map (at_index (points s)) (getSelectedPointIndices (selectionController s))
  else [].

(** lines 739-755 *)
Definition selected_face_vertices (s : Scene) : list Point3f :=
  if negb (is_empty (vertices s)) then
    flat_map
      (fun idx =>
         flat_map
           (fun face : Z * Z * Z =>
              at_index (vertices s) (fst (fst face))
              ++ at_index (vertices s) (snd (fst face))
              ++ at_index (vertices s) (snd face))
           (at_index (faces s) idx))
      (getSelectedFaceIndices (selectionController s))
  else [].

Section WithFit.
(** [OBB3f::Set(pts, n, 32)], the fit of an oriented box *)
Variable OBB_fit : list Point3f → Z → OBB3f.

(** The box fitted to the points [p :: rest] (lines 761-771) *)
Definition fitted (aabb : bool) (p : Point3f) (rest : list Point3f) : OBB3f :=
  if aabb then OBB_Set (AABB_Set p rest) else OBB_fit (p :: rest) 32.

(** [Scene::SetROIFromSelection] *)
Definition SetROIFromSelection (aabb : bool) (s : Scene) : Scene * list Effect :=
  if negb (IsOpen s) then (s, [])
  else if negb (hasSelection (selectionController s)) then (s, [])
  else
    match selected_cloud_points s ++ selected_face_vertices s with
    | [] => (s, [])
    | p :: rest =>
        let box := fitted aabb p rest in
        let margin := F32.mul (maxCoeff (GetSize box)) F32.c0_03 in
        (set_obb (Some (Enlarge margin box)) s, [UploadBounds; RequestRedraw])
    end.

End WithFit.

(** One point, selected. *)
Definition scene_one_point : Scene :=
  mkScene true [point 1 2 3] [] [] None (mkSelection [0%Z] []).

(** Three points, the first two selected. *)
Definition scene_two_points : Scene :=
  mkScene true [point 0 0 0; point 10 4 2; point 50 50 50] [] []
    None (mkSelection [0%Z; 1%Z] []).

(** Two points at the distance [2^-148] along the first axis, both
    selected. *)
Definition scene_tiny : Scene :=
  mkScene true
    [point 0 0 0;
     mkPoint3f (SpecFloat.S754_finite false 2 (-149)) F32.zero F32.zero] [] []
    None (mkSelection [0%Z; 1%Z] []).

(** A fit that is not looked at by the samples. *)
Definition no_fit : list Point3f → Z → OBB3f :=
  fun _ _ => mkOBB3f IDENTITY (point 0 0 0) (point 0 0 0).

End ROI.

(** ** Scene.cpp: the sub-scene of the images that see the selection *)

Module Crop.

(** [imageCounts[imageIdx]++] on [std::unordered_map<IIndex, unsigned>]:
    a missing key starts at 0, and [unsigned] wraps at 2^32. *)
Definition increment (imageCounts : gmap Z Z) (imageIdx : Z) : gmap Z Z :=
  <[imageIdx := (default 0 (imageCounts !! imageIdx) + 1) mod 2 ^ 32]> imageCounts.

(** The inner loop over the views of one point *)
Definition count_views (imageCounts : gmap Z Z) (views : list Z) : gmap Z Z :=
  fold_left increment views imageCounts.

(** The loop over the selected points (lines 790-794); [None] when a
    selected index is outside [pointViews]. *)
Fixpoint count_points (pointViews : list (list Z)) (selected : list Z)
    (imageCounts : gmap Z Z) : option (gmap Z Z) :=
  match selected with
  | [] => Some imageCounts
  | pointIdx :: rest =>
      if (0 <=? pointIdx) && (pointIdx <? Z.of_nat (length pointViews)) then
        match pointViews !! Z.to_nat pointIdx with
        | Some views => count_points pointViews rest (count_views imageCounts views)
        | None => None
        end
      else None
  end.

(** lines 797-800; the order is the one in which the map is walked.
    The model walks its map by increasing key; a [std::unordered_map]
    is walked in an order that the language leaves open, so that of the
    list only its elements are meant, not their order. *)
Definition select_images (minPoints : Z) (imageCounts : gmap Z Z) : list Z :=
  (filter (fun pair : Z * Z => minPoints <= snd pair) (map_to_list imageCounts)).*1.

(** What [CropToPoints] returns: [MVS::Scene()], or
    [scene.SubScene(selectedImageIndices)]. *)
Inductive Result :=
| EmptyScene
| SubScene (selectedImageIndices : list Z).

(** [Scene::CropToPoints]; [valid] is
    [scene.IsValid() && scene.pointcloud.IsValid()], [nImages] is
    [scene.images.size()]. *)
Definition CropToPoints (valid : bool) (pointViews : list (list Z)) (nImages : Z)
    (selectedPointIndices : list Z) (minPoints : Z) : option Result :=
  if negb valid then Some EmptyScene
  else
    match count_points pointViews selectedPointIndices ∅ with
    | None => None
    | Some imageCounts =>
        let selectedImageIndices := select_images minPoints imageCounts in
        if Z.of_nat (length selectedImageIndices) <? 2 then Some EmptyScene
        else if Z.of_nat (length selectedImageIndices) =? nImages then Some EmptyScene
        else Some (SubScene selectedImageIndices)
    end.

(** *** The claim's side: counts per image *)

(** The view lists of the selected points, one after the other. *)
Definition selected_views (pointViews : list (list Z)) (selected : list Z) : list Z :=
  flat_map (fun pointIdx => default [] (pointViews !! Z.to_nat pointIdx)) selected.

(** How many times image [i] occurs in the views of the selected points. *)
Definition observed (pointViews : list (list Z)) (selected : list Z) (i : Z) : Z :=
  Z.of_nat (length (filter (fun v => v = i) (selected_views pointViews selected))).

(** The images of the scene whose count is at least [minPoints]. *)
Definition reaching (pointViews : list (list Z)) (nImages : Z)
    (selected : list Z) (minPoints : Z) : list Z :=
  filter (fun i => minPoints <= observed pointViews selected i) (seqZ 0 nImages).

(** The images of the scene that see a selected point at all and whose
    count is at least [minPoints]. *)
Definition seeing (pointViews : list (list Z)) (nImages : Z)
    (selected : list Z) (minPoints : Z) : list Z :=
  filter (fun i => 1 <= observed pointViews selected i
                   ∧ minPoints <= observed pointViews selected i)
    (seqZ 0 nImages).

(** Occurrences of [i] in a list of views *)
Definition occ (l : list Z) (i : Z) : Z :=
  Z.of_nat (length (filter (fun v => v = i) l)).

(** The map holds, for the views [l] counted so far, the number of
    occurrences of every image that occurs, modulo 2^32. *)
Definition counts_of (l : list Z) (m : gmap Z Z) : Prop :=
  ∀ i, m !! i = if decide (occ l i = 0) then None else Some (occ l i mod 2 ^ 32).

(** Two results of [CropToPoints] that differ at most in the order of
    the images handed to [SubScene]. *)
Definition same_images (r r' : option Result) : Prop :=
  match r, r' with
  | None, None => True
  | Some EmptyScene, Some EmptyScene => True
  | Some (SubScene l), Some (SubScene l') => l ≡ₚ l'
  | _, _ => False
  end.

(** The point cloud refers to images of the scene, the selection to
    points of the cloud, and the counters do not wrap. *)
Definition well_formed (pointViews : list (list Z)) (nImages : Z)
    (selected : list Z) : Prop :=
  Forall (fun views => Forall (fun v => 0 <= v < nImages) views) pointViews
  ∧ Forall (fun p => 0 <= p < Z.of_nat (length pointViews)) selected
  ∧ Z.of_nat (length (selected_views pointViews selected)) < 2 ^ 32.

End Crop.

(** *** Sample data for the scene operations *)

Module SceneSamples.

(** Points and vertices are named by numbers; a mesh is its vertices and
    its faces; a box is an interval of names. *)
Definition PointCloud : Type := list Z.
Definition Mesh : Type := (list Z * list (Z * Z * Z))%type.
Definition OBB : Type := (Z * Z)%type.

(** The elements of [l], from position [i] on, whose position is not in
    [idxs]. *)
Fixpoint remove_at {A} (idxs : list Z) (i : Z) (l : list A) : list A :=
  match l with
  | [] => []
  | x :: rest =>
      if existsb (Z.eqb i) idxs then remove_at idxs (i + 1) rest
      else x :: remove_at idxs (i + 1) rest
  end.

Definition inside (box : OBB) (p : Z) : bool := (fst box <=? p) && (p <=? snd box).

(** Modelled from the spec: the MVS library is not among the sources.
    "Delete the selected point indices from the point collection and the
    selected face indices from the face collection"; "discard all points
    outside [the ROI] and all faces with any vertex outside it"; a scene
    is empty when it has neither points nor mesh. *)
#[global] Instance SampleMVS : MVSOps PointCloud Mesh OBB := {
  PointCloud_IsEmpty := fun pc => is_empty pc;
  Mesh_IsEmpty := fun m => is_empty (fst m);
  Scene_IsEmpty := fun pc m => is_empty pc && is_empty (fst m);
  PointCloud_Release := [];
  Mesh_Release := ([], []);
  RemovePoints := fun idxs pc => remove_at idxs 0 pc;
  RemoveFaces := fun idxs m => (fst m, remove_at idxs 0 (snd m));
  RemovePointsOutside := fun box pc => filter (fun p => inside box p) pc;
  RemoveFacesOutside := fun box m =>
    (fst m,
     filter (fun f => inside box (fst (fst f)) && inside box (snd (fst f))
                      && inside box (snd f)) (snd m))
}.

Import Scene.

(** An open scene of three points and one valid image, both octrees
    built, points 0, 1 and 2 selected, an empty queue. *)
Definition scene_points : Scene PointCloud Mesh OBB :=
  mkScene true
    (mkMVSScene [10; 20; 30] ([], []) [mkMVSImage true None] (Some (15, 40)))
    [Image.new 0]
    (Some [10; 20; 30]) None
    []
    (mkSelection [0; 1; 2] []).

(** The same scene with only point 1 selected. *)
Definition scene_one_selected : Scene PointCloud Mesh OBB :=
  set_selectionController (mkSelection [1] []) scene_points.

(** The scene after camera-view mode was asked for camera 0: the image
    slot is LOADING and the load job is queued. *)
Definition scene_loading : Scene PointCloud Mesh OBB :=
  set_events [EVTLoadImage 0 IMAGE_MAX_RESOLUTION]
    (set_images [Image.mkImage 0 0 0 0 Image.IMG_LOADING] scene_points).

(** An image decoder that always fails. *)
Definition ReloadImage_fails : Z → Z → option Image.Mat := fun _ _ => None.

End SceneSamples.

(** *** Sample data for the pick resolver *)

Module PickSamples.
Import Pick.

Definition P3 : Type := (Q * Q * Q)%type.
Definition origin : P3 := (0%Q, 0%Q, 0%Q).

(** A window with nothing selected, mesh and points shown, arcball
    control; the last press was at [t = 10]. *)
Definition window0 : Window Q P3 :=
  mkWindow SEL_NA NO_IDX (mkPoints4 origin origin origin origin)
    (10 # 1) (0 # 1) NO_ID true true 2 CONTROL_ARCBALL.

(** Point 7 selected at [t = 10], the last press at [tclick]. *)
Definition window_point (tclick : Q) : Window Q P3 :=
  mkWindow SEL_POINT 7 (mkPoints4 origin origin origin (1%Q, 2%Q, 3%Q))
    tclick (10 # 1) NO_ID true true 2 CONTROL_ARCBALL.

(** Camera 2 selected at [t = 10], the last press at [tclick]. *)
Definition window_camera (tclick : Q) : Window Q P3 :=
  mkWindow SEL_CAMERA 2 (mkPoints4 origin origin origin origin)
    tclick (10 # 1) NO_ID true true 2 CONTROL_ARCBALL.

(** Point 7 selected at [t = 10], first-person control. *)
Definition window_point_fp (tclick : Q) : Window Q P3 :=
  mkWindow SEL_POINT 7 (mkPoints4 origin origin origin (1%Q, 2%Q, 3%Q))
    tclick (10 # 1) NO_ID true true 2 CONTROL_FIRST_PERSON.

(** A ray that meets face 11, point 4 and camera 1, all at distance 5
    (camera 0 is visible at distance 6, camera 2 is not visible). *)
Definition cast_tie : Cast Q P3 :=
  mkCast true false false 3
    (Some (mkPick 11 (5 # 1)))
    (fun _ => Some (mkPick 4 (5 # 1)))
    (fun _ _ => origin) (fun _ => origin) (fun _ => origin)
    [(Some (6 # 1), origin); (Some (5 # 1), origin); (None, origin)]
    origin.

(** A ray that meets only camera 1, at distance 5. *)
Definition cast_camera : Cast Q P3 :=
  mkCast true false false 3 None (fun _ => None)
    (fun _ _ => origin) (fun _ => origin) (fun _ => origin)
    [(None, origin); (Some (5 # 1), (4%Q, 4%Q, 4%Q)); (None, origin)]
    origin.

(** The same ray while both octrees are released (a rebuild is pending). *)
Definition cast_camera_no_octree : Cast Q P3 :=
  mkCast true true true 3 None (fun _ => None)
    (fun _ _ => origin) (fun _ => origin) (fun _ => origin)
    [(None, origin); (Some (5 # 1), (4%Q, 4%Q, 4%Q)); (None, origin)]
    origin.

End PickSamples.

(** ** Further parts of Scene.cpp and UI.cpp *)

(** [<] on distances that are numbers: a strict weak order.  (With a
    NaN among them only the first law is left.) *)
Record strict_weak_order {REAL : Type} `{RealOps REAL} : Prop := {
  Rltb_irrefl : ∀ x : REAL, Rltb x x = false;
  Rltb_trans : ∀ x y z : REAL, Rltb x y = true → Rltb y z = true → Rltb x z = true;
  Rltb_cotrans : ∀ x y z : REAL,
    Rltb x z = true → Rltb x y = true ∨ Rltb y z = true
}.
Arguments strict_weak_order REAL {_}.

Module Highlight.

(** [Scene::OnSelectPointsByCamera], lines 641-649: the indices, counted
    from [p] on, of the points whose views hold the MVS index [imgIdx] of
    the camera; [pointViews] has one entry per point of the cloud. *)
Fixpoint visible_points (p : Z) (pointViews : list (list Z)) (imgIdx : Z) : list Z :=
  match pointViews with
  | [] => []
  | views :: rest =>
      if existsb (fun v => v =? imgIdx) views
      then p :: visible_points (p + 1) rest imgIdx
      else visible_points (p + 1) rest imgIdx
  end.

End Highlight.

Module UI.

(** The dialog flags of [UI] and the auto-hiding menu flag. *)
Record UI := mkUI {
  showSceneInfo : bool;
  showCameraControls : bool;
  showSelectionControls : bool;
  showRenderSettings : bool;
  showPerformanceOverlay : bool;
  showViewportOverlay : bool;
  showSelectionOverlay : bool;
  showAboutDialog : bool;
  showHelpDialog : bool;
  showExportDialog : bool;
  showCameraInfoDialog : bool;
  showSelectionDialog : bool;
  showMainMenu : bool
}.

(** [UI::UI()] *)
Definition new : UI :=
  mkUI false false false false true true true false false false false false false.

(** What [HandleGlobalKeys] asks of ImGui and of the camera. *)
Record Keys := mkKeys {
  IsKeyReleased_Escape : bool;
  IsCameraViewMode : bool;
  IsPopupOpen_AnyPopup : bool
}.

Inductive Call :=
| DisableCameraViewMode
| CloseCurrentPopup
| SetWindowFocus_nullptr
| ClearActiveID.

(** [UI::HandleGlobalKeys] *)
Definition HandleGlobalKeys (k : Keys) (u : UI) : UI * list Call :=
  if IsKeyReleased_Escape k then
    if IsCameraViewMode k then (u, [DisableCameraViewMode])
    else if showAboutDialog u then
      (mkUI (showSceneInfo u) (showCameraControls u) (showSelectionControls u)
         (showRenderSettings u) (showPerformanceOverlay u) (showViewportOverlay u)
         (showSelectionOverlay u) false (showHelpDialog u) (showExportDialog u)
         (showCameraInfoDialog u) (showSelectionDialog u) (showMainMenu u), [])
    else if showHelpDialog u then
      (mkUI (showSceneInfo u) (showCameraControls u) (showSelectionControls u)
         (showRenderSettings u) (showPerformanceOverlay u) (showViewportOverlay u)
         (showSelectionOverlay u) (showAboutDialog u) false (showExportDialog u)
         (showCameraInfoDialog u) (showSelectionDialog u) (showMainMenu u), [])
    else if showExportDialog u then
      (mkUI (showSceneInfo u) (showCameraControls u) (showSelectionControls u)
         (showRenderSettings u) (showPerformanceOverlay u) (showViewportOverlay u)
         (showSelectionOverlay u) (showAboutDialog u) (showHelpDialog u) false
         (showCameraInfoDialog u) (showSelectionDialog u) (showMainMenu u), [])
    else if showSceneInfo u then
      (mkUI false (showCameraControls u) (showSelectionControls u)
         (showRenderSettings u) (showPerformanceOverlay u) (showViewportOverlay u)
         (showSelectionOverlay u) (showAboutDialog u) (showHelpDialog u)
         (showExportDialog u) (showCameraInfoDialog u) (showSelectionDialog u)
         (showMainMenu u), [])
    else if showCameraInfoDialog u then
      (mkUI (showSceneInfo u) (showCameraControls u) (showSelectionControls u)
         (showRenderSettings u) (showPerformanceOverlay u) (showViewportOverlay u)
         (showSelectionOverlay u) (showAboutDialog u) (showHelpDialog u)
         (showExportDialog u) false (showSelectionDialog u) (showMainMenu u), [])
    else if showCameraControls u then
      (mkUI (showSceneInfo u) false (showSelectionControls u)
         (showRenderSettings u) (showPerformanceOverlay u) (showViewportOverlay u)
         (showSelectionOverlay u) (showAboutDialog u) (showHelpDialog u)
         (showExportDialog u) (showCameraInfoDialog u) (showSelectionDialog u)
         (showMainMenu u), [])
    else if showSelectionControls u then
      (mkUI (showSceneInfo u) (showCameraControls u) false
         (showRenderSettings u) (showPerformanceOverlay u) (showViewportOverlay u)
         (showSelectionOverlay u) (showAboutDialog u) (showHelpDialog u)
         (showExportDialog u) (showCameraInfoDialog u) (showSelectionDialog u)
         (showMainMenu u), [])
    else if showSelectionDialog u then
      (mkUI (showSceneInfo u) (showCameraControls u) (showSelectionControls u)
         (showRenderSettings u) (showPerformanceOverlay u) (showViewportOverlay u)
         (showSelectionOverlay u) (showAboutDialog u) (showHelpDialog u)
         (showExportDialog u) (showCameraInfoDialog u) false (showMainMenu u), [])
    else if showRenderSettings u then
      (mkUI (showSceneInfo u) (showCameraControls u) (showSelectionControls u)
         false (showPerformanceOverlay u) (showViewportOverlay u)
         (showSelectionOverlay u) (showAboutDialog u) (showHelpDialog u)
         (showExportDialog u) (showCameraInfoDialog u) (showSelectionDialog u)
         (showMainMenu u), [])
    else if IsPopupOpen_AnyPopup k then (u, [CloseCurrentPopup])
    else
      (mkUI (showSceneInfo u) (showCameraControls u) (showSelectionControls u)
         (showRenderSettings u) (showPerformanceOverlay u) (showViewportOverlay u)
         (showSelectionOverlay u) (showAboutDialog u) (showHelpDialog u)
         (showExportDialog u) (showCameraInfoDialog u) (showSelectionDialog u)
         (if showMainMenu u then false else showMainMenu u),
       [SetWindowFocus_nullptr; ClearActiveID])
  else (u, []).

(** The dialogs that Escape closes, in the order in which it looks at
    them. *)
Definition dialogs (u : UI) : list bool :=
  [showAboutDialog u; showHelpDialog u; showExportDialog u; showSceneInfo u;
   showCameraInfoDialog u; showCameraControls u; showSelectionControls u;
   showSelectionDialog u; showRenderSettings u].

Definition open_dialogs (u : UI) : nat :=
  length (List.filter (fun b : bool => b) (dialogs u)).

(** The first flag that is set is cleared, the others are kept. *)
Fixpoint close_first (flags : list bool) : list bool :=
  match flags with
  | [] => []
  | true :: rest => false :: rest
  | false :: rest => false :: close_first rest
  end.

(** [UI::ShowCameraInfoDialog], line 1910: a click on the row of the
    neighbour with MVS index [neighborID]; the value is the new
    [window.selectedNeighborCamera]. *)
Definition click_neighbor (images : list Image.Image)
    (selectedNeighborCamera neighborID : Z) : Z :=
  if selectedNeighborCamera =? neighborID then NO_ID
  else ImageIdx.ImageIdxMVS2Viewer images neighborID.

End UI.

(* ================================================================== *)
(** * Theorems *)

(** ** Deferred image slot *)

(** C7. The slot state machine: [SetImageLoading] outside EMPTY fails,
    [AssignImage] outside LOADING fails, [TransferImage] outside READY
    returns false and leaves the image as it was, a [TransferImage]
    that returns true was run on a READY slot and leaves the slot EMPTY,
    and on a READY slot [TransferImage] does transfer: it returns true,
    the image has the texture and the size of the buffer, and the slot is
    EMPTY. *)
Theorem image_slot_state_machine :
  (∀ im, Image.IsImageEmpty im = false → Image.SetImageLoading im = None) ∧
  (∀ img im, Image.IsImageLoading im = false → Image.AssignImage img im = None) ∧
  (∀ tex im, Image.IsImageValid im = false →
     Image.TransferImage tex im = (false, im)) ∧
  (∀ tex im im', Image.TransferImage tex im = (true, im') →
     Image.IsImageValid im = true ∧ Image.IsImageEmpty im' = true) ∧
  (∀ tex im m, Image.pImage im = Image.IMG_PTR m →
     Image.TransferImage tex im
     = (true, Image.mkImage (Image.idx im) tex (Image.cols m) (Image.rows m)
                Image.IMG_NULL)) ∧
  (∀ tex im, Image.IsImageValid im = true →
     fst (Image.TransferImage tex im) = true
     ∧ Image.IsImageEmpty (snd (Image.TransferImage tex im)) = true
     ∧ Image.texture (snd (Image.TransferImage tex im)) = tex).
Proof.
  split; [|split; [|split; [|split; [|split]]]].
  - intros im H. unfold Image.SetImageLoading. now rewrite H.
  - intros img im H. unfold Image.AssignImage. now rewrite H.
  - intros tex [i t w h []]; cbn; intros H; congruence.
  - intros tex [i t w h []] im'; cbn; try congruence.
    intros [= <-]. split; reflexivity.
  - intros tex [i t w h p] m. cbn. intros ->. reflexivity.
  - intros tex [i t w h []]; cbn; intros H; try discriminate.
    split; [reflexivity|]. split; reflexivity.
Qed.

Lemma image_slot_state_machine_witness :
  Image.SetImageLoading (Image.mkImage 3 0 0 0 Image.IMG_LOADING) = None ∧
  Image.AssignImage (Image.mkMat 640 480) (Image.new 3) = None ∧
  Image.TransferImage 7 (Image.new 3) = (false, Image.new 3) ∧
  Image.IsImageEmpty
    (snd (Image.TransferImage 7
            (Image.mkImage 3 0 0 0 (Image.IMG_PTR (Image.mkMat 640 480)))))
  = true ∧
  Image.TransferImage 7
    (Image.mkImage 3 0 0 0 (Image.IMG_PTR (Image.mkMat 640 480)))
  = (true, Image.mkImage 3 7 640 480 Image.IMG_NULL) ∧
  fst (Image.TransferImage 7
         (Image.mkImage 3 0 0 0 (Image.IMG_PTR (Image.mkMat 640 480))))
  = true.
Proof.
  destruct image_slot_state_machine as (H1 & H2 & H3 & H4 & H5 & H6).
  split; [|split; [|split; [|split; [|split]]]].
  - apply H1. reflexivity.
  - apply H2. reflexivity.
  - apply H3. reflexivity.
  - apply (H4 7 (Image.mkImage 3 0 0 0 (Image.IMG_PTR (Image.mkMat 640 480)))
             (snd (Image.TransferImage 7
                     (Image.mkImage 3 0 0 0
                        (Image.IMG_PTR (Image.mkMat 640 480)))))).
    reflexivity.
  - apply (H5 7 (Image.mkImage 3 0 0 0 (Image.IMG_PTR (Image.mkMat 640 480)))
             (Image.mkMat 640 480)).
    reflexivity.
  - apply (H6 7 (Image.mkImage 3 0 0 0 (Image.IMG_PTR (Image.mkMat 640 480)))).
    reflexivity.
Defined.

(** The decoded images that [AssignImage] can store: a width that is a
    multiple of 4, or one of at least 4 with a height that is positive. *)
Lemma fit_width_Some (m : Image.Mat) :
  Z.rem (Image.cols m) 4 = 0 ∨ (4 <= Image.cols m ∧ 0 < Image.rows m) →
  Image.fit_width m
  = Some (Image.mkMat (Z.quot (Image.cols m) 4 * 4) (Image.rows m)).
Proof.
  destruct m as [c r]. unfold Image.fit_width, Image.resize. cbn.
  intros Hm. destruct (Z.eqb_spec (Z.rem c 4) 0) as [Hz|Hnz]; cbn.
  - f_equal. f_equal. pose proof (Z.quot_rem' c 4). lia.
  - destruct Hm as [Hz|[Hc Hr]]; [contradiction|].
    pose proof (Z.quot_div_nonneg c 4 ltac:(lia) ltac:(lia)) as Hq.
    assert (1 <= c / 4) by (apply Z.div_le_lower_bound; lia).
    destruct (Z.leb_spec c 0); [lia|].
    destruct (Z.leb_spec r 0); [lia|].
    destruct (Z.leb_spec (Z.quot c 4 * 4) 0); [lia|]. reflexivity.
Qed.

(** The widths 1, 2 and 3 cannot be stored. *)
Lemma fit_width_None (m : Image.Mat) :
  0 < Image.cols m < 4 → Image.fit_width m = None.
Proof.
  destruct m as [c r]. unfold Image.fit_width, Image.resize. cbn. intros Hc.
  assert (Hq : Z.quot c 4 = 0) by (apply Z.quot_small; lia).
  assert (Hr : Z.rem c 4 = c) by (apply Z.rem_small; lia).
  rewrite Hq, Hr. destruct (Z.eqb_spec c 0); [lia|]. cbn.
  now rewrite !orb_true_r.
Qed.

(** The transitions that the state machine allows do succeed. *)
Lemma image_slot_transitions (i tex : Z) (m : Image.Mat) :
  Z.rem (Image.cols m) 4 = 0 ∨ (4 <= Image.cols m ∧ 0 < Image.rows m) →
  let e := Image.new i in
  let b := Image.mkMat (Z.quot (Image.cols m) 4 * 4) (Image.rows m) in
  Image.SetImageLoading e = Some (Image.set_pImage Image.IMG_LOADING e) ∧
  Image.AssignImage m (Image.set_pImage Image.IMG_LOADING e)
    = Some (Image.set_pImage (Image.IMG_PTR b) e) ∧
  fst (Image.TransferImage tex (Image.set_pImage (Image.IMG_PTR b) e)) = true.
Proof.
  intros Hm. cbn. unfold Image.AssignImage. cbn.
  rewrite (fit_width_Some m Hm). split; [reflexivity|]. split; reflexivity.
Qed.

(** ** MVS index to viewer index *)

Section ImageIdxFacts.
Import ImageIdx.
Variable images : list Image.Image.
Variable idx : Z.

Lemma search_backwards_none (n : nat) :
  (∀ (j : nat) b, (j < n)%nat → images !! j = Some b → Image.idx b ≠ idx) →
  search_backwards images idx n = NO_ID.
Proof.
  induction n as [|n IH]; intros Hne; [reflexivity|].
  cbn [search_backwards].
  destruct (images !! n) as [b|] eqn:Hb.
  - destruct (Z.eqb_spec (Image.idx b) idx) as [He|_].
    + exfalso. apply (Hne n b); try lia; auto.
    + apply IH. intros j c Hj. apply Hne. lia.
  - apply IH. intros j c Hj. apply Hne. lia.
Qed.

Lemma search_backwards_found (n i : nat) a :
  (i < n)%nat → images !! i = Some a → Image.idx a = idx →
  (∀ (j : nat) b, (i < j < n)%nat → images !! j = Some b → Image.idx b ≠ idx) →
  search_backwards images idx n = Z.of_nat i.
Proof.
  induction n as [|n IH]; intros Hi Ha Hidx Hne; [lia|].
  cbn [search_backwards].
  destruct (decide (i = n)) as [->|Hin].
  - rewrite Ha. apply Z.eqb_eq in Hidx. now rewrite Hidx.
  - assert (Hlt : (i < n)%nat) by lia.
    destruct (images !! n) as [b|] eqn:Hb.
    + destruct (Z.eqb_spec (Image.idx b) idx) as [He|_].
      * exfalso. apply (Hne n b); try lia; auto.
      * apply IH; auto. intros j c Hj. apply Hne. lia.
    + apply IH; auto. intros j c Hj. apply Hne. lia.
Qed.

(** Under the invariant an image sits at or before its MVS index. *)
Lemma increasing_ge (i : nat) a :
  increasing images → images !! i = Some a → Z.of_nat i <= Image.idx a.
Proof.
  intros [Hrng Hinc]. revert a.
  induction i as [|i IH]; intros a Ha.
  - apply Hrng in Ha. lia.
  - destruct (lookup_lt_is_Some_2 images i) as [b Hb].
    { apply lookup_lt_Some in Ha. lia. }
    specialize (IH b Hb).
    specialize (Hinc i (S i) b a Hb Ha). lia.
Qed.

(** C10. Under the invariant that the viewer images are stored in
    increasing order of their MVS index, [ImageIdxMVS2Viewer idx] is the
    position [i] with [images[i].idx == idx] when there is one, and
    [NO_ID] when there is none. *)
Theorem ImageIdxMVS2Viewer_correct :
  0 <= idx <= NO_ID →
  increasing images →
  (∀ (i : nat) a, images !! i = Some a → Image.idx a = idx →
     ImageIdxMVS2Viewer images idx = Z.of_nat i) ∧
  ((∀ (i : nat) a, images !! i = Some a → Image.idx a ≠ idx) →
     ImageIdxMVS2Viewer images idx = NO_ID).
Proof.
  intros Hidx Hinc. split.
  - intros i a Ha He. unfold ImageIdxMVS2Viewer.
    pose proof (increasing_ge i a Hinc Ha) as Hge.
    pose proof (lookup_lt_Some _ _ _ Ha) as Hlen.
    destruct Hinc as [Hrng Hlt].
    pose proof (Hrng i a Ha) as Hr.
    assert (Hw : IIndex_wrap (idx + 1) = idx + 1).
    { unfold IIndex_wrap. apply Z.mod_small. unfold NO_ID in *. lia. }
    rewrite Hw.
    apply search_backwards_found with (a := a); auto.
    + unfold MINF. destruct (Z.ltb_spec (idx + 1) (Z.of_nat (length images))); lia.
    + intros j b [Hij _] Hb Hbe.
      specialize (Hlt i j a b Ha Hb Hij). lia.
  - intros Hne. unfold ImageIdxMVS2Viewer.
    apply search_backwards_none. intros j b _ Hb. eapply Hne; eauto.
Qed.

End ImageIdxFacts.

Lemma ImageIdxMVS2Viewer_correct_witness :
  let images := [Image.new 0; Image.new 2; Image.new 5] in
  ImageIdx.ImageIdxMVS2Viewer images 5 = 2 ∧
  ImageIdx.ImageIdxMVS2Viewer images 3 = NO_ID.
Proof.
  assert (Hinc : ImageIdx.increasing [Image.new 0; Image.new 2; Image.new 5]).
  { split.
    - intros [|[|[|i]]] a; cbn; intros [= <-]; cbn; unfold NO_ID; lia.
    - intros [|[|[|i]]] [|[|[|j]]] a b; cbn;
        try (intros [= <-] [= <-]); try discriminate; cbn; lia. }
  split.
  - apply (proj1 (ImageIdxMVS2Viewer_correct
                    [Image.new 0; Image.new 2; Image.new 5] 5
                    ltac:(unfold NO_ID; lia) Hinc) 2%nat (Image.new 5));
      reflexivity.
  - apply (proj2 (ImageIdxMVS2Viewer_correct
                    [Image.new 0; Image.new 2; Image.new 5] 3
                    ltac:(unfold NO_ID; lia) Hinc)).
    intros [|[|[|i]]] a; cbn; intros [= <-]; cbn; lia.
Defined.

(** ** The pick resolver *)

Section PickFacts.
Context {REAL : Type} `{RealOps REAL} {Point3f : Type}.
Import Pick.

Local Abbreviation Cast := (Pick.Cast REAL Point3f).
Local Abbreviation Window := (Pick.Window REAL Point3f).
Local Abbreviation Tentative := (Pick.Tentative REAL Point3f).

(** The point candidate replaces the tentative selection only when the
    point query hits strictly closer than the tentative distance. *)
Lemma pick_points_replaces (c : Cast) (w : Window) (t : Tentative) :
  pick_points c w t ≠ t →
  ∃ pick, IntersectRayPoints c (CLAMP (minViews w) 1 (nImages c)) = Some pick
          ∧ Rltb (pick_dist pick) (minDist t) = true
          ∧ tType (pick_points c w t) = SEL_POINT.
Proof.
  unfold pick_points. intros Hne.
  destruct (showPointCloud w && negb (octPointsIsEmpty c)); [|congruence].
  destruct (IntersectRayPoints c _) as [pick|]; [|congruence].
  destruct (Rltb (pick_dist pick) (minDist t)) eqn:Hlt; [|congruence].
  exists pick. auto.
Qed.

(** A camera replaces the tentative selection only when it is visible
    strictly closer than the tentative distance. *)
Lemma pick_camera_replaces (idx : Z) (cam : option REAL * Point3f) (t : Tentative) :
  pick_camera idx cam t ≠ t →
  ∃ dist, fst cam = Some dist ∧ Rltb dist (minDist t) = true
          ∧ tType (pick_camera idx cam t) = SEL_CAMERA.
Proof.
  unfold pick_camera. intros Hne.
  destruct (fst cam) as [dist|]; [|congruence].
  destruct (Rltb dist (minDist t)) eqn:Hlt; [|congruence].
  exists dist. auto.
Qed.

(** Cameras none of which is strictly closer leave the selection alone. *)
Lemma pick_cameras_none_closer (cams : list (option REAL * Point3f)) :
  ∀ (idx : Z) (t : Tentative),
  (∀ dist C, In (Some dist, C) cams → Rltb dist (minDist t) = false) →
  pick_cameras idx cams t = t.
Proof.
  induction cams as [|[o C] cams IH]; intros idx t Hfar; [reflexivity|].
  cbn [pick_cameras].
  assert (Hstep : pick_camera idx (o, C) t = t).
  { unfold pick_camera. cbn [fst snd]. destruct o as [dist|]; [|reflexivity].
    rewrite (Hfar dist C); [reflexivity|]. now left. }
  rewrite Hstep. apply IH. intros dist C' Hin. apply (Hfar dist C'). now right.
Qed.

(** A release that is neither a long press nor a double click resolves
    the ray. *)
Lemma OnCastRay_resolves (c : Cast) (now : REAL) (button mods : Z) (w : Window) :
  IsOpen c = true → IsOctreeValid c = true →
  Rltb timeClick (Rminus now (selectionTimeClick w)) = false →
  negb (SELECTION_eqb (selectionType w) SEL_NA)
    && Rltb (Rminus now (selectionTime w)) timeDblClick = false →
  OnCastRay c now button GLFW_RELEASE mods w =
    (let '(w', calls) := commit now mods (selectionType w) w (resolve c w) in
     (w', calls ++
          if negb (SELECTION_eqb (selectionType w') SEL_NA)
             || negb (SELECTION_eqb (selectionType w) SEL_NA)
          then [UploadSelection; RequestRedraw] else [])).
Proof.
  intros Ho Hv Hc Hd. unfold OnCastRay.
  rewrite Ho, Hv, Hc, Hd. reflexivity.
Qed.

(** C1. Candidates are tried in the order mesh, points, cameras; points
    and cameras replace the tentative selection only when strictly closer
    than the tentative distance; hence a mesh hit wins against points and
    cameras at the same distance, and a point hit wins against cameras at
    the same distance. *)
Theorem pick_priority_mesh_point_camera (c : Cast) (w : Window) :
  (∀ x : REAL, Rltb x x = false) →
  resolve c w
    = pick_cameras 0 (cameras c) (pick_points c w (pick_mesh c w (tentative0 c)))
  ∧ (∀ t, pick_points c w t ≠ t →
       ∃ pick, IntersectRayPoints c (CLAMP (minViews w) 1 (nImages c)) = Some pick
               ∧ Rltb (pick_dist pick) (minDist t) = true)
  ∧ (∀ idx cam (t : Tentative), pick_camera idx cam t ≠ t →
       ∃ dist, fst cam = Some dist ∧ Rltb dist (minDist t) = true)
  ∧ (∀ tri,
       showMesh w = true → octMeshIsEmpty c = false →
       IntersectRayMesh c = Some tri →
       (∀ pick, IntersectRayPoints c (CLAMP (minViews w) 1 (nImages c)) = Some pick →
          pick_dist pick = pick_dist tri
          ∨ Rltb (pick_dist pick) (pick_dist tri) = false) →
       (∀ dist C, In (Some dist, C) (cameras c) →
          dist = pick_dist tri ∨ Rltb dist (pick_dist tri) = false) →
       tType (resolve c w) = SEL_TRIANGLE
       ∧ newSelectionIdx (resolve c w) = pick_idx tri
       ∧ ∀ now button mods,
           IsOpen c = true →
           Rltb timeClick (Rminus now (selectionTimeClick w)) = false →
           negb (SELECTION_eqb (selectionType w) SEL_NA)
             && Rltb (Rminus now (selectionTime w)) timeDblClick = false →
           let w' := fst (OnCastRay c now button GLFW_RELEASE mods w) in
           selectionType w' = SEL_TRIANGLE ∧ selectionIdx w' = pick_idx tri)
  ∧ (∀ pt,
       pick_mesh c w (tentative0 c) = tentative0 c →
       showPointCloud w = true → octPointsIsEmpty c = false →
       IntersectRayPoints c (CLAMP (minViews w) 1 (nImages c)) = Some pt →
       Rltb (pick_dist pt) FLT_MAX = true →
       (∀ dist C, In (Some dist, C) (cameras c) →
          dist = pick_dist pt ∨ Rltb dist (pick_dist pt) = false) →
       tType (resolve c w) = SEL_POINT
       ∧ newSelectionIdx (resolve c w) = pick_idx pt).
Proof.
  intros Hirr.
  assert (Hnot : ∀ a b : REAL, a = b ∨ Rltb a b = false → Rltb a b = false).
  { intros a b [->|Hab]; auto. }
  split; [reflexivity|]. split.
  { intros t Hne. destruct (pick_points_replaces c w t Hne) as (p & ? & ? & _).
    exists p. auto. }
  split.
  { intros idx cam t Hne.
    destruct (pick_camera_replaces idx cam t Hne) as (d & ? & ? & _).
    exists d. auto. }
  split.
  - intros tri Hshow Hoct Hhit Hpts Hcams.
    assert (Hres : resolve c w = pick_mesh c w (tentative0 c)).
    { unfold resolve.
      assert (Hm : minDist (pick_mesh c w (tentative0 c)) = pick_dist tri).
      { unfold pick_mesh. rewrite Hshow, Hoct, Hhit. reflexivity. }
      assert (Hp : pick_points c w (pick_mesh c w (tentative0 c))
                   = pick_mesh c w (tentative0 c)).
      { unfold pick_points at 1.
        destruct (showPointCloud w && negb (octPointsIsEmpty c)); [|reflexivity].
        destruct (IntersectRayPoints c _) as [pick|] eqn:Hq; [|reflexivity].
        rewrite Hm, (Hnot _ _ (Hpts pick eq_refl)). reflexivity. }
      rewrite Hp. apply pick_cameras_none_closer.
      intros dist C Hin. rewrite Hm. apply Hnot. eauto. }
    assert (Hmesh : pick_mesh c w (tentative0 c)
              = mkTentative SEL_TRIANGLE (pick_dist tri) (pick_idx tri)
                  (mkPoints4 (faceVertex c (pick_idx tri) 0)
                     (faceVertex c (pick_idx tri) 1)
                     (faceVertex c (pick_idx tri) 2)
                     (rayGetPoint c (pick_dist tri)))).
    { unfold pick_mesh. rewrite Hshow, Hoct, Hhit. reflexivity. }
    rewrite Hres, Hmesh. cbn [tType newSelectionIdx].
    split; [reflexivity|]. split; [reflexivity|].
    intros now button mods Hopen Hlong Hdbl.
    assert (Hvalid : IsOctreeValid c = true).
    { unfold IsOctreeValid. rewrite Hoct. apply orb_true_r. }
    rewrite (OnCastRay_resolves c now button mods w Hopen Hvalid Hlong Hdbl).
    rewrite Hres, Hmesh. cbn. auto.
  - intros pt Hmesh Hshow Hoct Hhit Hlt Hcams.
    assert (Hp : pick_points c w (tentative0 c)
              = mkTentative SEL_POINT (pick_dist pt) (pick_idx pt)
                  (mkPoints4 (pointAt c (pick_idx pt)) (defaultPoint c)
                     (defaultPoint c) (pointAt c (pick_idx pt)))).
    { unfold pick_points. rewrite Hshow, Hoct, Hhit. cbn.
      cbn in Hlt. rewrite Hlt. reflexivity. }
    unfold resolve. rewrite Hmesh, Hp.
    rewrite pick_cameras_none_closer; [auto|].
    intros dist C Hin. cbn [minDist]. apply Hnot. eauto.
Qed.

End PickFacts.

Lemma Qltb_irrefl (x : Q) : Rltb x x = false.
Proof.
  cbn. unfold Qltb. apply negb_false_iff. apply Qle_bool_iff. apply Qle_refl.
Qed.

Lemma pick_priority_mesh_point_camera_witness :
  Pick.tType (Pick.resolve PickSamples.cast_tie PickSamples.window0) = SEL_TRIANGLE
  ∧ Pick.newSelectionIdx (Pick.resolve PickSamples.cast_tie PickSamples.window0) = 11.
Proof.
  destruct (pick_priority_mesh_point_camera
              PickSamples.cast_tie PickSamples.window0 Qltb_irrefl)
    as (_ & _ & _ & Hmesh & _).
  destruct (Hmesh (Pick.mkPick 11 (5 # 1))) as (Ht & Hi & _).
  - reflexivity.
  - reflexivity.
  - reflexivity.
  - intros pick [= <-]. left. reflexivity.
  - intros dist C [Hc|[Hc|[Hc|[]]]]; inversion Hc; subst.
    + right. vm_compute. reflexivity.
    + left. reflexivity.
  - split; assumption.
Defined.

(** ** Click, long press and double click *)

Section ClickFacts.
Context {REAL : Type} `{RealOps REAL} {Point3f : Type}.
Import Pick.

Local Abbreviation Cast := (Pick.Cast REAL Point3f).
Local Abbreviation Window := (Pick.Window REAL Point3f).

(** A closed scene or released octrees: the event is dropped. *)
Lemma OnCastRay_guard (c : Cast) (now : REAL) (button action mods : Z) (w : Window) :
  IsOpen c = false ∨ IsOctreeValid c = false →
  OnCastRay c now button action mods w = (w, []).
Proof.
  intros [Hg|Hg]; unfold OnCastRay; rewrite Hg; [reflexivity|].
  now rewrite orb_true_r.
Qed.

(** A press records its time and nothing else. *)
Lemma OnCastRay_press (c : Cast) (now : REAL) (button mods : Z) (w : Window) :
  IsOpen c = true → IsOctreeValid c = true →
  OnCastRay c now button GLFW_PRESS mods w = (set_selectionTimeClick now w, []).
Proof. intros Ho Hv. unfold OnCastRay. now rewrite Ho, Hv. Qed.

(** C3, as the code has it.  With the scene open and an octree built, a
    release later than 0.2 s after the press changes nothing; otherwise,
    with a selection made less than 0.3 s ago, the release is a double
    click: camera-view mode on the selected camera, or, for a point or a
    triangle, camera-view mode is left and the scene is centred on the
    stored point when the control mode is arcball (and not otherwise).
    Only the time of the selection changes, and the answer of the ray
    queries plays no part. *)
Theorem release_long_press_or_double_click
    (c : Cast) (now : REAL) (button mods : Z) (w : Window) :
  IsOpen c = true → IsOctreeValid c = true →
  (Rltb timeClick (Rminus now (selectionTimeClick w)) = true →
     OnCastRay c now button GLFW_RELEASE mods w = (w, []))
  ∧ (Rltb timeClick (Rminus now (selectionTimeClick w)) = false →
     selectionType w ≠ SEL_NA →
     Rltb (Rminus now (selectionTime w)) timeDblClick = true →
     OnCastRay c now button GLFW_RELEASE mods w
       = (set_selectionTime now w,
          match selectionType w with
          | SEL_CAMERA => [SetCameraViewMode (selectionIdx w)]
          | _ => DisableCameraViewMode ::
                 match controlMode w with
                 | CONTROL_ARCBALL => [animateTo (p3 (selectionPoints w))]
                 | _ => []
                 end
          end)
     ∧ selectionIdx (fst (OnCastRay c now button GLFW_RELEASE mods w))
       = selectionIdx w
     ∧ selectionType (fst (OnCastRay c now button GLFW_RELEASE mods w))
       = selectionType w
     ∧ ∀ c' : Cast, IsOpen c' = true → IsOctreeValid c' = true →
         OnCastRay c' now button GLFW_RELEASE mods w
         = OnCastRay c now button GLFW_RELEASE mods w).
Proof.
  intros Ho Hv. split.
  - intros Hlong. unfold OnCastRay. now rewrite Ho, Hv, Hlong.
  - intros Hshort Hsel Hdbl.
    assert (Hrun : ∀ c' : Cast, IsOpen c' = true → IsOctreeValid c' = true →
      OnCastRay c' now button GLFW_RELEASE mods w
       = (set_selectionTime now w,
          match selectionType w with
          | SEL_CAMERA => [SetCameraViewMode (selectionIdx w)]
          | _ => DisableCameraViewMode ::
                 match controlMode w with
                 | CONTROL_ARCBALL => [animateTo (p3 (selectionPoints w))]
                 | _ => []
                 end
          end)).
    { intros c' Ho' Hv'. unfold OnCastRay, OnCenterScene.
      rewrite Ho', Hv', Hshort, Hdbl. cbn.
      destruct (selectionType w); try congruence; reflexivity. }
    rewrite (Hrun c Ho Hv). cbn [fst].
    split; [reflexivity|]. split; [reflexivity|]. split; [reflexivity|].
    intros c' Ho' Hv'. apply Hrun; assumption.
Qed.

(** A resolved camera with alt held: camera-view mode on that camera, and
    the window (selection kind, index, points, times, neighbour) is the
    one before the click. *)
Lemma alt_click_on_camera (c : Cast) (now : REAL) (button mods : Z) (w : Window) :
  IsOpen c = true → IsOctreeValid c = true →
  Rltb timeClick (Rminus now (selectionTimeClick w)) = false →
  negb (SELECTION_eqb (selectionType w) SEL_NA)
    && Rltb (Rminus now (selectionTime w)) timeDblClick = false →
  tType (resolve c w) = SEL_CAMERA →
  has_mod mods GLFW_MOD_ALT = true →
  fst (OnCastRay c now button GLFW_RELEASE mods w) = w
  ∧ In (SetCameraViewMode (newSelectionIdx (resolve c w)))
       (snd (OnCastRay c now button GLFW_RELEASE mods w)).
Proof.
  intros Ho Hv Hlong Hdbl Hcam Halt.
  rewrite (OnCastRay_resolves c now button mods w Ho Hv Hlong Hdbl).
  unfold commit. rewrite Hcam. cbn. rewrite Halt. cbn.
  split; [destruct w; reflexivity | now left].
Qed.

(** A resolved camera with ctrl (and not alt) held: the neighbour camera
    is set, and the selection kind is left at [SEL_CAMERA], whatever it
    was before the click; index, points and times are kept. *)
Lemma ctrl_click_on_camera (c : Cast) (now : REAL) (button mods : Z) (w : Window) :
  IsOpen c = true → IsOctreeValid c = true →
  Rltb timeClick (Rminus now (selectionTimeClick w)) = false →
  negb (SELECTION_eqb (selectionType w) SEL_NA)
    && Rltb (Rminus now (selectionTime w)) timeDblClick = false →
  tType (resolve c w) = SEL_CAMERA →
  has_mod mods GLFW_MOD_ALT = false →
  has_mod mods GLFW_MOD_CONTROL = true →
  fst (OnCastRay c now button GLFW_RELEASE mods w)
  = set_selectedNeighborCamera (newSelectionIdx (resolve c w))
      (set_selectionType SEL_CAMERA w).
Proof.
  intros Ho Hv Hlong Hdbl Hcam Halt Hctrl.
  rewrite (OnCastRay_resolves c now button mods w Ho Hv Hlong Hdbl).
  unfold commit. rewrite Hcam. cbn. rewrite Halt, Hctrl. reflexivity.
Qed.

End ClickFacts.

Lemma release_long_press_or_double_click_witness :
  Pick.OnCastRay PickSamples.cast_camera (121 # 10) 0 GLFW_RELEASE 0
    (PickSamples.window_camera (10 # 1))
  = (PickSamples.window_camera (10 # 1), [])
  ∧ Pick.OnCastRay PickSamples.cast_camera (101 # 10) 0 GLFW_RELEASE 0
      (PickSamples.window_camera (10 # 1))
    = (Pick.set_selectionTime (101 # 10) (PickSamples.window_camera (10 # 1)),
       [Pick.SetCameraViewMode 2]).
Proof.
  split.
  - apply (proj1 (release_long_press_or_double_click
                    PickSamples.cast_camera (121 # 10) 0 0
                    (PickSamples.window_camera (10 # 1)) eq_refl eq_refl)).
    vm_compute. reflexivity.
  - apply (proj2 (release_long_press_or_double_click
                    PickSamples.cast_camera (101 # 10) 0 0
                    (PickSamples.window_camera (10 # 1)) eq_refl eq_refl)).
    + vm_compute. reflexivity.
    + discriminate.
    + vm_compute. reflexivity.
Defined.

(** C3 as stated fails at two guards.  (1) While no octree is built, a
    release inside both time windows on a selected camera does nothing:
    camera-view mode is not entered and the time of the selection is not
    updated.  (2) Outside arcball control, a double click on a selected
    point centres nothing. *)
Lemma release_double_click_counterexample :
  (Rltb Pick.timeClick
     (Rminus (101 # 10) (Pick.selectionTimeClick (PickSamples.window_camera (10 # 1))))
   = false
   ∧ Pick.selectionType (PickSamples.window_camera (10 # 1)) = SEL_CAMERA
   ∧ Rltb (Rminus (101 # 10) (Pick.selectionTime (PickSamples.window_camera (10 # 1))))
       Pick.timeDblClick
     = true
   ∧ Pick.OnCastRay PickSamples.cast_camera_no_octree (101 # 10) 0 GLFW_RELEASE 0
       (PickSamples.window_camera (10 # 1))
     = (PickSamples.window_camera (10 # 1), []))
  ∧
  (Rltb Pick.timeClick
     (Rminus (101 # 10) (Pick.selectionTimeClick (PickSamples.window_point_fp (10 # 1))))
   = false
   ∧ Pick.selectionType (PickSamples.window_point_fp (10 # 1)) = SEL_POINT
   ∧ Rltb (Rminus (101 # 10) (Pick.selectionTime (PickSamples.window_point_fp (10 # 1))))
       Pick.timeDblClick
     = true
   ∧ snd (Pick.OnCastRay PickSamples.cast_camera (101 # 10) 0 GLFW_RELEASE 0
            (PickSamples.window_point_fp (10 # 1)))
     = [Pick.DisableCameraViewMode]).
Proof. vm_compute. repeat split. Qed.

(** C9, the ctrl half, at a selected point: the click on camera 1 with
    ctrl held sets the neighbour camera to 1 and turns the selection kind
    from [SEL_POINT] into [SEL_CAMERA], the index staying 7. *)
Lemma ctrl_click_changes_selection_kind :
  let w' := fst (Pick.OnCastRay PickSamples.cast_camera (201 # 10) 0 GLFW_RELEASE
                   GLFW_MOD_CONTROL (PickSamples.window_point (20 # 1))) in
  Pick.selectionType (PickSamples.window_point (20 # 1)) = SEL_POINT
  ∧ Pick.selectionType w' = SEL_CAMERA
  ∧ Pick.selectionIdx w' = 7
  ∧ Pick.selectedNeighborCamera w' = 1
  ∧ w' ≠ Pick.set_selectedNeighborCamera 1 (PickSamples.window_point (20 # 1)).
Proof. vm_compute. repeat split. discriminate. Qed.

(** The alt half at the same click: the window is untouched. *)
Lemma alt_click_keeps_selection_sample :
  Pick.OnCastRay PickSamples.cast_camera (201 # 10) 0 GLFW_RELEASE
    GLFW_MOD_ALT (PickSamples.window_point (20 # 1))
  = (PickSamples.window_point (20 # 1),
     [Pick.SetCameraViewMode 1; Pick.DEBUG SEL_POINT 1;
      Pick.UploadSelection; Pick.RequestRedraw]).
Proof. vm_compute. reflexivity. Qed.

(** ** Geometry operations and the rebuild of the octrees *)

Section SceneFacts.
Context {PointCloud Mesh OBB : Type} `{MVSOps PointCloud Mesh OBB}.
Import Scene.

Local Abbreviation Scene := (Scene.Scene PointCloud Mesh OBB).
Local Abbreviation MVSScene := (Scene.MVSScene PointCloud Mesh OBB).


Lemma UpdateGeometryAfterModification_spec (s : Scene) :
  let s' := fst (UpdateGeometryAfterModification s) in
  octPoints s' = None ∧ octMesh s' = None
  ∧ hasSelection (selectionController s') = false
  ∧ scene s' = scene s
  ∧ events s' = (if MVSScene_IsEmpty (scene s) then events s
                 else events s ++ [EVTComputeOctree]).
Proof.
  unfold UpdateGeometryAfterModification. cbn.
  destruct (MVSScene_IsEmpty (scene s)); cbn; auto.
Qed.

(** What [RemoveSelectedGeometry] does when something is selected. *)
Lemma RemoveSelectedGeometry_selected (s : Scene) :
  hasSelection (selectionController s) = true →
  let s' := fst (RemoveSelectedGeometry s) in
  pointcloud (scene s') = points_after s
  ∧ mesh (scene s') = mesh_after s
  ∧ (removes_points s || removes_faces s = true →
       hasSelection (selectionController s') = false
       ∧ octPoints s' = None ∧ octMesh s' = None
       ∧ events s' = (if Scene_IsEmpty (points_after s) (mesh_after s)
                      then events s else events s ++ [EVTComputeOctree]))
  ∧ (removes_points s || removes_faces s = false → s' = s).
Proof.
  intros Hsel. unfold RemoveSelectedGeometry, points_after, mesh_after,
    removes_points, removes_faces.
  rewrite Hsel. cbn [negb].
  destruct s as [v [pc m imgs box] im op om q sel]. cbn.
  destruct (PointCloud_IsEmpty pc); cbn;
    destruct (is_empty (getSelectedPointIndices sel)); cbn;
    destruct (Mesh_IsEmpty m); cbn;
    destruct (is_empty (getSelectedFaceIndices sel)); cbn;
    unfold MVSScene_IsEmpty; cbn;
    repeat match goal with
           | |- context [Scene_IsEmpty ?a ?b] => destruct (Scene_IsEmpty a b); cbn
           end;
    repeat split; intros; try discriminate; auto.
Qed.

(** C5, as the code has it.  With an empty Selection Set
    [RemoveSelectedGeometry] changes nothing.  Otherwise the selected
    points are removed when there are points and selected point indices,
    and the selected faces when there is a mesh and selected face
    indices; when either was removed, the octrees are released, the
    Selection Set is empty afterwards, and a rebuild job is put at the tail
    of the queue provided the scene that is left is not empty. *)
Theorem RemoveSelectedGeometry_spec (s : Scene) :
  (hasSelection (selectionController s) = false →
     RemoveSelectedGeometry s = (s, []))
  ∧ (hasSelection (selectionController s) = true →
     let s' := fst (RemoveSelectedGeometry s) in
     pointcloud (scene s') = points_after s
     ∧ mesh (scene s') = mesh_after s
     ∧ (removes_points s || removes_faces s = true →
          hasSelection (selectionController s') = false
          ∧ (Scene_IsEmpty (points_after s) (mesh_after s) = false →
               events s' = events s ++ [EVTComputeOctree])
          ∧ (Scene_IsEmpty (points_after s) (mesh_after s) = true →
               events s' = events s))).
Proof.
  split.
  - intros Hno. unfold RemoveSelectedGeometry. now rewrite Hno.
  - intros Hsel.
    destruct (RemoveSelectedGeometry_selected s Hsel) as (Hp & Hm & Hd & _).
    split; [exact Hp|]. split; [exact Hm|].
    intros Hdirty. destruct (Hd Hdirty) as (Hc & _ & _ & He).
    split; [exact Hc|].
    split; intros Hemp; rewrite Hemp in He; exact He.
Qed.

(** After a successful load the rebuild job is at the tail of the queue
    exactly when the loaded scene is not empty. *)
Lemma Open_events (m : MVSScene) (s : Scene) :
  events (snd (fst (Open (Some m) s)))
  = (if MVSScene_IsEmpty m then events s else events s ++ [EVTComputeOctree]).
Proof.
  unfold Open. cbn. destruct (MVSScene_IsEmpty m); reflexivity.
Qed.

(** [CropToBounds] neither touches the queue nor the octrees. *)
Lemma CropToBounds_no_rebuild (s : Scene) :
  let s' := fst (CropToBounds s) in
  events s' = events s ∧ octPoints s' = octPoints s ∧ octMesh s' = octMesh s.
Proof.
  unfold CropToBounds. destruct (IsOpen s); cbn; auto.
  destruct (obb (scene s)); cbn; auto.
Qed.

(** C4, as the code has it.  The initial load, and the removal of
    selected geometry, put a rebuild job at the tail of the queue after
    the change, provided the scene they leave is not empty. *)
Theorem rebuild_enqueued_after_mutation :
  (∀ (m : MVSScene) (s : Scene),
     MVSScene_IsEmpty m = false →
     events (snd (fst (Open (Some m) s))) = events s ++ [EVTComputeOctree])
  ∧ (∀ s : Scene,
       hasSelection (selectionController s) = true →
       removes_points s || removes_faces s = true →
       Scene_IsEmpty (points_after s) (mesh_after s) = false →
       let s' := fst (RemoveSelectedGeometry s) in
       pointcloud (scene s') = points_after s
       ∧ mesh (scene s') = mesh_after s
       ∧ events s' = events s ++ [EVTComputeOctree]).
Proof.
  split.
  - intros m s Hne. rewrite Open_events, Hne. reflexivity.
  - intros s Hsel Hdirty Hne.
    destruct (RemoveSelectedGeometry_selected s Hsel) as (Hp & Hm & Hd & _).
    destruct (Hd Hdirty) as (_ & _ & _ & He). rewrite Hne in He. auto.
Qed.

(** ** The worker and a failing image load *)

(** C8, as the code has it.  When the decoding of the image fails,
    [EVTLoadImage::Run] returns false and leaves the scene as it is (the
    image slot included, which the requester had set to LOADING), and the
    worker loop goes on with the events that follow. *)
Theorem failed_load_job (ReloadImage : Z → Z → option Image.Mat)
    (idx r : Z) (rest : list Event) (s : Scene) image imageData :
  images s !! Z.to_nat idx = Some image →
  Image.idx image ≠ NO_ID →
  scene_images (scene s) !! Z.to_nat (Image.idx image) = Some imageData →
  MVSImage_IsValid imageData = true →
  MVSImage_image imageData = None →
  ReloadImage (Image.idx image) r = None →
  EVTLoadImage_Run ReloadImage idx r s = Some (false, s)
  ∧ worker_loop ReloadImage (EVTLoadImage idx r :: rest) s
    = worker_loop ReloadImage rest (set_events rest s)
  ∧ (Image.IsImageLoading image = true →
     ∀ s', EVTLoadImage_Run ReloadImage idx r s = Some (false, s') →
       Image.pImage <$> images s' !! Z.to_nat idx = Some Image.IMG_LOADING).
Proof.
  intros Him Hid Hdata Hvalid Hnone Hfail.
  assert (Hrun : ∀ s0 : Scene, images s0 = images s → scene s0 = scene s →
            EVTLoadImage_Run ReloadImage idx r s0 = Some (false, s0)).
  { intros s0 Hi Hs. unfold EVTLoadImage_Run. rewrite Hi, Hs, Him.
    apply Z.eqb_neq in Hid. rewrite Hid, Hdata, Hvalid, Hnone, Hfail.
    reflexivity. }
  split; [apply Hrun; reflexivity|]. split.
  - cbn [worker_loop]. rewrite Hrun; reflexivity.
  - intros Hload s' Hs'. rewrite Hrun in Hs' by reflexivity.
    injection Hs' as <-. rewrite Him. cbn.
    unfold Image.IsImageLoading in Hload.
    destruct (Image.pImage image); congruence.
Qed.

End SceneFacts.

Lemma RemoveSelectedGeometry_spec_witness :
  Scene.RemoveSelectedGeometry
    (Scene.set_selectionController (mkSelection [] []) SceneSamples.scene_points)
  = (Scene.set_selectionController (mkSelection [] []) SceneSamples.scene_points, [])
  ∧ Scene.pointcloud (Scene.scene
      (fst (Scene.RemoveSelectedGeometry SceneSamples.scene_one_selected)))
    = [10; 30]
  ∧ hasSelection (Scene.selectionController
      (fst (Scene.RemoveSelectedGeometry SceneSamples.scene_one_selected)))
    = false
  ∧ Scene.events (fst (Scene.RemoveSelectedGeometry SceneSamples.scene_one_selected))
    = [EVTComputeOctree].
Proof.
  split.
  - apply (proj1 (RemoveSelectedGeometry_spec
                    (Scene.set_selectionController (mkSelection [] [])
                       SceneSamples.scene_points))).
    reflexivity.
  - destruct (proj2 (RemoveSelectedGeometry_spec SceneSamples.scene_one_selected)
                eq_refl) as (Hp & _ & Hd).
    destruct (Hd eq_refl) as (Hc & He & _).
    split; [exact Hp|]. split; [exact Hc|]. apply He. reflexivity.
Defined.

(** C5 as stated fails when everything is removed: the three selected
    points are all the geometry of the scene; they are removed, the
    Selection Set is cleared, and no rebuild job is put on the queue. *)
Lemma RemoveSelectedGeometry_counterexample :
  hasSelection (Scene.selectionController SceneSamples.scene_points) = true
  ∧ Scene.pointcloud (Scene.scene SceneSamples.scene_points) = [10; 20; 30]
  ∧ Scene.pointcloud (Scene.scene
      (fst (Scene.RemoveSelectedGeometry SceneSamples.scene_points))) = []
  ∧ hasSelection (Scene.selectionController
      (fst (Scene.RemoveSelectedGeometry SceneSamples.scene_points))) = false
  ∧ Scene.events SceneSamples.scene_points = []
  ∧ Scene.events (fst (Scene.RemoveSelectedGeometry SceneSamples.scene_points)) = [].
Proof. vm_compute. auto 10. Qed.

Lemma rebuild_enqueued_after_mutation_witness :
  Scene.events
    (snd (fst (Scene.Open (Some (Scene.scene SceneSamples.scene_points))
                 SceneSamples.scene_loading)))
  = [EVTLoadImage 0 IMAGE_MAX_RESOLUTION; EVTComputeOctree]
  ∧ Scene.events (fst (Scene.RemoveSelectedGeometry SceneSamples.scene_one_selected))
    = [EVTComputeOctree].
Proof.
  destruct (rebuild_enqueued_after_mutation
              (PointCloud := SceneSamples.PointCloud) (Mesh := SceneSamples.Mesh)
              (OBB := SceneSamples.OBB)) as (Hopen & Hremove).
  split.
  - apply (Hopen (Scene.scene SceneSamples.scene_points) SceneSamples.scene_loading).
    reflexivity.
  - apply (Hremove SceneSamples.scene_one_selected); reflexivity.
Defined.

(** C4 as stated fails twice.  (1) Removing all the geometry changes it
    and queues nothing.  (2) Cropping the open, bounded scene to its box
    removes point 10, queues nothing and leaves the octree of the three
    points in place. *)
Lemma rebuild_after_mutation_counterexample :
  (Scene.pointcloud (Scene.scene SceneSamples.scene_points) = [10; 20; 30]
   ∧ Scene.pointcloud (Scene.scene
       (fst (Scene.RemoveSelectedGeometry SceneSamples.scene_points))) = []
   ∧ Scene.events (fst (Scene.RemoveSelectedGeometry SceneSamples.scene_points))
     = Scene.events SceneSamples.scene_points)
  ∧
  (Scene.IsOpen SceneSamples.scene_points = true
   ∧ Scene.pointcloud (Scene.scene
       (fst (Scene.CropToBounds SceneSamples.scene_points))) = [20; 30]
   ∧ Scene.events (fst (Scene.CropToBounds SceneSamples.scene_points))
     = Scene.events SceneSamples.scene_points
   ∧ Scene.octPoints (fst (Scene.CropToBounds SceneSamples.scene_points))
     = Some [10; 20; 30]).
Proof. vm_compute. auto 10. Qed.

Lemma failed_load_job_witness :
  Scene.EVTLoadImage_Run SceneSamples.ReloadImage_fails 0 IMAGE_MAX_RESOLUTION
    SceneSamples.scene_loading
  = Some (false, SceneSamples.scene_loading)
  ∧ Scene.worker_loop SceneSamples.ReloadImage_fails
      [EVTLoadImage 0 IMAGE_MAX_RESOLUTION; EVTComputeOctree]
      SceneSamples.scene_loading
    = Scene.worker_loop SceneSamples.ReloadImage_fails [EVTComputeOctree]
        (Scene.set_events [EVTComputeOctree] SceneSamples.scene_loading).
Proof.
  destruct (failed_load_job SceneSamples.ReloadImage_fails 0 IMAGE_MAX_RESOLUTION
              [EVTComputeOctree] SceneSamples.scene_loading
              (Image.mkImage 0 0 0 0 Image.IMG_LOADING) (mkMVSImage true None))
    as (Hrun & Hloop & _).
  - reflexivity.
  - discriminate.
  - reflexivity.
  - reflexivity.
  - reflexivity.
  - reflexivity.
  - split; [exact Hrun | exact Hloop].
Defined.

(** C8 as stated fails on the image slot.  Asking for camera-view mode
    on camera 0 sets its slot to LOADING and queues the load job; the
    decoding fails; the worker runs the queue to its end; the slot is
    still LOADING, not EMPTY, and asking again queues no new load job. *)
Lemma failed_load_counterexample :
  Scene.OnSetCameraViewMode 0 SceneSamples.scene_points
  = Some (SceneSamples.scene_loading, [SetCameraFromSceneData 0])
  ∧ Scene.ThreadWorker SceneSamples.ReloadImage_fails SceneSamples.scene_loading
    = Some (Scene.Waiting, Scene.set_events [] SceneSamples.scene_loading)
  ∧ Image.pImage <$>
      Scene.images (Scene.set_events [] SceneSamples.scene_loading) !! 0%nat
    = Some Image.IMG_LOADING
  ∧ Image.IsImageEmpty <$>
      Scene.images (Scene.set_events [] SceneSamples.scene_loading) !! 0%nat
    = Some false
  ∧ Scene.OnSetCameraViewMode 0 (Scene.set_events [] SceneSamples.scene_loading)
    = Some (Scene.set_events [] SceneSamples.scene_loading, [SetCameraFromSceneData 0]).
Proof. vm_compute. auto 10. Qed.

(** ** The region of interest from the selection *)

Section ROIFacts.
Import ROI.

(** The difference of a finite [float] and itself is zero. *)
Lemma F32_sub_diag (a : F32.float) :
  F32.is_finite a = true → F32.sub a a = F32.zero.
Proof.
  destruct a as [s|s| |s m e]; cbn; try discriminate; intros _.
  - destruct s; reflexivity.
  - unfold F32.sub. cbn.
    match goal with
    | |- SpecFloat.binary_normalize _ _ (?v - ?v) _ _ = _ =>
        replace (v - v) with 0 by (generalize v; intros; lia)
    end.
    reflexivity.
Qed.

Lemma SFcompare_Eq_sym (a b : F32.float) :
  SpecFloat.SFcompare a b = Some Eq → SpecFloat.SFcompare b a = Some Eq.
Proof.
  destruct a as [s|s| |s m e], b as [s'|s'| |s' m' e']; cbn; try discriminate;
    try reflexivity;
    try (destruct s; discriminate); try (destruct s'; discriminate).
  - destruct s, s'; try discriminate; reflexivity.
  - fold (Pos.compare m m'). fold (Pos.compare m' m).
    rewrite (Z.compare_antisym e e'), (Pos.compare_antisym m m').
    destruct s, s'; try discriminate;
      destruct (e ?= e'); try discriminate; cbn;
      destruct (m ?= m')%positive; cbn; try discriminate; reflexivity.
Qed.

(** Of two values that compare equal neither is below the other. *)
Lemma F32_eqb_ltb (a b : F32.float) :
  F32.eqb a b = true → F32.ltb a b = false ∧ F32.ltb b a = false.
Proof.
  unfold F32.eqb, F32.ltb, SpecFloat.SFeqb, SpecFloat.SFltb.
  destruct (SpecFloat.SFcompare a b) as [[]|] eqn:Hc; try discriminate.
  intros _. rewrite (SFcompare_Eq_sym a b Hc). split; reflexivity.
Qed.

(** [0.03f] is the [float] next to 3/100. *)
Lemma c0_03_nearest : F32.div (F32.of_Z 3) (F32.of_Z 100) = F32.c0_03.
Proof. vm_compute. reflexivity. Qed.

(** A point that coincides with both corners leaves the box as it is. *)
Lemma AABB_Insert_coincide (p q : Point3f) :
  coincide p q = true → AABB_Insert (mkAABB3f p p) q = mkAABB3f p p.
Proof.
  destruct p as [px py pz], q as [qx qy qz]. unfold coincide. cbn.
  rewrite !andb_true_iff. intros [[Hx Hy] Hz].
  apply F32_eqb_ltb in Hx as [Hx1 Hx2].
  apply F32_eqb_ltb in Hy as [Hy1 Hy2].
  apply F32_eqb_ltb in Hz as [Hz1 Hz2].
  unfold AABB_Insert, F32.min, F32.max. cbn.
  now rewrite Hx1, Hx2, Hy1, Hy2, Hz1, Hz2.
Qed.

(** The tight box of points that all coincide with [p] has its two
    corners at [p]. *)
Lemma AABB_Set_coincide (p : Point3f) (rest : list Point3f) :
  Forall (fun q => coincide p q = true) rest → AABB_Set p rest = mkAABB3f p p.
Proof.
  unfold AABB_Set. induction 1 as [|q rest Hq _ IH]; [reflexivity|].
  cbn [fold_left]. now rewrite (AABB_Insert_coincide p q Hq).
Qed.

Variable OBB_fit : list Point3f → Z → OBB3f.

(** C6, as the code has it.  For selected geometry [p :: rest] the
    fitted box is enlarged on every side by the margin - its largest
    extent times [0.03f], one [float] product - and installed as the
    region of interest: the margin is added to every half-extent, the
    rotation and the centre are kept.  For the axis-aligned fit of
    selected geometry that coincides in one point with finite
    coordinates, one selected point for instance, the margin is zero and
    the installed box has size zero along every axis. *)
Theorem SetROIFromSelection_margin (aabb : bool) (s : Scene)
    (p : Point3f) (rest : list Point3f) :
  IsOpen s = true →
  hasSelection (selectionController s) = true →
  selected_cloud_points s ++ selected_face_vertices s = p :: rest →
  let box := fitted OBB_fit aabb p rest in
  let margin := F32.mul (maxCoeff (GetSize box)) F32.c0_03 in
  let roi := Enlarge margin box in
  SetROIFromSelection OBB_fit aabb s
    = (set_obb (Some roi) s, [UploadBounds; RequestRedraw])
  ∧ ext roi
    = mkPoint3f (F32.add (x (ext box)) margin) (F32.add (y (ext box)) margin)
        (F32.add (z (ext box)) margin)
  ∧ rot roi = rot box
  ∧ pos roi = pos box
  ∧ (aabb = true → finite p = true →
     Forall (fun q => coincide p q = true) rest →
       margin = F32.zero
       ∧ ext roi = mkPoint3f F32.zero F32.zero F32.zero
       ∧ GetSize roi = mkPoint3f F32.zero F32.zero F32.zero).
Proof.
  intros Hopen Hsel Hpts box margin roi.
  split; [|split; [|split; [|split]]]; try reflexivity.
  - unfold SetROIFromSelection. rewrite Hopen, Hsel, Hpts. reflexivity.
  - intros -> Hfin Hrest. subst roi margin box. unfold fitted.
    rewrite (AABB_Set_coincide p rest Hrest).
    destruct p as [px py pz]. unfold finite in Hfin. cbn in Hfin.
    rewrite !andb_true_iff in Hfin. destruct Hfin as [[Hx Hy] Hz].
    unfold OBB_Set, GetSize, Enlarge, maxCoeff. cbn.
    rewrite (F32_sub_diag px Hx), (F32_sub_diag py Hy), (F32_sub_diag pz Hz).
    split; [|split]; vm_compute; reflexivity.
Qed.

End ROIFacts.

Lemma SetROIFromSelection_margin_witness :
  ROI.SetROIFromSelection ROI.no_fit true ROI.scene_two_points
  = (ROI.set_obb
       (Some (ROI.Enlarge
                (F32.mul
                   (ROI.maxCoeff
                      (ROI.GetSize
                         (ROI.fitted ROI.no_fit true (ROI.point 0 0 0)
                            [ROI.point 10 4 2])))
                   F32.c0_03)
                (ROI.fitted ROI.no_fit true (ROI.point 0 0 0)
                   [ROI.point 10 4 2])))
       ROI.scene_two_points,
     [UploadBounds; RequestRedraw]).
Proof.
  apply (SetROIFromSelection_margin ROI.no_fit true ROI.scene_two_points
           (ROI.point 0 0 0) [ROI.point 10 4 2]); reflexivity.
Defined.

(** C6 as stated fails for one selected point: the installed box has
    size zero along every axis. *)
Lemma single_point_ROI_counterexample :
  ∃ roi,
    ROI.obb (fst (ROI.SetROIFromSelection ROI.no_fit true ROI.scene_one_point))
    = Some roi
    ∧ ROI.GetSize roi = ROI.mkPoint3f F32.zero F32.zero F32.zero
    ∧ ROI.ext roi = ROI.mkPoint3f F32.zero F32.zero F32.zero
    ∧ ROI.pos roi = ROI.point 1 2 3.
Proof.
  eexists. split; [reflexivity|]. vm_compute. auto.
Qed.

(** Two selected points at a distance: the tight box has the
    half-extents 5, 2 and 1, the margin is the [float] product of 10 and
    [0.03f], 0.29999998, and the installed half-extents are the [float]
    sums 5.30000019, 2.29999995 and 1.29999995. *)
Lemma two_points_ROI_sample :
  ∃ roi,
    ROI.obb (fst (ROI.SetROIFromSelection ROI.no_fit true ROI.scene_two_points))
    = Some roi
    ∧ ROI.pos roi = ROI.point 5 2 1
    ∧ ROI.x (ROI.ext roi) = SpecFloat.S754_finite false 11114906 (-21)
    ∧ ROI.y (ROI.ext roi) = SpecFloat.S754_finite false 9646899 (-22)
    ∧ ROI.z (ROI.ext roi) = SpecFloat.S754_finite false 10905190 (-23).
Proof.
  eexists. split; [reflexivity|]. vm_compute. auto.
Qed.

(** The margin is relative and can be rounded to zero: for two selected
    points at the distance [2^-148] the margin is zero, and the
    installed box is the tight box, of size zero along two axes. *)
Lemma tiny_ROI_sample :
  ∃ roi,
    ROI.obb (fst (ROI.SetROIFromSelection ROI.no_fit true ROI.scene_tiny))
    = Some roi
    ∧ ROI.GetSize roi
      = ROI.mkPoint3f (SpecFloat.S754_finite false 2 (-149)) F32.zero F32.zero.
Proof.
  eexists. split; [reflexivity|]. vm_compute. auto.
Qed.

(** ** The sub-scene of the images that see the selection *)

Section CropFacts.
Import Crop.


Lemma occ_nonneg (l : list Z) (i : Z) : 0 <= occ l i.
Proof. unfold occ. lia. Qed.

Lemma occ_app (l k : list Z) (i : Z) : occ (l ++ k) i = occ l i + occ k i.
Proof. unfold occ. rewrite filter_app, length_app. lia. Qed.

Lemma occ_singleton (v i : Z) : occ [v] i = if decide (v = i) then 1 else 0.
Proof.
  unfold occ. rewrite filter_cons, filter_nil. destruct (decide (v = i)); reflexivity.
Qed.

Lemma occ_le_length (l : list Z) (i : Z) : occ l i <= Z.of_nat (length l).
Proof. unfold occ. pose proof (length_filter (fun v => v = i) l). lia. Qed.

Lemma occ_pos_elem (l : list Z) (i : Z) : 0 < occ l i ↔ i ∈ l.
Proof.
  unfold occ. split.
  - intros Hpos. destruct (filter (fun v => v = i) l) as [|v k] eqn:Hf;
      [cbn in Hpos; lia|].
    assert (Hv : v ∈ filter (fun v => v = i) l) by (rewrite Hf; left).
    apply list_elem_of_filter in Hv as [-> Hin]. exact Hin.
  - intros Hin.
    assert (Hi : i ∈ filter (fun v => v = i) l)
      by (apply list_elem_of_filter; auto).
    destruct (filter (fun v => v = i) l); [inversion Hi|cbn; lia].
Qed.

Lemma counts_of_empty : counts_of [] ∅.
Proof. intros i. rewrite lookup_empty. reflexivity. Qed.

Lemma increment_counts (l : list Z) (m : gmap Z Z) (v : Z) :
  counts_of l m → counts_of (l ++ [v]) (increment m v).
Proof.
  intros Hm i. unfold increment. rewrite occ_app, occ_singleton.
  pose proof (occ_nonneg l i) as Hnn.
  destruct (decide (v = i)) as [->|Hne].
  - rewrite lookup_insert_eq. rewrite (Hm i).
    destruct (decide (occ l i + 1 = 0)) as [|_]; [lia|].
    f_equal. destruct (decide (occ l i = 0)) as [->|_]; cbn.
    + reflexivity.
    + rewrite Z.add_mod_idemp_l; [reflexivity|lia].
  - rewrite lookup_insert_ne by exact Hne. rewrite (Hm i), Z.add_0_r. reflexivity.
Qed.

Lemma count_views_counts (views l : list Z) (m : gmap Z Z) :
  counts_of l m → counts_of (l ++ views) (count_views m views).
Proof.
  revert l m. induction views as [|v views IH]; intros l m Hm; cbn.
  - now rewrite app_nil_r.
  - replace (l ++ v :: views) with ((l ++ [v]) ++ views)
      by (now rewrite <- app_assoc).
    apply IH, increment_counts, Hm.
Qed.

Lemma count_points_counts (pointViews : list (list Z)) (selected l : list Z)
    (m : gmap Z Z) :
  Forall (fun p => 0 <= p < Z.of_nat (length pointViews)) selected →
  counts_of l m →
  ∃ m', count_points pointViews selected m = Some m'
        ∧ counts_of (l ++ selected_views pointViews selected) m'.
Proof.
  intros Hsel. revert l m.
  induction Hsel as [|p selected Hp _ IH]; intros l m Hm; cbn.
  - exists m. now rewrite app_nil_r.
  - destruct (Z.leb_spec 0 p); [|lia]. destruct (Z.ltb_spec p (Z.of_nat (length pointViews))); [|lia].
    cbn. destruct (lookup_lt_is_Some_2 pointViews (Z.to_nat p)) as [views Hv]; [lia|].
    rewrite Hv. cbn [default].
    destruct (IH (l ++ views) (count_views m views)) as (m' & Hrun & Hm').
    { apply count_views_counts, Hm. }
    exists m'. split; [exact Hrun|]. now rewrite app_assoc.
Qed.

Lemma select_images_NoDup (minPoints : Z) (m : gmap Z Z) :
  NoDup (select_images minPoints m).
Proof.
  unfold select_images.
  eapply sublist_NoDup; [apply (NoDup_fst_map_to_list m)|].
  apply fmap_sublist, sublist_filter.
Qed.

Lemma elem_of_select_images (minPoints : Z) (m : gmap Z Z) (i : Z) :
  i ∈ select_images minPoints m ↔ ∃ c, m !! i = Some c ∧ minPoints <= c.
Proof.
  unfold select_images. rewrite list_elem_of_fmap. split.
  - intros ([j c] & -> & Hin). apply list_elem_of_filter in Hin as [Hc Hin].
    apply elem_of_map_to_list in Hin. exists c. auto.
  - intros (c & Hc & Hmin). exists (i, c). split; [reflexivity|].
    apply list_elem_of_filter. split; [exact Hmin|].
    now apply elem_of_map_to_list.
Qed.

(** Under [well_formed], the images picked by the code are the images of
    the scene that see a selected point and reach [minPoints]. *)
Lemma select_images_seeing (pointViews : list (list Z)) (nImages : Z)
    (selected : list Z) (minPoints : Z) (m : gmap Z Z) :
  well_formed pointViews nImages selected →
  counts_of (selected_views pointViews selected) m →
  select_images minPoints m ≡ₚ seeing pointViews nImages selected minPoints.
Proof.
  intros (Hviews & Hsel & Hwrap) Hm.
  apply NoDup_Permutation.
  - apply select_images_NoDup.
  - apply NoDup_filter, NoDup_seqZ.
  - intros i. rewrite elem_of_select_images. unfold seeing.
    rewrite list_elem_of_filter, elem_of_seqZ.
    fold (occ (selected_views pointViews selected) i).
    change (observed pointViews selected i)
      with (occ (selected_views pointViews selected) i).
    pose proof (occ_nonneg (selected_views pointViews selected) i) as Hnn.
    pose proof (occ_le_length (selected_views pointViews selected) i) as Hle.
    rewrite (Hm i).
    destruct (decide (occ (selected_views pointViews selected) i = 0)) as [Hz|Hnz].
    + split; [intros (c & [=] & _)|intros ((H1 & _) & _); lia].
    + rewrite Z.mod_small by lia. split.
      * intros (c & [= <-] & Hmin). split; [lia|].
        assert (Hin : i ∈ selected_views pointViews selected)
          by (apply occ_pos_elem; lia).
        unfold selected_views in Hin.
        apply list_elem_of_In, in_flat_map in Hin as (p & _ & Hin).
        apply list_elem_of_In in Hin.
        destruct (pointViews !! Z.to_nat p) as [views|] eqn:Hp;
          cbn [default] in Hin; [|inversion Hin].
        rewrite Forall_forall in Hviews.
        assert (Hvs : views ∈ pointViews) by (eapply list_elem_of_lookup_2; eauto).
        specialize (Hviews views Hvs). rewrite Forall_forall in Hviews.
        specialize (Hviews i Hin). lia.
      * intros ((H1 & Hmin) & _). eauto.
Qed.

(** C2, as the code has it.  On a valid scene with a well-formed point
    cloud and selection, [CropToPoints] counts for every image how many
    times it occurs in the view lists of the selected points; the images
    that qualify are those that occur at least once and at least
    [minPoints] times.  The result is the empty scene exactly when fewer
    than two images qualify or all images of the scene do, and otherwise
    the sub-scene of exactly the qualifying images. *)
Theorem CropToPoints_spec (pointViews : list (list Z)) (nImages : Z)
    (selected : list Z) (minPoints : Z) :
  well_formed pointViews nImages selected →
  let qualifying := seeing pointViews nImages selected minPoints in
  ∃ r, CropToPoints true pointViews nImages selected minPoints = Some r
    ∧ (r = EmptyScene ↔
         (length qualifying < 2)%nat ∨ Z.of_nat (length qualifying) = nImages)
    ∧ (∀ l, r = SubScene l → l ≡ₚ qualifying).
Proof.
  intros Hwf qualifying.
  pose proof Hwf as (_ & Hsel & _).
  destruct (count_points_counts pointViews selected [] ∅ Hsel counts_of_empty)
    as (m & Hrun & Hm).
  cbn [app] in Hm.
  pose proof (select_images_seeing pointViews nImages selected minPoints m Hwf Hm)
    as Hperm.
  fold qualifying in Hperm.
  pose proof (Permutation_length Hperm) as Hlen.
  unfold CropToPoints. cbn [negb]. rewrite Hrun. cbn zeta. rewrite Hlen.
  destruct (Z.ltb_spec (Z.of_nat (length qualifying)) 2) as [Hlt|Hge].
  - exists EmptyScene. split; [reflexivity|]. split; [|discriminate].
    split; [intros _; left; lia|reflexivity].
  - destruct (Z.eqb_spec (Z.of_nat (length qualifying)) nImages) as [Heq|Hneq].
    + exists EmptyScene. split; [reflexivity|]. split; [|discriminate].
      split; [intros _; right; exact Heq|reflexivity].
    + eexists. split; [reflexivity|]. split.
      * split; [discriminate|]. intros [Hlt|Heq]; [lia|contradiction].
      * intros l [= <-]. exact Hperm.
Qed.

(** From one point on, the qualifying images are the images whose count
    reaches [minPoints], as the claim has it. *)
Lemma seeing_reaching (pointViews : list (list Z)) (nImages : Z)
    (selected : list Z) (minPoints : Z) :
  1 <= minPoints →
  seeing pointViews nImages selected minPoints
  = reaching pointViews nImages selected minPoints.
Proof.
  intros Hmin. unfold seeing, reaching. apply list_filter_iff.
  intros i. lia.
Qed.

(** An invalid scene gives the empty scene. *)
Lemma CropToPoints_invalid (pointViews : list (list Z)) (nImages : Z)
    (selected : list Z) (minPoints : Z) :
  CropToPoints false pointViews nImages selected minPoints = Some EmptyScene.
Proof. reflexivity. Qed.

End CropFacts.

Lemma CropToPoints_spec_witness :
  ∃ l, Crop.CropToPoints true [[0; 3]; [0; 3]; [1]] 5 [0; 1; 2] 2
       = Some (Crop.SubScene l)
       ∧ l ≡ₚ [0; 3].
Proof.
  destruct (CropToPoints_spec [[0; 3]; [0; 3]; [1]] 5 [0; 1; 2] 2)
    as (r & Hrun & Hempty & Hsub).
  - split; [|split].
    + repeat (constructor; try lia).
    + repeat (constructor; try (cbn; lia)).
    + vm_compute. reflexivity.
  - destruct r as [|l].
    + exfalso. destruct (proj1 Hempty eq_refl) as [Hlt|Heq].
      * vm_compute in Hlt. lia.
      * vm_compute in Heq. discriminate.
    + exists l. split; [exact Hrun|]. apply (Hsub l eq_refl).
Defined.

(** C2 as stated fails for [minPoints = 0]: of three images two see the
    selected point; every image has a count of at least 0, so that all the
    images of the scene reach it, and yet the result is the sub-scene of
    the two images that see the point. *)
Lemma CropToPoints_counterexample :
  Crop.reaching [[0; 1]] 3 [0] 0 = [0; 1; 2]
  ∧ ∃ l, Crop.CropToPoints true [[0; 1]] 3 [0] 0 = Some (Crop.SubScene l)
         ∧ l ≡ₚ [0; 1].
Proof.
  split; [reflexivity|].
  eexists. split; [vm_compute; reflexivity|].
  first [reflexivity | apply perm_swap].
Qed.

(** One image alone reaching [minPoints] gives the empty scene. *)
Lemma CropToPoints_one_image_sample :
  Crop.CropToPoints true [[0; 3]; [0]; [1]] 5 [0; 1; 2] 2 = Some Crop.EmptyScene.
Proof. vm_compute. reflexivity. Qed.

(* ================================================================== *)
(** * Further properties *)

(** ** The image slot *)

(** X1. The buffer that [AssignImage] stores has the height of the
    decoded image and, as width, the largest multiple of 4 that is not
    above its width; everything else of the viewer image is kept. *)
Theorem AssignImage_width (img : Image.Mat) (im im' : Image.Image) :
  0 <= Image.cols img →
  Image.AssignImage img im = Some im' →
  ∃ m, Image.pImage im' = Image.IMG_PTR m
       ∧ Image.cols m mod 4 = 0
       ∧ Image.cols m <= Image.cols img < Image.cols m + 4
       ∧ Image.rows m = Image.rows img
       ∧ Image.idx im' = Image.idx im
       ∧ Image.texture im' = Image.texture im.
Proof.
  intros Hc. unfold Image.AssignImage.
  destruct (Image.IsImageLoading im); [|discriminate].
  destruct (Image.fit_width img) as [m|] eqn:Hfit; [|discriminate].
  intros [= <-]. exists m. cbn.
  split; [reflexivity|]. revert Hfit. unfold Image.fit_width, Image.resize.
  rewrite Z.rem_mod_nonneg, Z.quot_div_nonneg by lia.
  pose proof (Z.mod_pos_bound (Image.cols img) 4 ltac:(lia)) as Hb.
  pose proof (Z.div_mod (Image.cols img) 4 ltac:(lia)) as Hd.
  destruct (Z.eqb_spec (Image.cols img mod 4) 0) as [Hz|Hnz]; cbn.
  - intros [= <-]. repeat split; auto; lia.
  - destruct (_ || _); [discriminate|]. intros [= <-]. cbn.
    rewrite Z.mod_mul by lia. repeat split; auto; lia.
Qed.

Lemma AssignImage_width_witness :
  ∃ m, Image.pImage (Image.mkImage 3 0 0 0
                       (Image.IMG_PTR (Image.mkMat 1020 768)))
       = Image.IMG_PTR m
       ∧ Image.cols m mod 4 = 0
       ∧ Image.cols m <= 1023 < Image.cols m + 4.
Proof.
  destruct (AssignImage_width (Image.mkMat 1023 768)
              (Image.mkImage 3 0 0 0 Image.IMG_LOADING)
              (Image.mkImage 3 0 0 0
                 (Image.IMG_PTR (Image.mkMat 1020 768))))
    as (m & Hm & H4 & Hle & _).
  - cbn. lia.
  - reflexivity.
  - exists m. auto.
Defined.

(** X2. One load of an image whose slot is EMPTY.  Marking it as
    loading succeeds, and a transfer on the LOADING slot returns false and
    changes nothing.  A decoded image of width 1, 2 or 3 cannot be
    assigned: [cv::resize] is asked for the width 0.  A decoded image
    whose width is a multiple of 4, or at least 4 with a positive height,
    is assigned and then transferred; the image then has the new texture,
    the size of the stored buffer - the width cut down to a multiple of
    4 - and an EMPTY slot again, and a second assignment of the READY
    slot fails. *)
Theorem image_load_cycle (im : Image.Image) (img : Image.Mat) (tex : Z) :
  Image.IsImageEmpty im = true →
  ∃ loading,
    Image.SetImageLoading im = Some loading
    ∧ Image.TransferImage tex loading = (false, loading)
    ∧ (0 < Image.cols img < 4 → Image.AssignImage img loading = None)
    ∧ (Z.rem (Image.cols img) 4 = 0
       ∨ (4 <= Image.cols img ∧ 0 < Image.rows img) →
       ∃ ready,
         Image.AssignImage img loading = Some ready
         ∧ Image.TransferImage tex ready
           = (true, Image.mkImage (Image.idx im) tex
                      (Z.quot (Image.cols img) 4 * 4) (Image.rows img)
                      Image.IMG_NULL)
         ∧ Image.AssignImage img ready = None).
Proof.
  intros He. unfold Image.SetImageLoading. rewrite He.
  eexists. split; [reflexivity|]. split; [reflexivity|]. split.
  - intros Hc. unfold Image.AssignImage. cbn.
    now rewrite (fit_width_None img Hc).
  - intros Hm. unfold Image.AssignImage. cbn.
    rewrite (fit_width_Some img Hm). eexists. split; [reflexivity|].
    split; reflexivity.
Qed.

Lemma image_load_cycle_witness :
  ∃ loading,
    Image.SetImageLoading (Image.new 3) = Some loading
    ∧ Image.AssignImage (Image.mkMat 3 768) loading = None
    ∧ ∃ ready,
        Image.AssignImage (Image.mkMat 1023 768) loading = Some ready
        ∧ Image.TransferImage 7 ready
          = (true, Image.mkImage 3 7 1020 768 Image.IMG_NULL).
Proof.
  destruct (image_load_cycle (Image.new 3) (Image.mkMat 1023 768) 7 eq_refl)
    as (loading & H1 & _ & _ & H4).
  destruct H4 as (ready & H2 & H3 & _); [right; cbn; lia|].
  exists loading. split; [exact H1|]. split.
  - cbn in H1. injection H1 as <-. reflexivity.
  - exists ready. split; [exact H2|exact H3].
Defined.

(** X3. [Release] leaves neither a texture nor a buffer and is
    idempotent, and so is [ReleaseImage]; neither of them takes a slot out
    of LOADING, so that the [AssignImage] of a load that is under way
    does on a released image what it does on any LOADING slot: it stores
    the buffer, unless [cv::resize] rejects the width. *)
Theorem Release_keeps_loading (im : Image.Image) :
  Image.IsValid (Image.Release im) = false
  ∧ Image.IsImageValid (Image.Release im) = false
  ∧ Image.Release (Image.Release im) = Image.Release im
  ∧ Image.ReleaseImage (Image.ReleaseImage im) = Image.ReleaseImage im
  ∧ Image.IsImageLoading (Image.Release im) = Image.IsImageLoading im
  ∧ Image.IsImageLoading (Image.ReleaseImage im) = Image.IsImageLoading im
  ∧ ∀ img, Image.IsImageLoading im = true →
      Image.AssignImage img (Image.Release im)
      = match Image.fit_width img with
        | Some m => Some (Image.set_pImage (Image.IMG_PTR m) (Image.Release im))
        | None => None
        end.
Proof.
  destruct im as [i t w h p]. unfold Image.Release, Image.IsValid. cbn.
  destruct (Z.ltb_spec 0 t); destruct p; cbn;
    repeat match goal with
           | |- context [0 <? ?x] => destruct (Z.ltb_spec 0 x); try lia
           end;
    cbn; repeat split; intros; try discriminate; reflexivity.
Qed.

(** ** MVS index and viewer index *)

Section ImageIdxMore.
Import ImageIdx.

(** X4. Whatever the order of the viewer images, [ImageIdxMVS2Viewer]
    returns [NO_ID] or a position of the list that holds the MVS index
    asked for; it never returns a position of another image. *)
Theorem ImageIdxMVS2Viewer_sound (images : list Image.Image) (idx : Z) :
  ImageIdxMVS2Viewer images idx = NO_ID
  ∨ ∃ (i : nat) im,
      ImageIdxMVS2Viewer images idx = Z.of_nat i
      ∧ images !! i = Some im ∧ Image.idx im = idx.
Proof.
  unfold ImageIdxMVS2Viewer.
  generalize (Z.to_nat (MINF (IIndex_wrap (idx + 1)) (Z.of_nat (length images)))).
  intros n. induction n as [|n IH]; [now left|].
  cbn [search_backwards].
  destruct (images !! n) as [im|] eqn:Him; [|exact IH].
  destruct (Z.eqb_spec (Image.idx im) idx) as [He|_]; [|exact IH].
  right. exists n, im. auto.
Qed.

(** The position of an image under the invariant of the list. *)
Lemma ImageIdxMVS2Viewer_position (images : list Image.Image) (i : nat) im :
  increasing images → images !! i = Some im →
  ImageIdxMVS2Viewer images (Image.idx im) = Z.of_nat i.
Proof.
  intros Hinc Him. unfold ImageIdxMVS2Viewer.
  pose proof (increasing_ge images i im Hinc Him) as Hge.
  pose proof (lookup_lt_Some _ _ _ Him) as Hlen.
  destruct Hinc as [Hrng Hlt]. pose proof (Hrng i im Him) as Hr.
  assert (Hw : IIndex_wrap (Image.idx im + 1) = Image.idx im + 1).
  { unfold IIndex_wrap. apply Z.mod_small. unfold NO_ID in *. lia. }
  rewrite Hw. apply search_backwards_found with (a := im); auto.
  - unfold MINF.
    destruct (Z.ltb_spec (Image.idx im + 1) (Z.of_nat (length images))); lia.
  - intros j b [Hij _] Hb Hbe. specialize (Hlt i j im b Him Hb Hij). lia.
Qed.

(** The viewer images that [Open] makes of the MVS images [l], numbered
    from [k] on. *)
Lemma lookup_init_images (l : list MVSImage) :
  ∀ (k : Z) (i : nat) im,
  Scene.init_images k l !! i = Some im →
  ∃ j : nat, im = Image.new (k + Z.of_nat j)
             ∧ (∃ d, l !! j = Some d ∧ MVSImage_IsValid d = true)
             ∧ (i <= j)%nat
             ∧ ∀ (i' : nat) im', (i < i')%nat →
                 Scene.init_images k l !! i' = Some im' →
                 k + Z.of_nat j < Image.idx im'.
Proof.
  induction l as [|d l IH]; intros k i im Him; [discriminate|].
  cbn [Scene.init_images] in *.
  destruct (MVSImage_IsValid d) eqn:Hd.
  - destruct i as [|i].
    + injection Him as <-. exists 0%nat. rewrite Z.add_0_r.
      split; [reflexivity|]. split; [exists d; auto|]. split; [lia|].
      intros [|i'] im' Hlt Him'; [lia|]. cbn in Him'.
      destruct (IH (k + 1) i' im' Him') as (j & -> & _). cbn. lia.
    + cbn in Him. destruct (IH (k + 1) i im Him) as (j & -> & Hv & Hij & Hgt).
      exists (S j). split; [f_equal; lia|]. split; [exact Hv|]. split; [lia|].
      intros [|i'] im' Hlt Him'; [lia|]. cbn in Him'.
      specialize (Hgt i' im' ltac:(lia) Him'). lia.
  - destruct (IH (k + 1) i im Him) as (j & -> & Hv & Hij & Hgt).
    exists (S j). split; [f_equal; lia|]. split; [exact Hv|]. split; [lia|].
    intros i' im' Hlt Him'. specialize (Hgt i' im' Hlt Him'). lia.
Qed.

Lemma init_images_valid (l : list MVSImage) :
  ∀ (k : Z) (j : nat) d, l !! j = Some d → MVSImage_IsValid d = true →
  ∃ i : nat, Scene.init_images k l !! i = Some (Image.new (k + Z.of_nat j)).
Proof.
  induction l as [|d0 l IH]; intros k j d Hj Hd; [discriminate|].
  cbn [Scene.init_images]. destruct j as [|j].
  - injection Hj as ->. rewrite Hd, Z.add_0_r. now exists 0%nat.
  - cbn in Hj. destruct (IH (k + 1) j d Hj Hd) as (i & Hi).
    replace (k + Z.of_nat (S j)) with (k + 1 + Z.of_nat j) by lia.
    destruct (MVSImage_IsValid d0); [exists (S i)|exists i]; exact Hi.
Qed.

Lemma init_images_increasing (l : list MVSImage) :
  Z.of_nat (length l) <= NO_ID → increasing (Scene.init_images 0 l).
Proof.
  intros Hlen. split.
  - intros i a Ha.
    destruct (lookup_init_images l 0 i a Ha) as (j & -> & (d & Hd & _) & _).
    apply lookup_lt_Some in Hd. cbn. lia.
  - intros i j a b Ha Hb Hij.
    destruct (lookup_init_images l 0 i a Ha) as (ja & -> & _ & _ & Hgt).
    specialize (Hgt j b Hij Hb). cbn in *. lia.
Qed.

End ImageIdxMore.

Section OpenImages.
Context {PointCloud Mesh OBB : Type} `{MVSOps PointCloud Mesh OBB}.
Import Scene.

(** X5. After [Open] the viewer images are the valid MVS images in
    increasing order, and [ImageIdxMVS2Viewer] is the inverse of
    [images[i].idx]: it takes the MVS index of the viewer image at
    position [i] back to [i], finds every valid MVS image, and answers
    [NO_ID] for an MVS image that is not valid or does not exist. *)
Theorem Open_ImageIdxMVS2Viewer (m : Scene.MVSScene PointCloud Mesh OBB)
    (s : Scene.Scene PointCloud Mesh OBB) :
  Z.of_nat (length (scene_images m)) <= NO_ID →
  let viewer := images (snd (fst (Open (Some m) s))) in
  ImageIdx.increasing viewer
  ∧ (∀ (i : nat) im, viewer !! i = Some im →
       ImageIdx.ImageIdxMVS2Viewer viewer (Image.idx im) = Z.of_nat i)
  ∧ (∀ (k : nat) d, scene_images m !! k = Some d → MVSImage_IsValid d = true →
       ∃ i : nat, ImageIdx.ImageIdxMVS2Viewer viewer (Z.of_nat k) = Z.of_nat i
                  ∧ viewer !! i = Some (Image.new (Z.of_nat k)))
  ∧ (∀ k : Z, 0 <= k →
       (∀ d, scene_images m !! Z.to_nat k = Some d → MVSImage_IsValid d = false) →
       ImageIdx.ImageIdxMVS2Viewer viewer k = NO_ID).
Proof.
  intros Hlen viewer.
  assert (Hv : viewer = init_images 0 (scene_images m)).
  { subst viewer. unfold Open. reflexivity. }
  rewrite Hv. clear Hv viewer.
  pose proof (init_images_increasing (scene_images m) Hlen) as Hinc.
  split; [exact Hinc|]. split; [|split].
  - intros i im Him. now apply ImageIdxMVS2Viewer_position.
  - intros k d Hk Hd.
    destruct (init_images_valid (scene_images m) 0 k d Hk Hd) as (i & Hi).
    rewrite Z.add_0_l in Hi. exists i. split; [|exact Hi].
    apply (ImageIdxMVS2Viewer_position _ i (Image.new (Z.of_nat k)) Hinc Hi).
  - intros k Hk Hinv. unfold ImageIdx.ImageIdxMVS2Viewer.
    apply search_backwards_none. intros i im _ Him Hidx.
    destruct (lookup_init_images _ 0 i im Him) as (j & -> & (d & Hd & Hval) & _).
    cbn in Hidx. subst k. rewrite Z.add_0_l, Nat2Z.id in Hinv.
    rewrite (Hinv d Hd) in Hval. discriminate.
Qed.

End OpenImages.

Lemma Open_ImageIdxMVS2Viewer_witness :
  ImageIdx.ImageIdxMVS2Viewer
    (Scene.images
       (snd (fst (Scene.Open
                    (Some (Scene.mkMVSScene [10; 20] ([], [])
                             [mkMVSImage true None; mkMVSImage false None;
                              mkMVSImage true None] None))
                    SceneSamples.scene_points))))
    1
  = NO_ID.
Proof.
  apply (Open_ImageIdxMVS2Viewer
           (Scene.mkMVSScene [10; 20] ([], [])
              [mkMVSImage true None; mkMVSImage false None; mkMVSImage true None]
              None)
           SceneSamples.scene_points).
  - cbn. unfold NO_ID. lia.
  - lia.
  - intros d. cbn. intros [= <-]. reflexivity.
Defined.

(** X6. A click on the row of a neighbour in the camera dialog, for a
    viewer list in increasing order that holds the neighbour at position
    [i]: with nothing selected the click selects position [i]; a second
    click deselects it only when the position equals the MVS index, and
    otherwise selects it again. *)
Theorem click_neighbor_toggle (images : list Image.Image) (i : nat) im :
  ImageIdx.increasing images →
  images !! i = Some im →
  UI.click_neighbor images NO_ID (Image.idx im) = Z.of_nat i
  ∧ UI.click_neighbor images (Z.of_nat i) (Image.idx im)
    = (if Z.of_nat i =? Image.idx im then NO_ID else Z.of_nat i).
Proof.
  intros Hinc Him. unfold UI.click_neighbor.
  pose proof (proj1 Hinc i im Him) as Hr.
  rewrite (ImageIdxMVS2Viewer_position images i im Hinc Him).
  destruct (Z.eqb_spec NO_ID (Image.idx im)); [lia|].
  split; reflexivity.
Qed.

Lemma click_neighbor_toggle_witness :
  UI.click_neighbor [Image.new 0; Image.new 2; Image.new 5] NO_ID 5 = 2
  ∧ UI.click_neighbor [Image.new 0; Image.new 2; Image.new 5] 2 5 = 2.
Proof.
  apply (click_neighbor_toggle [Image.new 0; Image.new 2; Image.new 5] 2
           (Image.new 5)).
  - split.
    + intros [|[|[|i]]] a; cbn; intros [= <-]; cbn; unfold NO_ID; lia.
    + intros [|[|[|i]]] [|[|[|j]]] a b; cbn;
        try (intros [= <-] [= <-]); try discriminate; cbn; lia.
  - reflexivity.
Defined.

(** ** The worker loop and the rebuild of the octrees *)

Section WorkerFacts.
Context {PointCloud Mesh OBB : Type} `{MVSOps PointCloud Mesh OBB}.
Import Scene.

Local Abbreviation Scene := (Scene.Scene PointCloud Mesh OBB).
Local Abbreviation MVSScene := (Scene.MVSScene PointCloud Mesh OBB).

Variable ReloadImage : Z → Z → option Image.Mat.









(** X9. A second [RemoveSelectedGeometry] does nothing: the first one,
    when it removed something, has cleared the Selection Set. *)
Theorem RemoveSelectedGeometry_twice (s : Scene) :
  hasSelection (selectionController s) = true →
  removes_points s || removes_faces s = true →
  RemoveSelectedGeometry (fst (RemoveSelectedGeometry s))
  = (fst (RemoveSelectedGeometry s), []).
Proof.
  intros Hsel Hdirty.
  destruct (RemoveSelectedGeometry_selected s Hsel) as (_ & _ & Hd & _).
  destruct (Hd Hdirty) as (Hc & _).
  unfold RemoveSelectedGeometry at 1. now rewrite Hc.
Qed.


End WorkerFacts.



Lemma RemoveSelectedGeometry_twice_witness :
  Scene.RemoveSelectedGeometry
    (fst (Scene.RemoveSelectedGeometry SceneSamples.scene_one_selected))
  = (fst (Scene.RemoveSelectedGeometry SceneSamples.scene_one_selected), []).
Proof.
  apply (RemoveSelectedGeometry_twice SceneSamples.scene_one_selected);
    reflexivity.
Defined.


(** ** Camera-view mode and the load of its image *)

Section CameraViewFacts.
Context {PointCloud Mesh OBB : Type} `{MVSOps PointCloud Mesh OBB}.
Import Scene.

Local Abbreviation Scene := (Scene.Scene PointCloud Mesh OBB).

(** X11. Asking twice for camera-view mode on a camera is asking once:
    the second call changes nothing, and in particular queues no second
    load job while the first is pending.  One call adds at most the one
    load job of that camera to the tail of the queue. *)
Theorem OnSetCameraViewMode_twice (camID : Z) (s s1 : Scene) (e : list Effect) :
  OnSetCameraViewMode camID s = Some (s1, e) →
  OnSetCameraViewMode camID s1 = Some (s1, e)
  ∧ (events s1 = events s
     ∨ events s1 = events s ++ [EVTLoadImage camID IMAGE_MAX_RESOLUTION])
  ∧ scene s1 = scene s
  ∧ length (images s1) = length (images s).
Proof.
  unfold OnSetCameraViewMode.
  destruct (negb (IsOpen s) || (Z.of_nat (length (images s)) <=? camID)) eqn:Hg.
  { intros [= <- <-]. rewrite Hg. auto. }
  destruct (images s !! Z.to_nat camID) as [image|] eqn:Him; [|discriminate].
  destruct (negb (Image.IsValid image) && negb (Image.IsImageLoading image)) eqn:Hc.
  - unfold Image.SetImageLoading.
    destruct (Image.IsImageEmpty image) eqn:Hem; [|discriminate].
    intros [= <- <-].
    pose proof (lookup_lt_Some _ _ _ Him) as Hlt.
    assert (Hopen : IsOpen (AddEvent (EVTLoadImage camID IMAGE_MAX_RESOLUTION)
                      (set_images (<[Z.to_nat camID :=
                          Image.set_pImage Image.IMG_LOADING image]> (images s)) s))
                    = IsOpen s) by reflexivity.
    rewrite Hopen. cbn [images AddEvent set_events set_images].
    rewrite length_insert, Hg, list_lookup_insert_eq by exact Hlt.
    assert (Hl : Image.IsImageLoading (Image.set_pImage Image.IMG_LOADING image)
                 = true) by reflexivity.
    rewrite Hl, andb_false_r. cbn. auto.
  - intros [= <- <-]. rewrite Hg, Him, Hc. auto.
Qed.

(** X12. One load from the request to the upload.  For a camera of an
    open scene with an empty queue, whose image has neither texture nor
    buffer, and whose decoding succeeds with an image that [cv::resize]
    accepts (a width that is a multiple of 4, or at least 4 with a
    positive height): [OnSetCameraViewMode] queues the load job; the
    worker runs it and leaves the decoded image, its width cut to a
    multiple of 4, in the slot of that camera, the copy held by the MVS
    image released and the queue empty; [TransferImage] then gives the
    image its texture and empties the slot. *)
Theorem load_image_end_to_end (ReloadImage : Z → Z → option Image.Mat)
    (camID tex : Z) (s : Scene) image data m :
  0 <= camID →
  IsOpen s = true →
  events s = [] →
  images s !! Z.to_nat camID = Some image →
  Image.IsValid image = false →
  Image.IsImageEmpty image = true →
  Image.idx image ≠ NO_ID →
  scene_images (scene s) !! Z.to_nat (Image.idx image) = Some data →
  MVSImage_IsValid data = true →
  MVSImage_image data = None →
  ReloadImage (Image.idx image) IMAGE_MAX_RESOLUTION = Some m →
  Z.rem (Image.cols m) 4 = 0 ∨ (4 <= Image.cols m ∧ 0 < Image.rows m) →
  ∃ s1 s2 ready,
    OnSetCameraViewMode camID s = Some (s1, [SetCameraFromSceneData (Image.idx image)])
    ∧ events s1 = [EVTLoadImage camID IMAGE_MAX_RESOLUTION]
    ∧ ThreadWorker ReloadImage s1 = Some (Waiting, s2)
    ∧ events s2 = []
    ∧ images s2 !! Z.to_nat camID = Some ready
    ∧ Image.pImage ready
      = Image.IMG_PTR (Image.mkMat (Z.quot (Image.cols m) 4 * 4) (Image.rows m))
    ∧ scene_images (scene s2) !! Z.to_nat (Image.idx image)
      = Some (mkMVSImage true None)
    ∧ Image.TransferImage tex ready
      = (true, Image.mkImage (Image.idx image) tex
                 (Z.quot (Image.cols m) 4 * 4) (Image.rows m) Image.IMG_NULL).
Proof.
  intros Hcam Hopen Hq Him Hval Hem Hid Hdata Hdv Hdi Hdec Hm.
  pose proof (lookup_lt_Some _ _ _ Him) as Hlt.
  pose proof (lookup_lt_Some _ _ _ Hdata) as Hdlt.
  assert (Hload : Image.IsImageLoading image = false).
  { unfold Image.IsImageEmpty, Image.IsImageLoading in *.
    destruct (Image.pImage image); congruence. }
  unfold OnSetCameraViewMode. rewrite Hopen. cbn [negb orb].
  destruct (Z.leb_spec (Z.of_nat (length (images s))) camID) as [Hge|_]; [lia|].
  rewrite Him, Hval, Hload. cbn [negb andb].
  unfold Image.SetImageLoading. rewrite Hem.
  eexists. eexists. eexists. split; [reflexivity|].
  unfold ThreadWorker, AddEvent. cbn [events set_events set_images].
  rewrite Hq. cbn [app worker_loop].
  split; [reflexivity|].
  unfold EVTLoadImage_Run. cbn [images set_events set_images scene].
  rewrite list_lookup_insert_eq by exact Hlt.
  cbn [Image.idx Image.set_pImage].
  apply Z.eqb_neq in Hid. rewrite Hid, Hdata, Hdv, Hdi, Hdec. cbn.
  unfold Image.AssignImage. cbn. rewrite (fit_width_Some m Hm). cbn.
  split; [reflexivity|]. split; [reflexivity|].
  cbn [images scene scene_images set_events set_scene set_images
       set_scene_images].
  rewrite !list_lookup_insert_eq by (rewrite ?length_insert; assumption).
  split; [reflexivity|]. split; [reflexivity|].
  split; reflexivity.
Qed.

(** X13. An image that has been decoded and is not yet uploaded (its
    slot holds the buffer, it has no texture): asking for camera-view mode
    on its camera runs into the [ASSERT] of [SetImageLoading]. *)
Theorem OnSetCameraViewMode_before_upload (camID : Z) (s : Scene) image :
  0 <= camID →
  IsOpen s = true →
  images s !! Z.to_nat camID = Some image →
  Image.IsValid image = false →
  Image.IsImageValid image = true →
  OnSetCameraViewMode camID s = None.
Proof.
  intros Hcam Hopen Him Hval Hbuf.
  pose proof (lookup_lt_Some _ _ _ Him) as Hlt.
  unfold OnSetCameraViewMode. rewrite Hopen. cbn [negb orb].
  destruct (Z.leb_spec (Z.of_nat (length (images s))) camID) as [Hge|_]; [lia|].
  rewrite Him, Hval. unfold Image.IsImageLoading, Image.SetImageLoading,
    Image.IsImageEmpty, Image.IsImageValid in *.
  destruct (Image.pImage image); try discriminate. reflexivity.
Qed.

End CameraViewFacts.

Lemma OnSetCameraViewMode_twice_witness :
  Scene.OnSetCameraViewMode 0 SceneSamples.scene_loading
  = Some (SceneSamples.scene_loading, [SetCameraFromSceneData 0]).
Proof.
  apply (OnSetCameraViewMode_twice (H := SceneSamples.SampleMVS) 0
           SceneSamples.scene_points SceneSamples.scene_loading
           [SetCameraFromSceneData 0]).
  reflexivity.
Defined.

Lemma load_image_end_to_end_witness :
  ∃ s1 s2 ready,
    Scene.OnSetCameraViewMode 0 SceneSamples.scene_points
    = Some (s1, [SetCameraFromSceneData 0])
    ∧ Scene.ThreadWorker (fun _ _ => Some (Image.mkMat 1023 768)) s1
      = Some (Scene.Waiting, s2)
    ∧ Scene.images s2 !! 0%nat = Some ready
    ∧ Image.TransferImage 7 ready
      = (true, Image.mkImage 0 7 1020 768 Image.IMG_NULL).
Proof.
  destruct (load_image_end_to_end (H := SceneSamples.SampleMVS)
              (fun _ _ => Some (Image.mkMat 1023 768)) 0 7
              SceneSamples.scene_points (Image.new 0) (mkMVSImage true None)
              (Image.mkMat 1023 768))
    as (s1 & s2 & ready & H1 & _ & H2 & _ & H3 & _ & _ & H4);
    try reflexivity; try lia; try discriminate; [right; cbn; lia|].
  exists s1, s2, ready. auto.
Defined.

Lemma OnSetCameraViewMode_before_upload_witness :
  Scene.OnSetCameraViewMode 0
    (Scene.set_images
       [Image.mkImage 0 0 0 0 (Image.IMG_PTR (Image.mkMat 1020 768))]
       SceneSamples.scene_points)
  = None.
Proof.
  apply (OnSetCameraViewMode_before_upload (H := SceneSamples.SampleMVS) 0
           (Scene.set_images
              [Image.mkImage 0 0 0 0 (Image.IMG_PTR (Image.mkMat 1020 768))]
              SceneSamples.scene_points)
           (Image.mkImage 0 0 0 0 (Image.IMG_PTR (Image.mkMat 1020 768))));
    try reflexivity; lia.
Defined.

(** ** More on the pick resolver *)

Section ResolveFacts.
Context {REAL : Type} `{RealOps REAL} {Point3f : Type}.
Import Pick.

Local Abbreviation Cast := (Pick.Cast REAL Point3f).
Local Abbreviation Window := (Pick.Window REAL Point3f).
Local Abbreviation Tentative := (Pick.Tentative REAL Point3f).

(** The kind of the tentative selection after each step. *)
Lemma pick_mesh_type (c : Cast) (w : Window) (t : Tentative) :
  pick_mesh c w t = t
  ∨ (showMesh w = true ∧ octMeshIsEmpty c = false
     ∧ ∃ pick, IntersectRayMesh c = Some pick
         ∧ pick_mesh c w t
           = mkTentative SEL_TRIANGLE (pick_dist pick) (pick_idx pick)
               (mkPoints4 (faceVertex c (pick_idx pick) 0)
                  (faceVertex c (pick_idx pick) 1)
                  (faceVertex c (pick_idx pick) 2)
                  (rayGetPoint c (pick_dist pick)))).
Proof.
  unfold pick_mesh. destruct (showMesh w); [|now left].
  destruct (octMeshIsEmpty c); [now left|]. cbn.
  destruct (IntersectRayMesh c) as [pick|]; [|now left].
  right. eauto.
Qed.

Lemma pick_points_type (c : Cast) (w : Window) (t : Tentative) :
  pick_points c w t = t
  ∨ (showPointCloud w = true ∧ octPointsIsEmpty c = false
     ∧ ∃ pick, IntersectRayPoints c (CLAMP (minViews w) 1 (nImages c)) = Some pick
         ∧ Rltb (pick_dist pick) (minDist t) = true
         ∧ pick_points c w t
           = mkTentative SEL_POINT (pick_dist pick) (pick_idx pick)
               (mkPoints4 (pointAt c (pick_idx pick)) (p1 (newSelectionPoints t))
                  (p2 (newSelectionPoints t)) (pointAt c (pick_idx pick)))).
Proof.
  unfold pick_points. destruct (showPointCloud w); [|now left].
  destruct (octPointsIsEmpty c); [now left|]. cbn.
  destruct (IntersectRayPoints c _) as [pick|]; [|now left].
  destruct (Rltb (pick_dist pick) (minDist t)) eqn:Hlt; [|now left].
  right. eauto 10.
Qed.

(** The camera loop leaves the tentative selection as it is, or ends on
    one of its cameras, with that camera's position, distance and centre. *)
Lemma pick_cameras_type (cams : list (option REAL * Point3f)) :
  ∀ (k : Z) (t : Tentative),
  pick_cameras k cams t = t
  ∨ ∃ (i : nat) C,
      cams !! i = Some (Some (minDist (pick_cameras k cams t)), C)
      ∧ tType (pick_cameras k cams t) = SEL_CAMERA
      ∧ newSelectionIdx (pick_cameras k cams t) = k + Z.of_nat i
      ∧ p0 (newSelectionPoints (pick_cameras k cams t)) = C
      ∧ p3 (newSelectionPoints (pick_cameras k cams t)) = C.
Proof.
  induction cams as [|[o C] cams IH]; intros k t; [now left|].
  cbn [pick_cameras].
  destruct (IH (k + 1) (pick_camera k (o, C) t))
    as [Hsame|(i & C' & Hi & Ht & Hidx & H0 & H3)].
  - rewrite Hsame. unfold pick_camera. cbn [fst snd].
    destruct o as [dist|]; [|now left].
    destruct (Rltb dist (minDist t)); [|now left].
    right. exists 0%nat, C. cbn. rewrite Z.add_0_r. auto.
  - right. exists (S i), C'. cbn [lookup list_lookup].
    split; [exact Hi|]. split; [exact Ht|]. split; [lia|]. auto.
Qed.

(** X14. What the resolver cannot select: a triangle when the mesh is
    hidden or its octree empty, a point when the point cloud is hidden or
    its octree empty, a camera when no camera is inside the cone; and
    nothing at all when the ray meets nothing. *)
Theorem resolve_kinds (c : Cast) (w : Window) :
  (showMesh w = false ∨ octMeshIsEmpty c = true ∨ IntersectRayMesh c = None →
     tType (resolve c w) ≠ SEL_TRIANGLE)
  ∧ (showPointCloud w = false ∨ octPointsIsEmpty c = true
     ∨ IntersectRayPoints c (CLAMP (minViews w) 1 (nImages c)) = None →
     tType (resolve c w) ≠ SEL_POINT)
  ∧ ((∀ cam, In cam (cameras c) → fst cam = None) →
     tType (resolve c w) ≠ SEL_CAMERA)
  ∧ (tType (resolve c w) = SEL_NA → resolve c w = tentative0 c).
Proof.
  unfold resolve.
  destruct (pick_mesh_type c w (tentative0 c))
    as [Hm|(Hsm & Hom & pm & Hqm & Hm)]; rewrite Hm;
  (destruct (pick_points_type c w (pick_mesh c w (tentative0 c)))
    as [Hp|(Hsp & Hop & pp & Hqp & _ & Hp)]; rewrite Hm in Hp; rewrite Hp);
  match goal with
  | |- context [pick_cameras 0 (cameras c) ?t] =>
      destruct (pick_cameras_type (cameras c) 0 t)
        as [Hc|(i & C & Hi & Hc & _)]; rewrite ?Hc
  end; cbn;
  (split; [|split; [|split]]);
  try discriminate; try congruence;
  try (intros [?|[?|?]]; congruence);
  try (intros Hnone; apply list_elem_of_lookup_2, list_elem_of_In in Hi;
       specialize (Hnone _ Hi); discriminate);
  try (intros _; discriminate).
Qed.

Hypothesis Hord : strict_weak_order REAL.

(** "Not strictly closer" is transitive. *)
Lemma not_closer_trans (x y z : REAL) :
  Rltb x y = false → Rltb y z = false → Rltb x z = false.
Proof.
  intros Hxy Hyz. destruct (Rltb x z) eqn:Hxz; [|reflexivity].
  destruct (Rltb_cotrans Hord x y z Hxz); congruence.
Qed.

Lemma Rltb_asym (x y : REAL) : Rltb x y = true → Rltb y x = false.
Proof.
  intros Hxy. destruct (Rltb y x) eqn:Hyx; [|reflexivity].
  pose proof (Rltb_trans Hord x y x Hxy Hyx) as Hxx.
  rewrite (Rltb_irrefl Hord) in Hxx. discriminate.
Qed.

(** One camera: the tentative distance does not grow, and the camera is
    not strictly closer than it afterwards. *)
Lemma pick_camera_minDist (k : Z) (cam : option REAL * Point3f) (t : Tentative) :
  Rltb (minDist t) (minDist (pick_camera k cam t)) = false
  ∧ ∀ d, fst cam = Some d → Rltb d (minDist (pick_camera k cam t)) = false.
Proof.
  unfold pick_camera. destruct (fst cam) as [d|].
  - destruct (Rltb d (minDist t)) eqn:Hlt; cbn.
    + split; [now apply Rltb_asym|]. intros d' [= <-]. apply (Rltb_irrefl Hord).
    + split; [apply (Rltb_irrefl Hord)|]. intros d' [= <-]. exact Hlt.
  - split; [apply (Rltb_irrefl Hord)|]. discriminate.
Qed.

(** The camera loop, in full: either no camera was strictly closer than
    the tentative distance and nothing changed, or the loop ends on the
    first of the closest cameras - strictly closer than the tentative
    distance and than every camera before it, with no camera behind it
    strictly closer. *)
Lemma pick_cameras_first_closest (cams : list (option REAL * Point3f)) :
  ∀ (k : Z) (t : Tentative),
  (pick_cameras k cams t = t
   ∧ ∀ (j : nat) d C, cams !! j = Some (Some d, C) → Rltb d (minDist t) = false)
  ∨ ∃ (i : nat) C,
      cams !! i = Some (Some (minDist (pick_cameras k cams t)), C)
      ∧ tType (pick_cameras k cams t) = SEL_CAMERA
      ∧ newSelectionIdx (pick_cameras k cams t) = k + Z.of_nat i
      ∧ Rltb (minDist (pick_cameras k cams t)) (minDist t) = true
      ∧ (∀ (j : nat) d C', (j < i)%nat → cams !! j = Some (Some d, C') →
           Rltb (minDist (pick_cameras k cams t)) d = true)
      ∧ (∀ (j : nat) d C', cams !! j = Some (Some d, C') →
           Rltb d (minDist (pick_cameras k cams t)) = false).
Proof.
  induction cams as [|[o C] cams IH]; intros k t.
  { left. split; [reflexivity|]. intros j d C Hj. destruct j; discriminate. }
  cbn [pick_cameras].
  destruct (pick_camera_minDist k (o, C) t) as [Hdec Hcam]. cbn [fst] in Hcam.
  destruct (IH (k + 1) (pick_camera k (o, C) t))
    as [[Hsame Hfar]|(i & C' & Hi & Ht & Hidx & Hlt & Hbefore & Hafter)].
  - rewrite Hsame. unfold pick_camera in *. cbn [fst snd] in *.
    destruct o as [d0|].
    + destruct (Rltb d0 (minDist t)) eqn:H0.
      * right. exists 0%nat, C. cbn in *.
        split; [reflexivity|]. split; [reflexivity|]. split; [lia|].
        split; [exact H0|]. split; [intros j d C'' Hj; lia|].
        intros [|j] d C'' Hj; cbn in Hj.
        -- injection Hj as <- <-. apply (Rltb_irrefl Hord).
        -- eapply Hfar; eauto.
      * left. split; [reflexivity|].
        intros [|j] d C'' Hj; cbn in Hj.
        -- injection Hj as <- <-. exact H0.
        -- eapply Hfar; eauto.
    + left. split; [reflexivity|].
      intros [|j] d C'' Hj; cbn in Hj; [discriminate|]. eapply Hfar; eauto.
  - right. exists (S i), C'.
    set (r := pick_cameras (k + 1) cams (pick_camera k (o, C) t)) in *.
    split; [exact Hi|]. split; [exact Ht|]. split; [lia|].
    split; [|split].
    + destruct (Rltb_cotrans Hord _ (minDist t) _ Hlt) as [Hc|Hc];
        [exact Hc|congruence].
    + intros [|j] d C'' Hj Hl; cbn in Hl.
      * injection Hl as -> <-.
        destruct (Rltb_cotrans Hord _ d _ Hlt) as [Hc|Hc]; [exact Hc|].
        rewrite (Hcam d eq_refl) in Hc. discriminate.
      * apply (Hbefore j d C''); [lia|exact Hl].
    + intros [|j] d C'' Hl; cbn in Hl.
      * injection Hl as -> <-.
        apply (not_closer_trans d (minDist (pick_camera k (Some d, C) t)));
          [apply Hcam; reflexivity|].
        now apply Rltb_asym.
      * apply (Hafter j d C''). exact Hl.
Qed.

(** X15. The nearest candidate wins.  No camera inside the cone, no hit
    on the shown point cloud and no hit on the shown mesh is strictly
    closer than the distance of the selection that the resolver ends on. *)
Theorem resolve_nearest (c : Cast) (w : Window) :
  (∀ d C, In (Some d, C) (cameras c) → Rltb d (minDist (resolve c w)) = false)
  ∧ (showPointCloud w = true → octPointsIsEmpty c = false →
     ∀ pick, IntersectRayPoints c (CLAMP (minViews w) 1 (nImages c)) = Some pick →
       Rltb (pick_dist pick) (minDist (resolve c w)) = false)
  ∧ (showMesh w = true → octMeshIsEmpty c = false →
     ∀ pick, IntersectRayMesh c = Some pick →
       Rltb (pick_dist pick) (minDist (resolve c w)) = false).
Proof.
  unfold resolve.
  set (tm := pick_mesh c w (tentative0 c)).
  set (tp := pick_points c w tm).
  assert (Hloop : Rltb (minDist tp) (minDist (pick_cameras 0 (cameras c) tp)) = false
            ∧ ∀ d C, In (Some d, C) (cameras c) →
                Rltb d (minDist (pick_cameras 0 (cameras c) tp)) = false).
  { destruct (pick_cameras_first_closest (cameras c) 0 tp)
      as [[Hsame Hfar]|(i & C & _ & _ & _ & Hlt & _ & Hafter)].
    - rewrite Hsame. split; [apply (Rltb_irrefl Hord)|].
      intros d C Hin. apply list_elem_of_In, list_elem_of_lookup in Hin as [j Hj].
      eapply Hfar; eauto.
    - split; [now apply Rltb_asym|].
      intros d C' Hin. apply list_elem_of_In, list_elem_of_lookup in Hin as [j Hj].
      eapply Hafter; eauto. }
  destruct Hloop as [Hdec Hcams].
  assert (Hpts : Rltb (minDist tm) (minDist tp) = false).
  { subst tp. destruct (pick_points_type c w tm) as [->|(_ & _ & p & _ & Hlt & ->)].
    - apply (Rltb_irrefl Hord).
    - cbn. now apply Rltb_asym. }
  split; [exact Hcams|]. split.
  - intros Hs Ho pick Hq.
    apply (not_closer_trans _ (minDist tp)); [|exact Hdec].
    subst tp. unfold pick_points. rewrite Hs, Ho, Hq. cbn.
    destruct (Rltb (pick_dist pick) (minDist tm)) eqn:Hlt; cbn;
      [apply (Rltb_irrefl Hord)|exact Hlt].
  - intros Hs Ho pick Hq.
    apply (not_closer_trans _ (minDist tp)); [|exact Hdec].
    apply (not_closer_trans _ (minDist tm)); [|exact Hpts].
    subst tm. unfold pick_mesh. rewrite Hs, Ho, Hq. cbn.
    apply (Rltb_irrefl Hord).
Qed.

(** X16. A selected camera is the first of the closest cameras: the
    index selected is a position of the viewer list, the camera there is
    inside the cone at the distance selected, every camera before it is
    strictly farther, and no camera is strictly closer. *)
Theorem resolve_camera_first_closest (c : Cast) (w : Window) :
  tType (resolve c w) = SEL_CAMERA →
  ∃ (i : nat) C,
    newSelectionIdx (resolve c w) = Z.of_nat i
    ∧ cameras c !! i = Some (Some (minDist (resolve c w)), C)
    ∧ (∀ (j : nat) d C', (j < i)%nat → cameras c !! j = Some (Some d, C') →
         Rltb (minDist (resolve c w)) d = true)
    ∧ (∀ (j : nat) d C', cameras c !! j = Some (Some d, C') →
         Rltb d (minDist (resolve c w)) = false).
Proof.
  unfold resolve.
  set (tp := pick_points c w (pick_mesh c w (tentative0 c))).
  assert (Htp : tType tp ≠ SEL_CAMERA).
  { subst tp.
    destruct (pick_points_type c w (pick_mesh c w (tentative0 c)))
      as [->|(_ & _ & p & _ & _ & ->)]; [|discriminate].
    destruct (pick_mesh_type c w (tentative0 c))
      as [->|(_ & _ & p & _ & ->)]; discriminate. }
  intros Hcam.
  destruct (pick_cameras_first_closest (cameras c) 0 tp)
    as [[Hsame _]|(i & C & Hi & _ & Hidx & _ & Hbefore & Hafter)].
  - rewrite Hsame in Hcam. contradiction.
  - exists i, C. rewrite Hidx. auto.
Qed.

End ResolveFacts.

Lemma Qltb_lt (x y : Q) : Rltb x y = true ↔ (x < y)%Q.
Proof.
  cbn. unfold Qltb. rewrite negb_true_iff, <- not_true_iff_false, Qle_bool_iff.
  split; [apply Qnot_le_lt|apply Qlt_not_le].
Qed.

Lemma Q_strict_weak_order : strict_weak_order Q.
Proof.
  split.
  - exact Qltb_irrefl.
  - intros x y z. rewrite !Qltb_lt. apply Qlt_trans.
  - intros x y z. rewrite !Qltb_lt. intros Hxz.
    destruct (Qlt_le_dec x y) as [Hxy|Hyx]; [now left|right].
    eapply Qle_lt_trans; eauto.
Qed.

Lemma resolve_kinds_witness :
  Pick.tType (Pick.resolve PickSamples.cast_camera (PickSamples.window_point (20 # 1)))
  ≠ SEL_TRIANGLE
  ∧ Pick.tType (Pick.resolve PickSamples.cast_camera
                  (PickSamples.window_point (20 # 1)))
    ≠ SEL_POINT.
Proof.
  destruct (resolve_kinds PickSamples.cast_camera
              (PickSamples.window_point (20 # 1))) as (Hm & Hp & _).
  split.
  - apply Hm. right. right. reflexivity.
  - apply Hp. right. right. reflexivity.
Defined.

Lemma resolve_nearest_witness :
  Rltb (5 # 1)
    (Pick.minDist (Pick.resolve PickSamples.cast_tie PickSamples.window0))
  = false.
Proof.
  apply (proj1 (resolve_nearest Q_strict_weak_order
                  PickSamples.cast_tie PickSamples.window0)
           (5 # 1) PickSamples.origin).
  right. left. reflexivity.
Defined.

Lemma resolve_camera_first_closest_witness :
  ∃ (i : nat) C,
    Pick.newSelectionIdx
      (Pick.resolve PickSamples.cast_camera (PickSamples.window_point (20 # 1)))
    = Z.of_nat i
    ∧ Pick.cameras PickSamples.cast_camera !! i
      = Some (Some (Pick.minDist
                      (Pick.resolve PickSamples.cast_camera
                         (PickSamples.window_point (20 # 1)))), C).
Proof.
  destruct (resolve_camera_first_closest Q_strict_weak_order
              PickSamples.cast_camera (PickSamples.window_point (20 # 1)) eq_refl)
    as (i & C & Hidx & Hi & _).
  exists i, C. auto.
Defined.

Section ClickSequences.
Context {REAL : Type} `{RealOps REAL} {Point3f : Type}.
Import Pick.

Local Abbreviation Cast := (Pick.Cast REAL Point3f).
Local Abbreviation Window := (Pick.Window REAL Point3f).

(** A ray that meets nothing leaves the tentative selection empty. *)
Lemma resolve_nothing (c : Cast) (w : Window) :
  IntersectRayMesh c = None →
  IntersectRayPoints c (CLAMP (minViews w) 1 (nImages c)) = None →
  (∀ cam, In cam (cameras c) → fst cam = None) →
  resolve c w = tentative0 c.
Proof.
  intros Hm Hp Hc. unfold resolve, pick_mesh, pick_points. rewrite Hm, Hp.
  destruct (showMesh w && negb (octMeshIsEmpty c));
    destruct (showPointCloud w && negb (octPointsIsEmpty c));
    (destruct (pick_cameras_type (cameras c) 0 (tentative0 c))
       as [Hs|(i & C & Hi & _)]; [exact Hs|];
     apply list_elem_of_lookup_2, list_elem_of_In in Hi;
     specialize (Hc _ Hi); discriminate).
Qed.

(** X17. A click into the void clears the selection.  With the scene
    open and an octree built: when the ray meets no face, no point and
    no camera, a release that resolves it sets the
    selection kind to [SEL_NA] and changes nothing else of the window; the
    selection state is uploaded and a redraw requested exactly when
    something was selected before. *)
Theorem release_miss (c : Cast) (now : REAL) (button mods : Z) (w : Window) :
  IsOpen c = true → IsOctreeValid c = true →
  Rltb timeClick (Rminus now (selectionTimeClick w)) = false →
  negb (SELECTION_eqb (selectionType w) SEL_NA)
    && Rltb (Rminus now (selectionTime w)) timeDblClick = false →
  IntersectRayMesh c = None →
  IntersectRayPoints c (CLAMP (minViews w) 1 (nImages c)) = None →
  (∀ cam, In cam (cameras c) → fst cam = None) →
  OnCastRay c now button GLFW_RELEASE mods w
  = (set_selectionType SEL_NA w,
     if negb (SELECTION_eqb (selectionType w) SEL_NA)
     then [UploadSelection; RequestRedraw] else []).
Proof.
  intros Ho Hv Hlong Hdbl Hm Hp Hc.
  rewrite (OnCastRay_resolves c now button mods w Ho Hv Hlong Hdbl).
  rewrite (resolve_nothing c w Hm Hp Hc). reflexivity.
Qed.

(** The stored focus point of a resolved point or triangle. *)
Lemma resolve_focus (c : Cast) (w : Window) :
  (tType (resolve c w) = SEL_POINT →
     p3 (newSelectionPoints (resolve c w)) = pointAt c (newSelectionIdx (resolve c w)))
  ∧ (tType (resolve c w) = SEL_TRIANGLE →
     p3 (newSelectionPoints (resolve c w)) = rayGetPoint c (minDist (resolve c w))).
Proof.
  unfold resolve.
  destruct (pick_cameras_type (cameras c) 0
              (pick_points c w (pick_mesh c w (tentative0 c))))
    as [->|(i & C & _ & Hc & _)]; [|split; congruence].
  destruct (pick_points_type c w (pick_mesh c w (tentative0 c)))
    as [->|(_ & _ & p & _ & _ & ->)]; [|split; [reflexivity|discriminate]].
  destruct (pick_mesh_type c w (tentative0 c))
    as [->|(_ & _ & p & _ & ->)]; split; try discriminate; reflexivity.
Qed.

(** X18. Click, then double click, the scene being open and an octree
    built at each event.  A release that resolves the ray to a point or
    a triangle stores it; a press and a release that follow,
    the release within 0.2 s of the press and within 0.3 s of the first
    release, are a double click on it: in arcball mode camera-view mode is
    left and the scene is centred on the stored focus point - the picked
    point itself, or the point of the ray on the picked triangle -
    whatever the rays of the second click meet. *)
Theorem click_then_double_click (c c2 c3 : Cast) (now t2 t3 : REAL)
    (button mods mods2 mods3 : Z) (w : Window) :
  IsOpen c = true → IsOctreeValid c = true →
  IsOpen c2 = true → IsOctreeValid c2 = true →
  IsOpen c3 = true → IsOctreeValid c3 = true →
  Rltb timeClick (Rminus now (selectionTimeClick w)) = false →
  negb (SELECTION_eqb (selectionType w) SEL_NA)
    && Rltb (Rminus now (selectionTime w)) timeDblClick = false →
  tType (resolve c w) = SEL_POINT ∨ tType (resolve c w) = SEL_TRIANGLE →
  controlMode w = CONTROL_ARCBALL →
  Rltb timeClick (Rminus t3 t2) = false →
  Rltb (Rminus t3 now) timeDblClick = true →
  let w1 := fst (OnCastRay c now button GLFW_RELEASE mods w) in
  let w2 := fst (OnCastRay c2 t2 button GLFW_PRESS mods2 w1) in
  selectionType w1 = tType (resolve c w)
  ∧ selectionIdx w1 = newSelectionIdx (resolve c w)
  ∧ selectedNeighborCamera w1 = NO_ID
  ∧ OnCastRay c3 t3 button GLFW_RELEASE mods3 w2
    = (set_selectionTime t3 w2,
       [DisableCameraViewMode;
        animateTo (if SELECTION_eqb (tType (resolve c w)) SEL_POINT
                   then pointAt c (newSelectionIdx (resolve c w))
                   else rayGetPoint c (minDist (resolve c w)))]).
Proof.
  intros Ho Hv Ho2 Hv2 Ho3 Hv3 Hlong Hdbl Hkind Harc Hlong3 Hdbl3 w1 w2.
  destruct (resolve_focus c w) as [Hfp Hft].
  assert (Hw1 : w1 = set_selectionTime now
                  (set_selection (newSelectionIdx (resolve c w))
                     (newSelectionPoints (resolve c w))
                     (set_selectedNeighborCamera NO_ID
                        (set_selectionType (tType (resolve c w)) w)))).
  { subst w1. rewrite (OnCastRay_resolves c now button mods w Ho Hv Hlong Hdbl).
    unfold commit. destruct Hkind as [Hk|Hk]; rewrite Hk; reflexivity. }
  assert (Hw2 : w2 = set_selectionTimeClick t2 w1).
  { subst w2. unfold OnCastRay. rewrite Ho2, Hv2. reflexivity. }
  split; [rewrite Hw1; reflexivity|]. split; [rewrite Hw1; reflexivity|].
  split; [rewrite Hw1; reflexivity|].
  unfold OnCastRay, OnCenterScene. rewrite Ho3, Hv3.
  rewrite Hw2, Hw1. cbn. rewrite Hlong3, Hdbl3, Harc.
  destruct Hkind as [Hk|Hk]; rewrite Hk; cbn.
  - rewrite (Hfp Hk). reflexivity.
  - rewrite (Hft Hk). reflexivity.
Qed.

End ClickSequences.

Lemma release_miss_witness :
  Pick.OnCastRay
    (Pick.mkCast true false false 3 None (fun _ => None)
       (fun _ _ => PickSamples.origin) (fun _ => PickSamples.origin)
       (fun _ => PickSamples.origin) [(None, PickSamples.origin)]
       PickSamples.origin)
    (201 # 10) 0 GLFW_RELEASE 0 (PickSamples.window_point (20 # 1))
  = (Pick.set_selectionType SEL_NA (PickSamples.window_point (20 # 1)),
     [Pick.UploadSelection; Pick.RequestRedraw]).
Proof.
  apply (release_miss
           (Pick.mkCast true false false 3 None (fun _ => None)
              (fun _ _ => PickSamples.origin) (fun _ => PickSamples.origin)
              (fun _ => PickSamples.origin) [(None, PickSamples.origin)]
              PickSamples.origin)
           (201 # 10) 0 0 (PickSamples.window_point (20 # 1)));
    try reflexivity.
  intros cam [<-|[]]. reflexivity.
Defined.

Lemma click_then_double_click_witness :
  Pick.OnCastRay PickSamples.cast_camera (203 # 10) 0 GLFW_RELEASE 0
    (fst (Pick.OnCastRay PickSamples.cast_camera (202 # 10) 0 GLFW_PRESS 0
            (fst (Pick.OnCastRay PickSamples.cast_tie (201 # 10) 0 GLFW_RELEASE 0
                    (PickSamples.window_point (20 # 1))))))
  = (Pick.set_selectionTime (203 # 10)
       (fst (Pick.OnCastRay PickSamples.cast_camera (202 # 10) 0 GLFW_PRESS 0
               (fst (Pick.OnCastRay PickSamples.cast_tie (201 # 10) 0
                       GLFW_RELEASE 0 (PickSamples.window_point (20 # 1)))))),
     [Pick.DisableCameraViewMode; Pick.animateTo PickSamples.origin]).
Proof.
  assert (Hkind : Pick.tType (Pick.resolve PickSamples.cast_tie
                                 (PickSamples.window_point (20 # 1))) = SEL_POINT
                  ∨ Pick.tType (Pick.resolve PickSamples.cast_tie
                                  (PickSamples.window_point (20 # 1))) = SEL_TRIANGLE)
    by (right; reflexivity).
  exact (proj2 (proj2 (proj2
           (click_then_double_click PickSamples.cast_tie PickSamples.cast_camera
              PickSamples.cast_camera (201 # 10) (202 # 10) (203 # 10) 0 0 0 0
              (PickSamples.window_point (20 # 1))
              eq_refl eq_refl eq_refl eq_refl eq_refl eq_refl eq_refl eq_refl
              Hkind eq_refl eq_refl eq_refl)))).
Defined.

(** ** More on the sub-scene of the selection *)

Section CropMore.
Import Crop.

(** The loop over the selected points ends exactly when every selected
    index is a point of the cloud. *)
Lemma count_points_in_range (pointViews : list (list Z)) (selected : list Z) :
  ∀ m m', count_points pointViews selected m = Some m' →
  Forall (fun p => 0 <= p < Z.of_nat (length pointViews)) selected.
Proof.
  induction selected as [|p selected IH]; intros m m' Hrun; [constructor|].
  cbn [count_points] in Hrun.
  destruct (Z.leb_spec 0 p); [|discriminate].
  destruct (Z.ltb_spec p (Z.of_nat (length pointViews))); [|discriminate].
  cbn in Hrun. destruct (pointViews !! Z.to_nat p); [|discriminate].
  constructor; [lia|eauto].
Qed.

Lemma count_points_out_of_range (pointViews : list (list Z)) (selected : list Z) :
  ¬ Forall (fun p => 0 <= p < Z.of_nat (length pointViews)) selected →
  ∀ m, count_points pointViews selected m = None.
Proof.
  intros Hout m. destruct (count_points pointViews selected m) as [m'|] eqn:Hrun;
    [|reflexivity].
  exfalso. eauto using count_points_in_range.
Qed.

(** The map of the counters is determined by the occurrences. *)
Lemma counts_of_unique (l l' : list Z) (m m' : gmap Z Z) :
  counts_of l m → counts_of l' m' → (∀ i, occ l i = occ l' i) → m = m'.
Proof.
  intros Hm Hm' Hocc. apply map_eq. intros i. now rewrite (Hm i), (Hm' i), Hocc.
Qed.

(** X19. What a sub-scene is made of.  Whenever [CropToPoints] returns a
    sub-scene, the scene was valid, the list of its images has no
    duplicates, at least two entries and not as many as the scene has
    images, and each of its images is in the view list of a selected
    point. *)
Theorem CropToPoints_subscene (valid : bool) (pointViews : list (list Z))
    (nImages : Z) (selected : list Z) (minPoints : Z) (l : list Z) :
  CropToPoints valid pointViews nImages selected minPoints = Some (SubScene l) →
  valid = true
  ∧ NoDup l
  ∧ (2 <= length l)%nat
  ∧ Z.of_nat (length l) ≠ nImages
  ∧ ∀ i, i ∈ l →
      ∃ p views, p ∈ selected ∧ pointViews !! Z.to_nat p = Some views ∧ i ∈ views.
Proof.
  unfold CropToPoints. destruct valid; [|discriminate]. cbn [negb].
  destruct (count_points pointViews selected ∅) as [m|] eqn:Hrun; [|discriminate].
  cbn zeta.
  destruct (Z.ltb_spec (Z.of_nat (length (select_images minPoints m))) 2);
    [discriminate|].
  destruct (Z.eqb_spec (Z.of_nat (length (select_images minPoints m))) nImages);
    [discriminate|].
  intros [= <-]. split; [reflexivity|]. split; [apply select_images_NoDup|].
  split; [lia|]. split; [assumption|].
  intros i Hi. apply elem_of_select_images in Hi as (cnt & Hc & _).
  pose proof (count_points_in_range _ _ _ _ Hrun) as Hsel.
  destruct (count_points_counts pointViews selected [] ∅ Hsel counts_of_empty)
    as (m' & Hrun' & Hm').
  rewrite Hrun in Hrun'. injection Hrun' as <-. cbn [app] in Hm'.
  rewrite (Hm' i) in Hc.
  destruct (decide (occ (selected_views pointViews selected) i = 0));
    [discriminate|].
  assert (Hin : i ∈ selected_views pointViews selected).
  { apply occ_pos_elem. pose proof (occ_nonneg (selected_views pointViews selected) i).
    lia. }
  unfold selected_views in Hin.
  apply list_elem_of_In, in_flat_map in Hin as (p & Hp & Hin).
  apply list_elem_of_In in Hin, Hp.
  destruct (pointViews !! Z.to_nat p) as [views|] eqn:Hv; cbn in Hin;
    [|inversion Hin].
  eauto.
Qed.

(** X20. The order of the selection plays no part in what is counted:
    two selections that are permutations of one another give the same
    counter for every image, hence the same images with a counter of at
    least [minPoints], and results that are both the empty scene, or
    both a sub-scene of the same images; the order in which the images
    are handed to [SubScene] is that of the walk through the map and is
    left open. *)
Theorem CropToPoints_permutation (valid : bool) (pointViews : list (list Z))
    (nImages : Z) (selected selected' : list Z) (minPoints : Z) :
  selected ≡ₚ selected' →
  count_points pointViews selected ∅ = count_points pointViews selected' ∅
  ∧ (∀ m m', count_points pointViews selected ∅ = Some m →
       count_points pointViews selected' ∅ = Some m' →
       ∀ i, m !! i = m' !! i)
  ∧ (∀ m m', count_points pointViews selected ∅ = Some m →
       count_points pointViews selected' ∅ = Some m' →
       select_images minPoints m ≡ₚ select_images minPoints m')
  ∧ same_images (CropToPoints valid pointViews nImages selected minPoints)
      (CropToPoints valid pointViews nImages selected' minPoints).
Proof.
  intros Hperm.
  assert (Hcount : count_points pointViews selected ∅
                   = count_points pointViews selected' ∅).
  { destruct (decide (Forall (fun p => 0 <= p < Z.of_nat (length pointViews))
                        selected)) as [Hin|Hout].
    - assert (Hin' : Forall (fun p => 0 <= p < Z.of_nat (length pointViews))
                       selected') by (now rewrite <- Hperm).
      destruct (count_points_counts pointViews selected [] ∅ Hin counts_of_empty)
        as (m & -> & Hm).
      destruct (count_points_counts pointViews selected' [] ∅ Hin' counts_of_empty)
        as (m' & -> & Hm').
      f_equal. eapply counts_of_unique; eauto.
      intros i. unfold occ. cbn [app]. f_equal. apply Permutation_length.
      apply filter_Permutation. unfold selected_views.
      now apply Permutation_flat_map.
    - rewrite (count_points_out_of_range _ _ Hout).
      rewrite count_points_out_of_range; [reflexivity|].
      now rewrite <- Hperm. }
  split; [exact Hcount|]. split; [|split].
  - intros m m' Hm Hm'. rewrite Hcount in Hm. congruence.
  - intros m m' Hm Hm'. rewrite Hcount in Hm.
    assert (m = m') as -> by congruence. reflexivity.
  - unfold CropToPoints. rewrite Hcount.
    destruct (negb valid); [exact I|].
    destruct (count_points pointViews selected' ∅) as [m|]; [|exact I].
    cbn zeta. destruct (_ <? 2); [exact I|].
    destruct (_ =? nImages); [exact I|]. cbn. reflexivity.
Qed.

(** X21. A higher threshold never adds an image: the images picked for
    [minPoints'] are picked for every smaller [minPoints]; so when the
    higher threshold gives a sub-scene, the lower one gives a sub-scene
    that holds all its images, or the empty scene because every image of
    the scene is picked. *)
Theorem CropToPoints_threshold (pointViews : list (list Z)) (nImages : Z)
    (selected : list Z) (minPoints minPoints' : Z) (l' : list Z) :
  minPoints <= minPoints' →
  CropToPoints true pointViews nImages selected minPoints' = Some (SubScene l') →
  (∃ l, CropToPoints true pointViews nImages selected minPoints = Some (SubScene l)
        ∧ l' ⊆ l)
  ∨ (CropToPoints true pointViews nImages selected minPoints = Some EmptyScene
     ∧ ∃ m, count_points pointViews selected ∅ = Some m
            ∧ Z.of_nat (length (select_images minPoints m)) = nImages).
Proof.
  intros Hle. unfold CropToPoints. cbn [negb].
  destruct (count_points pointViews selected ∅) as [m|]; [|discriminate].
  cbn zeta.
  assert (Hsub : select_images minPoints' m ⊆ select_images minPoints m).
  { intros i. rewrite !elem_of_select_images. intros (c & Hc & Hmin).
    exists c. split; [exact Hc|lia]. }
  assert (Hlen : (length (select_images minPoints' m)
                  <= length (select_images minPoints m))%nat).
  { apply submseteq_length, NoDup_submseteq; [apply select_images_NoDup|].
    intros i. apply Hsub. }
  destruct (Z.ltb_spec (Z.of_nat (length (select_images minPoints' m))) 2);
    [discriminate|].
  destruct (Z.eqb_spec (Z.of_nat (length (select_images minPoints' m))) nImages);
    [discriminate|].
  intros [= <-].
  destruct (Z.ltb_spec (Z.of_nat (length (select_images minPoints m))) 2); [lia|].
  destruct (Z.eqb_spec (Z.of_nat (length (select_images minPoints m))) nImages).
  - right. split; [reflexivity|]. eauto.
  - left. eauto.
Qed.

Lemma occ_nil (i : Z) : occ [] i = 0.
Proof. reflexivity. Qed.

(** Among views without duplicates an image is counted once per selected
    point at most. *)
Lemma occ_selected_views_le (pointViews : list (list Z)) (selected : list Z) (i : Z) :
  Forall (fun views : list Z => NoDup views) pointViews →
  occ (selected_views pointViews selected) i <= Z.of_nat (length selected).
Proof.
  intros Hnd. induction selected as [|p selected IH];
    [unfold selected_views; cbn [flat_map]; rewrite occ_nil; cbn; lia|].
  unfold selected_views in *. cbn [flat_map]. rewrite occ_app. cbn [length].
  assert (H1 : occ (default [] (pointViews !! Z.to_nat p)) i <= 1).
  { destruct (pointViews !! Z.to_nat p) as [views|] eqn:Hv; cbn [default];
      [|rewrite occ_nil; lia].
    assert (Hv' : NoDup views).
    { rewrite Forall_forall in Hnd. apply Hnd.
      eapply list_elem_of_lookup_2; eauto. }
    clear Hv. change (occ views i <= 1).
    induction Hv' as [|v views Hnin _ IHv]; [rewrite occ_nil; lia|].
    change (v :: views) with ([v] ++ views). rewrite occ_app, occ_singleton.
    destruct (decide (v = i)) as [->|_]; [|lia].
    pose proof (occ_nonneg views i) as Hnn.
    destruct (decide (0 < occ views i)) as [Hpos|Hz]; [|lia].
    apply occ_pos_elem in Hpos. contradiction. }
  lia.
Qed.

(** X22. With view lists free of duplicates, a selection of fewer points
    than [minPoints] gives the empty scene. *)
Theorem CropToPoints_few_points (pointViews : list (list Z)) (nImages : Z)
    (selected : list Z) (minPoints : Z) :
  Forall (fun views : list Z => NoDup views) pointViews →
  Forall (fun p => 0 <= p < Z.of_nat (length pointViews)) selected →
  Z.of_nat (length selected) < minPoints →
  CropToPoints true pointViews nImages selected minPoints = Some EmptyScene.
Proof.
  intros Hnd Hsel Hfew. unfold CropToPoints. cbn [negb].
  destruct (count_points_counts pointViews selected [] ∅ Hsel counts_of_empty)
    as (m & -> & Hm).
  cbn [app] in Hm. cbn zeta.
  assert (Hnone : select_images minPoints m = []).
  { destruct (select_images minPoints m) as [|i k] eqn:Hs; [reflexivity|].
    assert (Hi : i ∈ select_images minPoints m) by (rewrite Hs; left).
    apply elem_of_select_images in Hi as (c & Hc & Hmin).
    rewrite (Hm i) in Hc.
    destruct (decide (occ (selected_views pointViews selected) i = 0));
      [discriminate|].
    injection Hc as <-.
    pose proof (occ_selected_views_le pointViews selected i Hnd) as Hle.
    pose proof (occ_nonneg (selected_views pointViews selected) i) as Hnn.
    pose proof (Z.mod_le (occ (selected_views pointViews selected) i) (2 ^ 32)
                  Hnn ltac:(lia)) as Hmod.
    lia. }
  rewrite Hnone. reflexivity.
Qed.

(** ** The points seen by a camera *)

(** The list made by the loop of [OnSelectPointsByCamera]: in increasing
    order, and exactly the points whose views hold the camera. *)
Lemma visible_points_spec (pointViews : list (list Z)) (imgIdx : Z) :
  ∀ k : Z,
  (∀ p, p ∈ Highlight.visible_points k pointViews imgIdx ↔
        ∃ (j : nat) views, p = k + Z.of_nat j ∧ pointViews !! j = Some views
                           ∧ imgIdx ∈ views)
  ∧ (∀ (a b : nat) x y,
       Highlight.visible_points k pointViews imgIdx !! a = Some x →
       Highlight.visible_points k pointViews imgIdx !! b = Some y →
       (a < b)%nat → x < y).
Proof.
  induction pointViews as [|views rest IH]; intros k; cbn [Highlight.visible_points].
  { split.
    - intros p. split; [intros Hp; inversion Hp|].
      intros (j & v & _ & Hj & _). destruct j; discriminate.
    - intros a b x y Ha. destruct a; discriminate. }
  destruct (IH (k + 1)) as [Hmem Hinc].
  assert (Hge : ∀ p, p ∈ Highlight.visible_points (k + 1) rest imgIdx → k < p).
  { intros p Hp. apply Hmem in Hp as (j & _ & -> & _). lia. }
  assert (Hex : existsb (fun v => v =? imgIdx) views = true ↔ imgIdx ∈ views).
  { rewrite existsb_exists. split.
    - intros (v & Hv & He). apply Z.eqb_eq in He as <-. now apply list_elem_of_In.
    - intros Hin. exists imgIdx. split; [now apply list_elem_of_In|apply Z.eqb_refl]. }
  destruct (existsb (fun v => v =? imgIdx) views) eqn:He.
  - split.
    + intros p. rewrite elem_of_cons, Hmem. split.
      * intros [->|(j & v & -> & Hj & Hin)].
        -- exists 0%nat, views. rewrite Z.add_0_r. split; [reflexivity|].
           split; [reflexivity|]. now apply Hex.
        -- exists (S j), v. split; [lia|]. auto.
      * intros ([|j] & v & -> & Hj & Hin); [left; lia|right].
        exists j, v. split; [lia|]. auto.
    + intros [|a] [|b] x y Ha Hb Hab; cbn in Ha, Hb; try lia.
      * injection Ha as <-. apply Hge. eapply list_elem_of_lookup_2; eauto.
      * apply (Hinc a b x y Ha Hb). lia.
  - split; [|exact Hinc].
    intros p. rewrite Hmem. split.
    + intros (j & v & -> & Hj & Hin). exists (S j), v. split; [lia|]. auto.
    + intros ([|j] & v & -> & Hj & Hin).
      * cbn in Hj. injection Hj as <-. apply Hex in Hin. discriminate.
      * exists j, v. split; [lia|]. auto.
Qed.

(** X23. The points highlighted for a camera are, in increasing order
    and without repetition, exactly the points of the cloud that have the
    MVS index of the camera among their views. *)
Theorem visible_points_exact (pointViews : list (list Z)) (imgIdx : Z) :
  let l := Highlight.visible_points 0 pointViews imgIdx in
  (∀ p, p ∈ l ↔ 0 <= p < Z.of_nat (length pointViews)
                ∧ ∃ views, pointViews !! Z.to_nat p = Some views ∧ imgIdx ∈ views)
  ∧ (∀ (a b : nat) x y, l !! a = Some x → l !! b = Some y → (a < b)%nat → x < y)
  ∧ NoDup l.
Proof.
  intros l. destruct (visible_points_spec pointViews imgIdx 0) as [Hmem Hinc].
  fold l in Hmem, Hinc. split; [|split; [exact Hinc|]].
  - intros p. rewrite Hmem. split.
    + intros (j & views & -> & Hj & Hin). rewrite Z.add_0_l, Nat2Z.id.
      pose proof (lookup_lt_Some _ _ _ Hj). split; [lia|eauto].
    + intros (Hr & views & Hj & Hin). exists (Z.to_nat p), views.
      split; [lia|auto].
  - apply NoDup_alt. intros a b x Ha Hb.
    destruct (Nat.lt_trichotomy a b) as [Hab|[Hab|Hab]]; [|exact Hab|].
    + pose proof (Hinc a b x x Ha Hb Hab). lia.
    + pose proof (Hinc b a x x Hb Ha Hab). lia.
Qed.

(** Every selected point seen by an image counts for it. *)
Lemma occ_selected_views_ge (pointViews : list (list Z)) (selected : list Z) (i : Z) :
  (∀ p, p ∈ selected → i ∈ default [] (pointViews !! Z.to_nat p)) →
  Z.of_nat (length selected) <= occ (selected_views pointViews selected) i.
Proof.
  induction selected as [|p selected IH]; intros Hall;
    [unfold selected_views; cbn [flat_map]; rewrite occ_nil; cbn; lia|].
  unfold selected_views in *. cbn [flat_map]. rewrite occ_app. cbn [length].
  assert (H1 : 0 < occ (default [] (pointViews !! Z.to_nat p)) i).
  { apply occ_pos_elem, Hall. left. }
  assert (H2 : Z.of_nat (length selected)
               <= occ (flat_map (fun pointIdx => default [] (pointViews !! Z.to_nat pointIdx))
                         selected) i).
  { apply IH. intros q Hq. apply Hall. now right. }
  lia.
Qed.

(** X24. Highlight, then crop.  When the points highlighted for the
    camera with MVS index [imgIdx] are the selection, and [minPoints] is
    not above their number, a sub-scene returned by [CropToPoints] holds
    that camera's image. *)
Theorem crop_keeps_highlight_camera (pointViews : list (list Z)) (nImages : Z)
    (imgIdx minPoints : Z) (l : list Z) :
  let selected := Highlight.visible_points 0 pointViews imgIdx in
  minPoints <= Z.of_nat (length selected) →
  Z.of_nat (length (selected_views pointViews selected)) < 2 ^ 32 →
  CropToPoints true pointViews nImages selected minPoints = Some (SubScene l) →
  imgIdx ∈ l.
Proof.
  intros selected Hmin Hwrap Hrun.
  assert (Hmem : ∀ p, p ∈ selected →
            0 <= p < Z.of_nat (length pointViews)
            ∧ ∃ views, pointViews !! Z.to_nat p = Some views ∧ imgIdx ∈ views).
  { intros p Hp.
    apply (proj1 (visible_points_spec pointViews imgIdx 0)) in Hp
      as (j & views & -> & Hj & Hin).
    rewrite Z.add_0_l, Nat2Z.id. pose proof (lookup_lt_Some _ _ _ Hj).
    split; [lia|eauto]. }
  assert (Hsel : Forall (fun p => 0 <= p < Z.of_nat (length pointViews)) selected).
  { apply Forall_forall. intros p Hp. now apply Hmem in Hp as [Hr _]. }
  destruct (count_points_counts pointViews selected [] ∅ Hsel counts_of_empty)
    as (m & Hcount & Hm).
  cbn [app] in Hm.
  pose proof (occ_selected_views_ge pointViews selected imgIdx) as Hge.
  assert (Hall : ∀ p, p ∈ selected →
            imgIdx ∈ default [] (pointViews !! Z.to_nat p)).
  { intros p Hp. apply Hmem in Hp as (_ & views & -> & Hin). exact Hin. }
  specialize (Hge Hall).
  pose proof (occ_le_length (selected_views pointViews selected) imgIdx) as Hlen.
  unfold CropToPoints in Hrun. cbn [negb] in Hrun. rewrite Hcount in Hrun.
  cbn zeta in Hrun.
  destruct (Z.ltb_spec (Z.of_nat (length (select_images minPoints m))) 2) as [|H2];
    [discriminate|].
  destruct (Z.eqb_spec (Z.of_nat (length (select_images minPoints m))) nImages);
    [discriminate|].
  injection Hrun as <-.
  assert (Hpos : 0 < Z.of_nat (length selected)).
  { destruct selected as [|p k] eqn:Hs; [|cbn; lia]. exfalso.
    assert (Hm0 : ∀ i, m !! i = None).
    { intros i. rewrite (Hm i). reflexivity. }
    destruct (select_images minPoints m) as [|i k] eqn:Hsi; [cbn in H2; lia|].
    assert (Hi : i ∈ select_images minPoints m) by (rewrite Hsi; left).
    apply elem_of_select_images in Hi as (c & Hc & _). rewrite Hm0 in Hc.
    discriminate. }
  apply elem_of_select_images.
  exists (occ (selected_views pointViews selected) imgIdx). split; [|lia].
  rewrite (Hm imgIdx).
  destruct (decide (occ (selected_views pointViews selected) imgIdx = 0)); [lia|].
  rewrite Z.mod_small by lia. reflexivity.
Qed.

End CropMore.

Lemma Release_keeps_loading_witness :
  Image.AssignImage (Image.mkMat 640 480)
    (Image.Release (Image.mkImage 3 5 640 480 Image.IMG_LOADING))
  = match Image.fit_width (Image.mkMat 640 480) with
    | Some m =>
        Some (Image.set_pImage (Image.IMG_PTR m)
                (Image.Release (Image.mkImage 3 5 640 480 Image.IMG_LOADING)))
    | None => None
    end.
Proof.
  apply (Release_keeps_loading (Image.mkImage 3 5 640 480 Image.IMG_LOADING)).
  reflexivity.
Defined.

Lemma CropToPoints_subscene_witness :
  ∃ l, Crop.CropToPoints true [[0; 3]; [0; 3]; [1]] 5 [0; 1; 2] 2
       = Some (Crop.SubScene l)
       ∧ NoDup l ∧ (2 <= length l)%nat.
Proof.
  eexists. split; [vm_compute; reflexivity|].
  destruct (CropToPoints_subscene true [[0; 3]; [0; 3]; [1]] 5 [0; 1; 2] 2 _
              ltac:(vm_compute; reflexivity)) as (_ & Hnd & Hlen & _).
  split; [exact Hnd|exact Hlen].
Defined.

Lemma CropToPoints_permutation_witness :
  Crop.count_points [[1; 3]; [3; 0]; [0; 1]] [0; 1; 2] ∅
  = Crop.count_points [[1; 3]; [3; 0]; [0; 1]] [2; 0; 1] ∅
  ∧ Crop.same_images
      (Crop.CropToPoints true [[1; 3]; [3; 0]; [0; 1]] 5 [0; 1; 2] 2)
      (Crop.CropToPoints true [[1; 3]; [3; 0]; [0; 1]] 5 [2; 0; 1] 2).
Proof.
  destruct (CropToPoints_permutation true [[1; 3]; [3; 0]; [0; 1]] 5
              [0; 1; 2] [2; 0; 1] 2) as (H1 & _ & _ & H4).
  - etransitivity; [apply perm_skip, perm_swap|apply perm_swap].
  - split; [exact H1|exact H4].
Defined.

Lemma CropToPoints_threshold_witness :
  (∃ l, Crop.CropToPoints true [[0; 3]; [0; 3]; [1]] 5 [0; 1; 2] 1
        = Some (Crop.SubScene l))
  ∨ Crop.CropToPoints true [[0; 3]; [0; 3]; [1]] 5 [0; 1; 2] 1
    = Some Crop.EmptyScene.
Proof.
  destruct (CropToPoints_threshold [[0; 3]; [0; 3]; [1]] 5 [0; 1; 2] 1 2 _
              ltac:(lia) ltac:(vm_compute; reflexivity))
    as [(l & Hl & _)|(He & _)].
  - left. exists l. exact Hl.
  - right. exact He.
Defined.

Lemma CropToPoints_few_points_witness :
  Crop.CropToPoints true [[0; 3]; [0; 3]; [1]] 5 [0; 1; 2] 150
  = Some Crop.EmptyScene.
Proof.
  apply (CropToPoints_few_points [[0; 3]; [0; 3]; [1]] 5 [0; 1; 2] 150).
  - repeat constructor; intros Hin;
      repeat (apply elem_of_cons in Hin as [Hin|Hin]; [discriminate|]);
      inversion Hin.
  - repeat (constructor; try (cbn; lia)).
  - cbn. lia.
Defined.

Lemma visible_points_exact_witness :
  1 ∈ Highlight.visible_points 0 [[0; 3]; [0; 2]; [3]] 0.
Proof.
  apply (proj1 (visible_points_exact [[0; 3]; [0; 2]; [3]] 0) 1).
  split; [cbn; lia|]. exists [0; 2]. split; [reflexivity|]. left.
Defined.

Lemma crop_keeps_highlight_camera_witness :
  ∃ l, Crop.CropToPoints true [[0; 3]; [0; 2]; [3]] 5
         (Highlight.visible_points 0 [[0; 3]; [0; 2]; [3]] 0) 1
       = Some (Crop.SubScene l)
       ∧ 0 ∈ l.
Proof.
  eexists. split; [vm_compute; reflexivity|].
  apply (crop_keeps_highlight_camera [[0; 3]; [0; 2]; [3]] 5 0 1).
  - vm_compute. discriminate.
  - vm_compute. reflexivity.
  - vm_compute. reflexivity.
Defined.

(** ** More on the region of interest *)

Section ROIMore.
Import ROI.

Variable OBB_fit : list Point3f → Z → OBB3f.

(** Indices at or beyond the end give no point. *)
Lemma flat_map_at_index_out {A} (v : list A) (l : list Z) :
  Forall (fun i => (Z.of_nat (length v) <= i)%Z) l → flat_map (at_index v) l = [].
Proof.
  induction 1 as [|i l Hi _ IH]; [reflexivity|].
  cbn [flat_map]. rewrite IH. unfold at_index.
  destruct (Z.ltb_spec i (Z.of_nat (length v))); [lia|reflexivity].
Qed.

(** X26. [SetROIFromSelection] changes the region of interest and
    nothing else: points, vertices, faces and Selection Set are kept.
    And when every selected index lies outside its collection, it does
    nothing at all. *)
Theorem SetROIFromSelection_frame (aabb : bool) (s : Scene) :
  (let s' := fst (SetROIFromSelection OBB_fit aabb s) in
   points s' = points s ∧ vertices s' = vertices s ∧ faces s' = faces s
   ∧ selectionController s' = selectionController s
   ∧ window_IsValid s' = window_IsValid s)
  ∧ (Forall (fun i => (Z.of_nat (length (points s)) <= i)%Z)
       (getSelectedPointIndices (selectionController s)) →
     Forall (fun i => (Z.of_nat (length (faces s)) <= i)%Z)
       (getSelectedFaceIndices (selectionController s)) →
     SetROIFromSelection OBB_fit aabb s = (s, [])).
Proof.
  split.
  - unfold SetROIFromSelection.
    destruct (negb (IsOpen s)); [cbn; auto|].
    destruct (negb (hasSelection (selectionController s))); [cbn; auto|].
    destruct (selected_cloud_points s ++ selected_face_vertices s); cbn; auto.
  - intros Hp Hf. unfold SetROIFromSelection.
    destruct (negb (IsOpen s)); [reflexivity|].
    destruct (negb (hasSelection (selectionController s))); [reflexivity|].
    assert (Hcp : selected_cloud_points s = []).
    { unfold selected_cloud_points. destruct (negb _); [|reflexivity].
      now apply flat_map_at_index_out. }
    assert (Hfv : selected_face_vertices s = []).
    { unfold selected_face_vertices. destruct (negb _); [|reflexivity].
      induction Hf as [|i l Hi _ IH]; [reflexivity|].
      cbn [flat_map]. rewrite IH.
      assert (Hout : at_index (faces s) i = []).
      { unfold at_index.
        destruct (Z.ltb_spec i (Z.of_nat (length (faces s)))); [lia|reflexivity]. }
      rewrite Hout. reflexivity. }
    rewrite Hcp, Hfv. reflexivity.
Qed.

End ROIMore.

Lemma SetROIFromSelection_frame_witness :
  ROI.SetROIFromSelection ROI.no_fit true
    (ROI.mkScene true [ROI.point 1 2 3] [] [] None (mkSelection [5%Z] [7%Z]))
  = (ROI.mkScene true [ROI.point 1 2 3] [] [] None (mkSelection [5%Z] [7%Z]), []).
Proof.
  apply (SetROIFromSelection_frame ROI.no_fit true
           (ROI.mkScene true [ROI.point 1 2 3] [] [] None
              (mkSelection [5%Z] [7%Z])));
    repeat constructor; cbn; lia.
Defined.

(** ** The Escape key *)

Section EscapeFacts.
Import UI.

(** One Escape, outside camera-view mode: the first open dialog is
    closed, no dialog is opened. *)
Lemma HandleGlobalKeys_closes_one (k : Keys) (u : UI) :
  IsKeyReleased_Escape k = true → IsCameraViewMode k = false →
  open_dialogs (fst (HandleGlobalKeys k u)) = Nat.pred (open_dialogs u)
  ∧ Forall2 (fun b' b : bool => implb b' b = true)
      (dialogs (fst (HandleGlobalKeys k u))) (dialogs u)
  ∧ (open_dialogs u ≠ 0%nat →
     snd (HandleGlobalKeys k u) = []
     ∧ showMainMenu (fst (HandleGlobalKeys k u)) = showMainMenu u).
Proof.
  intros He Hc. unfold HandleGlobalKeys. rewrite He, Hc.
  destruct u as [si cc sc rs po vo so ab he ex ci sd mm].
  unfold open_dialogs, dialogs. cbn [showAboutDialog showHelpDialog
    showExportDialog showSceneInfo showCameraInfoDialog showCameraControls
    showSelectionControls showSelectionDialog showRenderSettings showMainMenu].
  destruct (IsPopupOpen_AnyPopup k), mm, ab, he, ex, si, ci, cc, sc, sd, rs; cbn;
    (split; [reflexivity|]); (split; [repeat constructor|]);
    try (intros _; split; reflexivity);
    intros Hne; contradiction.
Qed.

(** What one Escape does to the dialog flags, outside camera-view
    mode. *)
Lemma HandleGlobalKeys_close_first (k : Keys) (u : UI) :
  IsKeyReleased_Escape k = true → IsCameraViewMode k = false →
  dialogs (fst (HandleGlobalKeys k u)) = close_first (dialogs u).
Proof.
  intros He Hc. unfold HandleGlobalKeys. rewrite He, Hc.
  destruct u as [si cc sc rs po vo so ab he ex ci sd mm].
  unfold dialogs. cbn [showAboutDialog showHelpDialog
    showExportDialog showSceneInfo showCameraInfoDialog showCameraControls
    showSelectionControls showSelectionDialog showRenderSettings showMainMenu].
  destruct (IsPopupOpen_AnyPopup k), ab, he, ex, si, ci, cc, sc, sd, rs;
    reflexivity.
Qed.

Lemma close_first_replicate (n : nat) (rest : list bool) :
  close_first (replicate n false ++ true :: rest)
  = replicate n false ++ false :: rest.
Proof. induction n as [|n IH]; cbn; [reflexivity|]. now rewrite IH. Qed.

Lemma filter_replicate_false (n : nat) :
  List.filter (fun b : bool => b) (replicate n false) = [].
Proof. induction n as [|n IH]; cbn; auto. Qed.

(** X27. One released Escape.  In camera-view mode it leaves that mode
    and touches no dialog.  Otherwise, when a dialog is open, it closes
    the first open one in the order About, Help, Export, Scene Info,
    Camera Info, Camera Controls, Selection Controls, Selection Dialog,
    Render Settings, and leaves every other dialog as it was, without
    any other call and without hiding the menu; when no dialog is open,
    it closes the current popup when there is one and changes nothing
    else, and otherwise clears the focus and hides the main menu.  It
    never opens a dialog or changes an overlay. *)
Theorem Escape_closes_dialogs (k : Keys) (u : UI) :
  IsKeyReleased_Escape k = true →
  (IsCameraViewMode k = true → HandleGlobalKeys k u = (u, [DisableCameraViewMode]))
  ∧ (IsCameraViewMode k = false →
     let u' := fst (HandleGlobalKeys k u) in
     (∀ (n : nat) (rest : list bool),
        dialogs u = replicate n false ++ true :: rest →
        dialogs u' = replicate n false ++ false :: rest
        ∧ snd (HandleGlobalKeys k u) = []
        ∧ showMainMenu u' = showMainMenu u)
     ∧ (open_dialogs u = 0%nat →
        dialogs u' = dialogs u
        ∧ (IsPopupOpen_AnyPopup k = true →
           HandleGlobalKeys k u = (u, [CloseCurrentPopup]))
        ∧ (IsPopupOpen_AnyPopup k = false →
           snd (HandleGlobalKeys k u) = [SetWindowFocus_nullptr; ClearActiveID]
           ∧ showMainMenu u' = false))
     ∧ open_dialogs u' = Nat.pred (open_dialogs u)
     ∧ Forall2 (fun b' b : bool => implb b' b = true) (dialogs u') (dialogs u)
     ∧ showPerformanceOverlay u' = showPerformanceOverlay u
     ∧ showViewportOverlay u' = showViewportOverlay u
     ∧ showSelectionOverlay u' = showSelectionOverlay u).
Proof.
  intros He. split.
  - intros Hc. unfold HandleGlobalKeys. now rewrite He, Hc.
  - intros Hc u'.
    destruct (HandleGlobalKeys_closes_one k u He Hc) as (Hone & Hmono & Hcalls).
    split; [|split; [|split; [exact Hone|split; [exact Hmono|]]]].
    + intros n rest Hd. subst u'.
      rewrite (HandleGlobalKeys_close_first k u He Hc), Hd.
      split; [apply close_first_replicate|]. apply Hcalls.
      unfold open_dialogs. rewrite Hd, List.filter_app, filter_replicate_false.
      cbn. discriminate.
    + intros Hnone. subst u'. clear Hone Hmono Hcalls.
      unfold HandleGlobalKeys. rewrite He, Hc.
      destruct u as [si cc sc rs po vo so ab he ex ci sd mm].
      unfold open_dialogs, dialogs in Hnone |- *.
      cbn [showAboutDialog showHelpDialog showExportDialog showSceneInfo
           showCameraInfoDialog showCameraControls showSelectionControls
           showSelectionDialog showRenderSettings showMainMenu] in Hnone |- *.
      destruct ab, he, ex, si, ci, cc, sc, sd, rs; try discriminate Hnone.
      destruct (IsPopupOpen_AnyPopup k), mm; cbn;
        (split; [reflexivity|]); split; intros; try discriminate;
        try reflexivity; split; reflexivity.
    + subst u'. unfold HandleGlobalKeys. rewrite He, Hc.
      repeat match goal with
             | |- context [if ?b then _ else _] => destruct b; cbn; auto
             end.
Qed.

End EscapeFacts.

Lemma Escape_closes_dialogs_witness :
  UI.dialogs
    (fst (UI.HandleGlobalKeys (UI.mkKeys true false false)
            (UI.mkUI false true false false true true true false true false
               false false true)))
  = [false; false; false; false; false; true; false; false; false]
  ∧ snd (UI.HandleGlobalKeys (UI.mkKeys true false false)
           (UI.mkUI false true false false true true true false true false
              false false true))
    = [].
Proof.
  destruct (proj1 (proj2 (Escape_closes_dialogs (UI.mkKeys true false false)
                            (UI.mkUI false true false false true true true
                               false true false false false true) eq_refl)
                     eq_refl)
              1%nat [false; false; false; true; false; false; false] eq_refl)
    as (Hd & Hc & _).
  split; [exact Hd|exact Hc].
Defined.
